(** * timage: registry client and local content store

    A shallow embedding of the parts of [ioworker0/timage] that its
    specification talks about: reference parsing ([cmd/pull.go]), the
    on-disk layout of the content store ([pkg/storage]), the registry
    client's request layer and authentication ([pkg/registry]) and the
    manifest and blob operations built on them; and, beyond these, the
    rest of the store ([store.go]), the configuration ([pkg/config]), the
    choice of proxy ([pkg/proxy]) and the commands [login], [tag] and [rm].

    Go strings are byte sequences and are modelled by [string]; Go maps by
    [gmap]; errors by their message text (the push command classifies
    errors by substring, so the text is what matters). *)

From Stdlib Require Import String Ascii List NArith ZArith Lia Bool DecimalString.
From stdpp Require Import base option list gmap strings fin_maps sorting.

Local Open Scope string_scope.

(** ** The [strings] package of the Go standard library *)

Module GoStrings.

(** [s[n:]] and [s[:n]] for [n <= len(s)]. *)
Fixpoint sliceFrom (n : nat) (s : string) : string :=
  match n, s with
  | O, _ => s
  | S n', String _ s' => sliceFrom n' s'
  | S _, EmptyString => EmptyString
  end.

Fixpoint sliceTo (n : nat) (s : string) : string :=
  match n, s with
  | O, _ => EmptyString
  | S n', String c s' => String c (sliceTo n' s')
  | S _, EmptyString => EmptyString
  end.

(** [strings.HasPrefix(s, p)]. *)
Fixpoint HasPrefix (s p : string) {struct p} : bool :=
  match p, s with
  | EmptyString, _ => true
  | String _ _, EmptyString => false
  | String a p', String b s' => if Ascii.eqb a b then HasPrefix s' p' else false
  end.

(** [strings.Index(s, sub)]; [None] stands for Go's [-1]. *)
Fixpoint Index (s sub : string) : option nat :=
  match s with
  | EmptyString => if HasPrefix EmptyString sub then Some O else None
  | String _ s' =>
      if HasPrefix s sub then Some O
      else match Index s' sub with
           | Some i => Some (S i)
           | None => None
           end
  end.

(** [strings.LastIndex(s, sub)]. *)
Fixpoint LastIndex (s sub : string) : option nat :=
  match s with
  | EmptyString => if HasPrefix EmptyString sub then Some O else None
  | String _ s' =>
      match LastIndex s' sub with
      | Some i => Some (S i)
      | None => if HasPrefix s sub then Some O else None
      end
  end.

(** [strings.Contains(s, sub)] is [Index(s, sub) >= 0]. *)
Definition Contains (s sub : string) : bool :=
  match Index s sub with
  | Some _ => true
  | None => false
  end.

(** [strings.ReplaceAll(s, old, new)] for a non-empty [old]: scan from the
    left, and after a match resume behind it. [skip] counts the bytes of
    the current match that are still to be passed over. *)
Fixpoint replaceFrom (old new : string) (skip : nat) (s : string) : string :=
  match s with
  | EmptyString => EmptyString
  | String c s' =>
      match skip with
      | S k => replaceFrom old new k s'
      | O =>
          if HasPrefix s old
          then new ++ replaceFrom old new (String.length old - 1) s'
          else String c (replaceFrom old new O s')
      end
  end.

(** For an empty [old] Go inserts [new] before every UTF-8 sequence and at
    the end; on bytes that is the interleaving below. The program only
    passes the non-empty literals [":"], ["/"], ["_"], ["_COLON_"] and
    ["_SLASH_"]. *)
Fixpoint interleave (new s : string) : string :=
  match s with
  | EmptyString => new
  | String c s' => new ++ String c (interleave new s')
  end.

Definition ReplaceAll (s old new : string) : string :=
  match old with
  | EmptyString => interleave new s
  | String _ _ => replaceFrom old new O s
  end.

(** [strings.TrimPrefix(s, p)]. *)
Definition TrimPrefix (s p : string) : string :=
  if HasPrefix s p then sliceFrom (String.length p) s else s.

(** [strings.Split(s, sep)] for a non-empty [sep], scanning like
    [replaceFrom]; the head of the result is the piece being read. *)
Fixpoint splitFrom (sep : string) (skip : nat) (s : string) : list string :=
  match s with
  | EmptyString => [EmptyString]
  | String c s' =>
      match skip with
      | S k => splitFrom sep k s'
      | O =>
          if HasPrefix s sep
          then EmptyString :: splitFrom sep (String.length sep - 1) s'
          else match splitFrom sep O s' with
               | piece :: pieces => String c piece :: pieces
               | [] => [String c EmptyString]
               end
      end
  end.

(** With an empty separator Go splits after each UTF-8 sequence (bytes
    here); the program only splits on [","]. *)
Fixpoint explode (s : string) : list string :=
  match s with
  | EmptyString => []
  | String c s' => String c EmptyString :: explode s'
  end.

Definition Split (s sep : string) : list string :=
  match sep with
  | EmptyString => explode s
  | String _ _ => splitFrom sep O s
  end.

(** [strings.SplitN(s, sep, n)] for [n >= 0] and a non-empty [sep]. *)
Fixpoint SplitN (s sep : string) (n : nat) : list string :=
  match n with
  | O => []
  | S O => [s]
  | S n' =>
      match Index s sep with
      | Some i => sliceTo i s :: SplitN (sliceFrom (i + String.length sep) s) sep n'
      | None => [s]
      end
  end.

(** Trimming byte by byte, as [strings.Trim] does for a cutset of ASCII
    bytes. *)
Fixpoint trimLeftFunc (f : ascii -> bool) (s : string) : string :=
  match s with
  | EmptyString => EmptyString
  | String c s' => if f c then trimLeftFunc f s' else s
  end.

Fixpoint trimRightFunc (f : ascii -> bool) (s : string) : string :=
  match s with
  | EmptyString => EmptyString
  | String c s' =>
      match trimRightFunc f s' with
      | EmptyString => if f c then EmptyString else String c EmptyString
      | t => String c t
      end
  end.

(** *** White space

    [strings.TrimSpace] compares bytes as long as they are ASCII, and from
    the first byte that is not it decodes UTF-8 and asks
    [unicode.IsSpace]. *)

(** The table [asciiSpace]: tab, line feed, vertical tab, form feed,
    carriage return and space. *)
Definition asciiSpace (c : ascii) : bool :=
  let n := nat_of_ascii c in
  (Nat.leb 9 n && Nat.leb n 13) || Nat.eqb n 32.

(** A rune is a code point; [utf8.RuneError] is what decoding returns for
    bytes that are no UTF-8. *)
Definition RuneError : N := 0xFFFD%N.

Definition byteOf (c : ascii) : N := N_of_ascii c.

(** [c >= utf8.RuneSelf]. *)
Definition notASCII (c : ascii) : bool := N.leb 0x80 (byteOf c).

(** The tables [first] and [acceptRanges] of [unicode/utf8]: for the
    leading byte of a sequence of several bytes, its width and the bounds
    of its second byte. *)
Definition firstByte (s0 : N) : option (nat * N * N) :=
  if N.ltb s0 0xC2 then None
  else if N.leb s0 0xDF then Some (2%nat, 0x80%N, 0xBF%N)
  else if N.eqb s0 0xE0 then Some (3%nat, 0xA0%N, 0xBF%N)
  else if N.leb s0 0xEC then Some (3%nat, 0x80%N, 0xBF%N)
  else if N.eqb s0 0xED then Some (3%nat, 0x80%N, 0x9F%N)
  else if N.leb s0 0xEF then Some (3%nat, 0x80%N, 0xBF%N)
  else if N.eqb s0 0xF0 then Some (4%nat, 0x90%N, 0xBF%N)
  else if N.leb s0 0xF3 then Some (4%nat, 0x80%N, 0xBF%N)
  else if N.eqb s0 0xF4 then Some (4%nat, 0x80%N, 0x8F%N)
  else None.

(** [s1 < lo || hi < s1]. *)
Definition outside (lo hi s1 : N) : bool := N.ltb s1 lo || N.ltb hi s1.

(** [utf8.DecodeRuneInString(s)]: the first rune of [s] and its width. *)
Definition DecodeRuneInString (s : string) : N * nat :=
  match s with
  | EmptyString => (RuneError, O)
  | String c0 s1 =>
      let b0 := byteOf c0 in
      if N.ltb b0 0x80 then (b0, 1%nat)
      else
        match firstByte b0 with
        | None => (RuneError, 1%nat)
        | Some (sz, lo, hi) =>
            if Nat.ltb (String.length s) sz then (RuneError, 1%nat)
            else
              match s1 with
              | EmptyString => (RuneError, 1%nat)
              | String c1 s2 =>
                  let b1 := byteOf c1 in
                  if outside lo hi b1 then (RuneError, 1%nat)
                  else if Nat.leb sz 2
                  then (N.lor (N.shiftl (N.land b0 0x1F) 6) (N.land b1 0x3F), 2%nat)
                  else
                    match s2 with
                    | EmptyString => (RuneError, 1%nat)
                    | String c2 s3 =>
                        let b2 := byteOf c2 in
                        if outside 0x80 0xBF b2 then (RuneError, 1%nat)
                        else if Nat.leb sz 3
                        then (N.lor (N.lor (N.shiftl (N.land b0 0x0F) 12)
                                           (N.shiftl (N.land b1 0x3F) 6))
                                    (N.land b2 0x3F), 3%nat)
                        else
                          match s3 with
                          | EmptyString => (RuneError, 1%nat)
                          | String c3 _ =>
                              let b3 := byteOf c3 in
                              if outside 0x80 0xBF b3 then (RuneError, 1%nat)
                              else (N.lor (N.lor (N.lor (N.shiftl (N.land b0 0x07) 18)
                                                        (N.shiftl (N.land b1 0x3F) 12))
                                                 (N.shiftl (N.land b2 0x3F) 6))
                                          (N.land b3 0x3F), 4%nat)
                          end
                    end
              end
        end
  end.

(** [utf8.RuneStart(b)]: [b] is no continuation byte. *)
Definition RuneStart (c : ascii) : bool :=
  negb (N.eqb (N.land (byteOf c) 0xC0) 0x80).

(** The loop of [DecodeLastRuneInString] that walks back to the start of
    a sequence: [for start--; start >= lim; start--], left at the first
    [RuneStart]. [lim] is at most [utf8.UTFMax] bytes back, so the loop
    has ended after [steps = 4] turns. *)
Fixpoint backToRuneStart (s : string) (lim : Z) (steps : nat) (start : Z) : Z :=
  match steps with
  | O => start
  | S steps' =>
      if Z.ltb start lim then start
      else
        match String.get (Z.to_nat start) s with
        | Some c => if RuneStart c then start else backToRuneStart s lim steps' (start - 1)
        | None => start
        end
  end.

(** [utf8.DecodeLastRuneInString(s)]: the last rune of [s] and its
    width. *)
Definition DecodeLastRuneInString (s : string) : N * nat :=
  let end_ := Z.of_nat (String.length s) in
  match String.get (Z.to_nat (end_ - 1)) s with
  | None => (RuneError, O)
  | Some c =>
      if negb (notASCII c) then (byteOf c, 1%nat)
      else
        let lim := Z.max (end_ - 4) 0 in
        let start := backToRuneStart s lim 4 (end_ - 2) in
        let start := Z.max start 0 in
        let '(r, size) := DecodeRuneInString (sliceFrom (Z.to_nat start) s) in
        if negb (Z.eqb (start + Z.of_nat size) end_) then (RuneError, 1%nat)
        else (r, size)
  end.

(** [unicode.IsSpace(r)]: the Latin-1 cases, and beyond them the table
    [White_Space]. *)
Definition IsSpace (r : N) : bool :=
  if N.leb r 0xFF
  then (N.leb 0x09 r && N.leb r 0x0D) || N.eqb r 0x20 || N.eqb r 0x85 || N.eqb r 0xA0
  else N.eqb r 0x1680 || (N.leb 0x2000 r && N.leb r 0x200A)
       || N.eqb r 0x2028 || N.eqb r 0x2029 || N.eqb r 0x202F || N.eqb r 0x205F
       || N.eqb r 0x3000.

(** [strings.TrimLeftFunc(s, f)]: the runes of [s] from the first that
    does not satisfy [f]. [skip] counts the bytes of the current rune that
    are still to be passed over. *)
Fixpoint trimLeftRunes (f : N -> bool) (skip : nat) (s : string) : string :=
  match s with
  | EmptyString => EmptyString
  | String _ s' =>
      match skip with
      | S k => trimLeftRunes f k s'
      | O =>
          let '(r, size) := DecodeRuneInString s in
          if f r then trimLeftRunes f (size - 1) s' else s
      end
  end.

Definition TrimLeftFunc (s : string) (f : N -> bool) : string := trimLeftRunes f O s.

(** [lastIndexFunc(s, f, false)], from index [i] down: where the last rune
    that does not satisfy [f] starts; [None] stands for [-1]. *)
Fixpoint lastIndexFrom (f : N -> bool) (s : string) (i skip : nat) : option nat :=
  match i with
  | O => None
  | S i' =>
      match skip with
      | S k => lastIndexFrom f s i' k
      | O =>
          let '(r, size) := DecodeLastRuneInString (sliceTo i s) in
          if f r then lastIndexFrom f s i' (size - 1) else Some (i - size)%nat
      end
  end.

(** [strings.TrimRightFunc(s, f)]. *)
Definition TrimRightFunc (s : string) (f : N -> bool) : string :=
  match lastIndexFrom f s (String.length s) O with
  | Some i =>
      match String.get i s with
      | Some c =>
          if notASCII c
          then sliceTo (i + (DecodeRuneInString (sliceFrom i s)).2) s
          else sliceTo (i + 1) s
      | None => sliceTo (i + 1) s
      end
  | None => EmptyString
  end.

(** [strings.TrimFunc(s, f)]. *)
Definition TrimFunc (s : string) (f : N -> bool) : string :=
  TrimRightFunc (TrimLeftFunc s f) f.

(** The second loop of [TrimSpace], over [t = s[start:]]: back from
    [stop] to the last byte that is no ASCII white space. *)
Fixpoint trimSpaceRight (t : string) (stop : nat) : string :=
  match stop with
  | O => EmptyString
  | S stop' =>
      match String.get stop' t with
      | Some c =>
          if notASCII c then TrimRightFunc (sliceTo stop t) IsSpace
          else if asciiSpace c then trimSpaceRight t stop'
          else sliceTo stop t
      | None => sliceTo stop t
      end
  end.

(** [strings.TrimSpace(s)]. *)
Fixpoint TrimSpace (s : string) : string :=
  match s with
  | EmptyString => EmptyString
  | String c s' =>
      if notASCII c then TrimFunc s IsSpace
      else if asciiSpace c then TrimSpace s'
      else trimSpaceRight s (String.length s)
  end.

(** [strings.Trim(s, cutset)]. *)
Definition Trim (s cutset : string) : string :=
  let cut c := Contains cutset (String c EmptyString) in
  trimRightFunc cut (trimLeftFunc cut s).

(** [%d] of a non-negative integer. *)
Definition itoa (n : nat) : string :=
  NilEmpty.string_of_uint (Nat.to_uint n).

End GoStrings.

Import GoStrings.

(** ** cmd/pull.go: parseImageRef *)

(** The result is [(name, tag, registry)], as in the source. *)
Definition parseImageRef (imageRef : string) : string * string * string :=
  let '(registry, imageRef) :=
    match Index imageRef "/" with
    | Some idx =>
        let potentialRegistry := sliceTo idx imageRef in
        if Contains potentialRegistry "." || Contains potentialRegistry ":"
        then (potentialRegistry, sliceFrom (idx + 1) imageRef)
        else ("docker.io", imageRef)
    | None => ("docker.io", imageRef)
    end in
  let '(name, tag) :=
    match Index imageRef ":" with
    | Some idx => (sliceTo idx imageRef, sliceFrom (idx + 1) imageRef)
    | None => (imageRef, "latest")
    end in
  let name :=
    if String.eqb registry "docker.io" && negb (Contains name "/")
    then "library/" ++ name
    else name in
  (name, tag, registry).

(** ** Results and errors

    A Go [error] is modelled by its message: [fmt.Errorf("ctx: %w", err)]
    is the concatenation of the context and the wrapped message. *)

Inductive result (A : Type) : Type :=
| Ok (a : A)
| Err (msg : string).
Arguments Ok {A} a.
Arguments Err {A} msg.

Definition wrapErr {A} (ctx : string) (r : result A) : result A :=
  match r with
  | Ok a => Ok a
  | Err e => Err (ctx ++ e)
  end.

(** ** pkg/storage: the directory layout *)

Module Storage.

(** A cleaned absolute path, one element per component. *)
Abbreviation Path := (list string).

Inductive Node : Type :=
| Dir
| File (data : string).

(** The file system: which paths exist, and what they hold. *)
Abbreviation FS := (gmap (list string) Node).

(** The path as the program holds it, and as [os.PathError] prints it. *)
Definition pathText (p : Path) : string :=
  match p with
  | [] => "/"
  | _ => String.concat "" (map (fun comp => "/" ++ comp) p)
  end.

(** One step of [path.Clean] on a rooted path. *)
Definition cleanStep (acc : Path) (comp : string) : Path :=
  if String.eqb comp "" || String.eqb comp "." then acc
  else if String.eqb comp ".." then removelast acc
  else (acc ++ [comp])%list.

(** [filepath.Join(dir, elem)] for an already clean, rooted [dir]. *)
Definition Join (dir : Path) (elem : string) : Path :=
  fold_left cleanStep (Split elem "/") dir.

(** [os.Stat(p)] succeeds. *)
Definition Stat (fs : FS) (p : Path) : bool :=
  match fs !! p with
  | Some _ => true
  | None => false
  end.

(** [os.RemoveAll(p)]: [p] and everything below it. The in-memory file
    system has no permissions or device faults, so the call succeeds. *)
Definition RemoveAll (fs : FS) (p : Path) : result FS :=
  Ok (filter (fun kv => ~ p `prefix_of` kv.1) fs).

(** [os.MkdirAll(p)]: every prefix of [p] becomes a directory; a prefix
    that is a regular file is an error. *)
Fixpoint mkdirFrom (fs : FS) (base : Path) (rest : list string) : result FS :=
  match fs !! base with
  | Some (File _) => Err "mkdir: not a directory"
  | _ =>
      let fs' := <[base := Dir]> fs in
      match rest with
      | [] => Ok fs'
      | comp :: rest' => mkdirFrom fs' (base ++ [comp])%list rest'
      end
  end.

Definition MkdirAll (fs : FS) (p : Path) : result FS := mkdirFrom fs [] p.

(** [os.WriteFile(p, data)]: the parent must be a directory and [p] itself
    must not be one; an existing file is truncated and rewritten. *)
Definition WriteFile (fs : FS) (p : Path) (data : string) : result FS :=
  match fs !! removelast p with
  | Some Dir =>
      match fs !! p with
      | Some Dir => Err "open: is a directory"
      | _ => Ok (<[p := File data]> fs)
      end
  | _ => Err "open: no such file or directory"
  end.

(** [os.ReadFile(p)]. *)
Definition ReadFile (fs : FS) (p : Path) : result string :=
  match fs !! p with
  | Some (File data) => Ok data
  | Some Dir => Err "read: is a directory"
  | None => Err "open: no such file or directory"
  end.

Record Layout : Type := { rootDir : Path }.

Definition GetImageDir (l : Layout) (imageName : string) : Path :=
  let safeName := ReplaceAll imageName ":" "_COLON_" in
  let safeName := ReplaceAll safeName "/" "_SLASH_" in
  Join (Join (rootDir l) "images") safeName.

Definition GetManifestPath (l : Layout) (imageName : string) : Path :=
  Join (GetImageDir l imageName) "manifest.json".

Definition GetConfigPath (l : Layout) (imageName : string) : Path :=
  Join (GetImageDir l imageName) "config.json".

Definition GetLayersDir (l : Layout) (imageName : string) : Path :=
  Join (GetImageDir l imageName) "layers".

Definition GetLayerPath (l : Layout) (imageName digest : string) : Path :=
  let safeDigest := ReplaceAll digest ":" "_" in
  Join (GetLayersDir l imageName) (safeDigest ++ ".tar.gz").

Definition CreateImageDir (l : Layout) (imageName : string) (fs : FS) : result FS :=
  let layersDir := GetLayersDir l imageName in
  wrapErr "failed to create image directory: " (MkdirAll fs layersDir).

Definition decodeOldEncoding (dirName : string) : string :=
  match LastIndex dirName "_" with
  | None => dirName
  | Some lastUnderscore =>
      let beforeTag := ReplaceAll (sliceTo lastUnderscore dirName) "_" "/" in
      let tag := sliceFrom (lastUnderscore + 1) dirName in
      beforeTag ++ ":" ++ tag
  end.

(** The body of the loop of [ListImages]: one directory name decoded. *)
Definition decodeDirName (dirName : string) : string :=
  if Contains dirName "_SLASH_" || Contains dirName "_COLON_"
  then
    let imageName := ReplaceAll dirName "_SLASH_" "/" in
    ReplaceAll imageName "_COLON_" ":"
  else decodeOldEncoding dirName.

(** [ListImages] over the entries [os.ReadDir] returned for the images
    directory, each with its name and whether it is a directory. *)
Definition ListImages (entries : list (string * bool)) : list string :=
  map (fun entry => decodeDirName entry.1) (filter (fun entry => entry.2 = true) entries).

Definition encodeOldEncoding (imageName : string) : string :=
  let safeName := ReplaceAll imageName ":" "_" in
  ReplaceAll safeName "/" "_".

(** [findImageDir]; [None] stands for the empty string of the source. *)
Definition findImageDir (l : Layout) (fs : FS) (imageName : string) : option Path :=
  let imagesDir := Join (rootDir l) "images" in
  let newDirName := ReplaceAll imageName ":" "_COLON_" in
  let newDirName := ReplaceAll newDirName "/" "_SLASH_" in
  let newPath := Join imagesDir newDirName in
  if Stat fs newPath then Some newPath
  else
    let oldDirName := encodeOldEncoding imageName in
    let oldPath := Join imagesDir oldDirName in
    if Stat fs oldPath then Some oldPath else None.

Definition ImageExists (l : Layout) (fs : FS) (imageName : string) : bool :=
  match findImageDir l fs imageName with
  | Some _ => true
  | None => false
  end.

(** [RemoveImage] returns the error, if any, and the file system it
    leaves behind. *)
Definition RemoveImage (l : Layout) (fs : FS) (imageName : string) : option string * FS :=
  match findImageDir l fs imageName with
  | None => (Some "image not found", fs)
  | Some imageDir =>
      match RemoveAll fs imageDir with
      | Err e => (Some ("failed to remove image directory: " ++ e), fs)
      | Ok fs' => (None, fs')
      end
  end.

(** *** store.go *)

Definition SaveManifestRaw (l : Layout) (imageName : string) (data : string) (fs : FS) : result FS :=
  match CreateImageDir l imageName fs with
  | Err e => Err e
  | Ok fs1 =>
      let manifestPath := GetManifestPath l imageName in
      wrapErr "failed to write manifest: " (WriteFile fs1 manifestPath data)
  end.

Definition LoadManifestRaw (l : Layout) (imageName : string) (fs : FS) : result string :=
  let manifestPath := GetManifestPath l imageName in
  wrapErr "failed to read manifest: " (ReadFile fs manifestPath).

End Storage.

(** ** pkg/registry: data *)

(** [net/http] headers, keyed by their canonical names. *)
Abbreviation Header := (gmap string string).

(** [h.Get(key)]: the empty string when the header is absent. *)
Definition Get (h : Header) (key : string) : string := default "" (h !! key).

Record Request : Type := {
  Method : string;
  URL : string;
  ReqHeader : Header;
  ReqBody : string
}.

(** [Body] is what [io.ReadAll(resp.Body)] returns: the transport hands
    over whole bodies, so reading one does not fail. *)
Record Response : Type := {
  StatusCode : nat;
  RespHeader : Header;
  Body : string
}.

Definition StatusOK : nat := 200.
Definition StatusCreated : nat := 201.
Definition StatusAccepted : nat := 202.
Definition StatusUnauthorized : nat := 401.
Definition StatusNotFound : nat := 404.

Module TokenResponse.
Record t : Type := {
  Token : string;
  AccessToken : string;
  ExpiresIn : Z;
  IssuedAt : string
}.
End TokenResponse.

Module AuthConfig.
Record t : Type := {
  Username : string;
  Password : string;
  Token : string
}.
End AuthConfig.

Module Platform.
Record t : Type := {
  Architecture : string;
  OS : string;
  Variant : string
}.
End Platform.

Module ManifestEntry.
Record t : Type := {
  MediaType : string;
  Digest : string;
  Platform : Platform.t
}.
End ManifestEntry.

Module Layer.
Record t : Type := {
  MediaType : string;
  Size : Z;
  Digest : string
}.
End Layer.

Module Manifest.
Record t : Type := {
  SchemaVersion : Z;
  MediaType : string;
  Config : Layer.t;
  Layers : list Layer.t;
  Manifests : list ManifestEntry.t
}.
End Manifest.

(** ** What the client calls into

    The HTTP transport and the library functions whose results depend on
    data formats (URLs, JSON, base64) are taken as an interface. [World]
    is the state of everything behind the transport (registry, token
    service); [httpDo] is [http.Client.Do]. *)

Class Env : Type := {
  World : Type;
  httpDo : Request -> World -> result Response * World;
  (** [http.Client.Do] for a request whose body is an open directory, which
      cannot be read. *)
  httpDoUnreadable : Request -> World -> result Response * World;
  (** [http.NewRequest(method, url, _)] rejects the pair with this error. *)
  newRequestErr : string -> string -> option string;
  (** [url.Parse(realm)], [Query().Set(k, v)] for each pair, [Encode()]
      and [String()]. *)
  urlSetQuery : string -> list (string * string) -> result string;
  (** For a URL that [http.NewRequest] has parsed: its [RawQuery], and
      its [String()] once [RawQuery] is set to the given text. *)
  urlRawQuery : string -> string;
  urlWithRawQuery : string -> string -> string;
  (** [FileInfo.Size()] of the directory at a path, which depends on the
      system. *)
  dirSize : list string -> nat;
  (** [base64.StdEncoding.EncodeToString]. *)
  base64 : string -> string;
  (** [json.Decode] into a [TokenResponse], a [Manifest], and the
      anonymous index struct of [pullCmd]. *)
  decodeTokenResponse : string -> result TokenResponse.t;
  decodeManifest : string -> result Manifest.t;
  decodeIndex : string -> result (list ManifestEntry.t)
}.

(** Who handed a request to the transport: the registry client itself
    ([c.httpClient.Do]) or its auth handler ([a.client.Do]). *)
Inductive Issuer : Type := ByClient | ByAuth.

Section Client.
Context `{Env}.

(** The mutable state of one client: its [AuthConfig] (shared with the
    auth handler by pointer), the world behind the transport, and a
    record of the requests sent so far, oldest first. *)
Record State : Type := {
  auth : AuthConfig.t;
  world : World;
  sent : list (Issuer * Request)
}.

(** Computations that read and update the client state and may fail. *)
Definition M (A : Type) : Type := State -> result A * State.

#[export] Instance M_ret : MRet M := fun A a st => (Ok a, st).

#[export] Instance M_bind : MBind M := fun A B f m st =>
  match m st with
  | (Ok a, st') => f a st'
  | (Err e, st') => (Err e, st')
  end.

Definition fail {A} (msg : string) : M A := fun st => (Err msg, st).

Definition lift {A} (r : result A) : M A := fun st => (r, st).

(** [if err != nil { return fmt.Errorf(ctx + "%w", err) }]. *)
Definition wrap {A} (ctx : string) (m : M A) : M A := fun st =>
  let '(r, st') := m st in (wrapErr ctx r, st').

Definition getAuth : M AuthConfig.t := fun st => (Ok (auth st), st).

Definition setToken (token : string) : M unit := fun st =>
  (Ok tt,
   {| auth := {| AuthConfig.Username := AuthConfig.Username (auth st);
                 AuthConfig.Password := AuthConfig.Password (auth st);
                 AuthConfig.Token := token |};
      world := world st;
      sent := sent st |}).

(** [client.Do(req)]. *)
Definition Do (who : Issuer) (req : Request) : M Response := fun st =>
  let '(r, w) := httpDo req (world st) in
  (r, {| auth := auth st; world := w; sent := (sent st ++ [(who, req)])%list |}).

(** The transport for a request whose body is the open file [file]: a
    directory opens like a file, but reading it fails. *)
Definition httpDoFile (file : Storage.Node) (req : Request) (w : World)
  : result Response * World :=
  match file with
  | Storage.File _ => httpDo req w
  | Storage.Dir => httpDoUnreadable req w
  end.

(** [client.Do(req)] with the open file [file] as the body of [req]. *)
Definition DoFile (who : Issuer) (file : Storage.Node) (req : Request) : M Response :=
  fun st =>
    let '(r, w) := httpDoFile file req (world st) in
    (r, {| auth := auth st; world := w; sent := (sent st ++ [(who, req)])%list |}).

(** [http.NewRequest]. *)
Definition NewRequest (method url body : string) : result Request :=
  match newRequestErr method url with
  | Some e => Err e
  | None => Ok {| Method := method; URL := url; ReqHeader := ∅; ReqBody := body |}
  end.

Definition setHeader (k v : string) (req : Request) : Request :=
  {| Method := Method req; URL := URL req;
     ReqHeader := <[k := v]> (ReqHeader req); ReqBody := ReqBody req |}.

(** [for k, v := range headers { req.Header.Set(k, v) }]. *)
Definition setHeaders (headers : Header) (req : Request) : Request :=
  {| Method := Method req; URL := URL req;
     ReqHeader := headers ∪ ReqHeader req; ReqBody := ReqBody req |}.

(** *** auth.go *)

Definition basicAuth (username password : string) : string :=
  base64 (username ++ ":" ++ password).

Definition nonEmpty (s : string) : bool := negb (String.eqb s "").

Definition AddAuth (a : AuthConfig.t) (req : Request) : Request :=
  if nonEmpty (AuthConfig.Token a)
  then setHeader "Authorization" ("Bearer " ++ AuthConfig.Token a) req
  else if nonEmpty (AuthConfig.Username a) && nonEmpty (AuthConfig.Password a)
  then setHeader "Authorization"
         ("Basic " ++ basicAuth (AuthConfig.Username a) (AuthConfig.Password a)) req
  else req.

(** The double quote character, the cutset of the [strings.Trim] of
    [parseAuthHeader]. *)
Definition dquote : string := String (ascii_of_nat 34) EmptyString.

Definition parseAuthHeader (header : string) : gmap string string :=
  let header := TrimPrefix header "Bearer " in
  let parts := Split header "," in
  fold_left
    (fun params part =>
       let part := TrimSpace part in
       if String.eqb part "" then params
       else match SplitN part "=" 2 with
            | [k; v] => <[TrimSpace k := Trim v dquote]> params
            | _ => params
            end)
    parts (∅ : gmap string string).

Definition buildTokenURL (realm service scope : string) : result string :=
  urlSetQuery realm
    ((if nonEmpty service then [("service", service)] else []) ++
     (if nonEmpty scope then [("scope", scope)] else []))%list.

Definition fetchToken (realm service scope : string) : M string :=
  tokenURL ← lift (buildTokenURL realm service scope);
  tokenReq ← lift (wrapErr "failed to create token request: " (NewRequest "GET" tokenURL ""));
  a ← getAuth;
  let tokenReq :=
    if nonEmpty (AuthConfig.Username a) && nonEmpty (AuthConfig.Password a)
    then setHeader "Authorization"
           ("Basic " ++ basicAuth (AuthConfig.Username a) (AuthConfig.Password a)) tokenReq
    else tokenReq in
  resp ← wrap "token request failed: " (Do ByAuth tokenReq);
  if negb (Nat.eqb (StatusCode resp) StatusOK)
  then fail ("token request failed with status: " ++ itoa (StatusCode resp))
  else
    tokenResp ← lift (wrapErr "failed to decode token response: " (decodeTokenResponse (Body resp)));
    if nonEmpty (TokenResponse.Token tokenResp) then mret (TokenResponse.Token tokenResp)
    else if nonEmpty (TokenResponse.AccessToken tokenResp)
    then mret (TokenResponse.AccessToken tokenResp)
    else fail "no token in response".

Definition handleBearerAuth (req : Request) (authHeader : string) : M unit :=
  let params := parseAuthHeader authHeader in
  match params !! "realm" with
  | None => fail "no realm found in Www-Authenticate header"
  | Some realm =>
      let service := default "" (params !! "service") in
      let scope := default "" (params !! "scope") in
      token ← wrap "failed to fetch token: " (fetchToken realm service scope);
      setToken token
  end.

Definition HandleAuthChallenge (req : Request) (resp : Response) : M unit :=
  let authHeader := Get (RespHeader resp) "Www-Authenticate" in
  if String.eqb authHeader "" then fail "no Www-Authenticate header found"
  else if HasPrefix authHeader "Bearer" then handleBearerAuth req authHeader
  else if HasPrefix authHeader "Basic" then mret tt
  else fail ("unsupported authentication method: " ++ authHeader).

(** *** client.go *)

Record Client : Type := { baseURL : string }.

(** Building the request of [doRequest]: custom headers, then auth, then
    the API version header. *)
Definition prepare (a : AuthConfig.t) (headers : Header) (req : Request) : Request :=
  setHeader "Docker-Distribution-API-Version" "registry/2.0"
    (AddAuth a (setHeaders headers req)).

Definition doRequest (c : Client) (method path : string) (headers : Header) : M Response :=
  let fullURL := baseURL c ++ "/v2" ++ path in
  req ← lift (wrapErr "failed to create request: " (NewRequest method fullURL ""));
  a ← getAuth;
  let req := prepare a headers req in
  resp ← wrap "request failed: " (Do ByClient req);
  if Nat.eqb (StatusCode resp) StatusUnauthorized
  then
    _ ← wrap "authentication failed: " (HandleAuthChallenge req resp);
    req ← lift (wrapErr "failed to create retry request: " (NewRequest method fullURL ""));
    a ← getAuth;
    let req := prepare a headers req in
    wrap "retry request failed: " (Do ByClient req)
  else mret resp.

(** *** manifest.go *)

Definition manifestListV2 : string := "application/vnd.docker.distribution.manifest.list.v2+json".
Definition ociImageIndex : string := "application/vnd.oci.image.index.v1+json".
Definition ociImageManifest : string := "application/vnd.oci.image.manifest.v1+json".

Definition acceptManifests : Header :=
  {[ "Accept" :=
       "application/vnd.docker.distribution.manifest.v2+json,application/vnd.docker.distribution.manifest.list.v2+json" ]}.

(** The test of the two platform loops (in [GetManifest] and [pullCmd]). *)
Definition isAmd64Linux (m : ManifestEntry.t) : bool :=
  String.eqb (Platform.Architecture (ManifestEntry.Platform m)) "amd64"
  && String.eqb (Platform.OS (ManifestEntry.Platform m)) "linux".

Definition isManifestList (manifest : Manifest.t) (contentType : string) : bool :=
  String.eqb (Manifest.MediaType manifest) manifestListV2
  || String.eqb contentType manifestListV2
  || String.eqb (Manifest.MediaType manifest) ociImageIndex
  || String.eqb contentType ociImageIndex.

(** [GetManifest] calls itself on the digest a manifest list points to,
    and nothing bounds how often a registry answers with another list.
    [fuel] bounds the number of requests; [None] says that the call has
    not returned within that bound. *)
Fixpoint GetManifest (fuel : nat) (c : Client) (name reference : string) (st : State)
  : option (result Manifest.t * State) :=
  match fuel with
  | O => None
  | S fuel' =>
      let path := "/" ++ name ++ "/manifests/" ++ reference in
      match doRequest c "GET" path acceptManifests st with
      | (Err e, st1) => Some (Err ("failed to get manifest: " ++ e), st1)
      | (Ok resp, st1) =>
          if negb (Nat.eqb (StatusCode resp) StatusOK)
          then Some (Err ("unexpected status code " ++ itoa (StatusCode resp) ++ ": " ++ Body resp), st1)
          else
            let contentType := Get (RespHeader resp) "Content-Type" in
            match decodeManifest (Body resp) with
            | Err e => Some (Err ("failed to decode manifest: " ++ e), st1)
            | Ok manifest =>
                if isManifestList manifest contentType
                then
                  match List.find isAmd64Linux (Manifest.Manifests manifest) with
                  | Some m => GetManifest fuel' c name (ManifestEntry.Digest m) st1
                  | None => Some (Err "no amd64 manifest found in manifest list", st1)
                  end
                else Some (Ok manifest, st1)
            end
      end
  end.


(** *** blob.go *)

Definition StartBlobUpload (c : Client) (name : string) : M string :=
  let path := "/" ++ name ++ "/blobs/uploads/" in
  resp ← wrap "failed to start upload: " (doRequest c "POST" path ∅);
  if negb (Nat.eqb (StatusCode resp) StatusAccepted)
  then fail ("unexpected status code " ++ itoa (StatusCode resp))
  else
    let uploadURL := Get (RespHeader resp) "Location" in
    if String.eqb uploadURL "" then fail "no upload URL in response"
    else if negb (HasPrefix uploadURL "http://") && negb (HasPrefix uploadURL "https://")
    then mret (baseURL c ++ "/v2" ++ uploadURL)
    else mret uploadURL.

(** The URL after the digest has been added to [req.URL.RawQuery]. *)
Definition withDigest (uploadURL digest : string) : string :=
  let rawQuery := urlRawQuery uploadURL in
  urlWithRawQuery uploadURL
    (if nonEmpty rawQuery
     then rawQuery ++ "&digest=" ++ digest
     else "digest=" ++ digest).

(** The bytes an open file yields when it is read. *)
Definition fileBytes (file : Storage.Node) : string :=
  match file with
  | Storage.File data => data
  | Storage.Dir => ""
  end.

(** [reader] is the file [UploadBlob] has opened. *)
Definition UploadBlobMonolithic (c : Client) (uploadURL : string) (reader : Storage.Node)
    (size : nat) (digest : string) : M unit :=
  req ← lift (wrapErr "failed to create request: "
                (NewRequest "PUT" uploadURL (fileBytes reader)));
  let req := setHeader "Content-Type" "application/octet-stream" req in
  let req := setHeader "Content-Length" (itoa size) req in
  let req :=
    {| Method := Method req; URL := withDigest uploadURL digest;
       ReqHeader := ReqHeader req; ReqBody := ReqBody req |} in
  a ← getAuth;
  let req := setHeader "Docker-Distribution-API-Version" "registry/2.0" (AddAuth a req) in
  resp ← wrap "request failed: " (DoFile ByClient reader req);
  if negb (Nat.eqb (StatusCode resp) StatusCreated)
  then fail ("unexpected status code " ++ itoa (StatusCode resp) ++ ": " ++ Body resp)
  else mret tt.

(** Some directory on the way to [p] is a regular file. *)
Definition belowFile (fs : Storage.FS) (p : Storage.Path) : bool :=
  existsb (fun n => match fs !! take n p with
                    | Some (Storage.File _) => true
                    | _ => false
                    end)
    (seq 0 (List.length p)).

(** [os.Open(srcPath)]: any entry opens, a directory too. *)
Definition openFile (fs : Storage.FS) (srcPath : Storage.Path) : result Storage.Node :=
  if belowFile fs srcPath
  then Err ("open " ++ Storage.pathText srcPath ++ ": not a directory")
  else
    match fs !! srcPath with
    | Some file => Ok file
    | None => Err ("open " ++ Storage.pathText srcPath ++ ": no such file or directory")
    end.

(** [file.Stat()] and [fileInfo.Size()]; the open file can be asked. *)
Definition fileSize (srcPath : Storage.Path) (file : Storage.Node) : nat :=
  match file with
  | Storage.File data => String.length data
  | Storage.Dir => dirSize srcPath
  end.

Definition UploadBlob (c : Client) (fs : Storage.FS) (name digest : string)
    (srcPath : Storage.Path) : M unit :=
  file ← lift (wrapErr "failed to open file: " (openFile fs srcPath));
  let size := fileSize srcPath file in
  uploadURL ← wrap "failed to start upload: " (StartBlobUpload c name);
  wrap "failed to upload blob: " (UploadBlobMonolithic c uploadURL file size digest).

End Client.

(** ** cmd: the commands

    A command either runs on or prints an error and calls [os.Exit(1)];
    indexing a string out of range panics. *)

Inductive Outcome (A : Type) : Type :=
| Finished (a : A)
| Exited (printed : string)
| Panicked.
Arguments Finished {A} a.
Arguments Exited {A} printed.
Arguments Panicked {A}.

Section Commands.
Context `{Env}.

(** *** pull.go: fetching and storing the raw manifest (the end of [pullCmd]) *)




(** *** push.go: uploading the config and layer blobs *)

(** The test both upload sites apply to [err.Error()]. *)
Definition blobExistsError (e : string) : bool :=
  Contains e "BLOB_UPLOAD_INVALID" || Contains e "already exists" || Contains e "exist blob".

Fixpoint pushCmd_layers (c : Client) (l : Storage.Layout) (fs : Storage.FS)
    (imageRef name : string) (layers : list Layer.t) (st : State) : Outcome unit * State :=
  match layers with
  | [] => (Finished tt, st)
  | layer :: rest =>
      let layerPath := Storage.GetLayerPath l imageRef (Layer.Digest layer) in
      (* layer.Digest[:12] in the progress line *)
      if Nat.ltb (String.length (Layer.Digest layer)) 12 then (Panicked, st)
      else
        match UploadBlob c fs name (Layer.Digest layer) layerPath st with
        | (Ok _, st1) => pushCmd_layers c l fs imageRef name rest st1
        | (Err e, st1) =>
            if blobExistsError e
            then pushCmd_layers c l fs imageRef name rest st1
            else (Exited ("Error: Failed to upload layer: " ++ e), st1)
        end
  end.

Definition pushCmd_blobs (c : Client) (l : Storage.Layout) (fs : Storage.FS)
    (imageRef name : string) (manifest : Manifest.t) (st : State) : Outcome unit * State :=
  let configPath := Storage.GetConfigPath l imageRef in
  match UploadBlob c fs name (Layer.Digest (Manifest.Config manifest)) configPath st with
  | (Ok _, st1) => pushCmd_layers c l fs imageRef name (Manifest.Layers manifest) st1
  | (Err e, st1) =>
      if blobExistsError e
      then pushCmd_layers c l fs imageRef name (Manifest.Layers manifest) st1
      else (Exited ("Error: Failed to upload config: " ++ e), st1)
  end.

End Commands.

(** ** Notions used in the statements *)

Import Storage.

(** [expand f s]: every byte [c] of [s] replaced by [f c]. Replacing a
    one-byte pattern is such a substitution ([ReplaceAll_char]). *)
Fixpoint expand (f : ascii -> string) (s : string) : string :=
  match s with
  | EmptyString => EmptyString
  | String c s' => f c ++ expand f s'
  end.

(** The directory name [GetImageDir] and [findImageDir] derive from an
    image name (their [safeName] and [newDirName]). *)
Definition safeName (imageName : string) : string :=
  ReplaceAll (ReplaceAll imageName ":" "_COLON_") "/" "_SLASH_".

(** What the current encoding does to one byte, with and without the
    slash. *)
Definition encByte (c : ascii) : string :=
  if Ascii.eqb ":" c then "_COLON_"
  else if Ascii.eqb "/" c then "_SLASH_" else String c "".

Definition colonByte (c : ascii) : string :=
  if Ascii.eqb ":" c then "_COLON_" else String c "".

(** What the legacy encoding does to one byte. *)
Definition oldByte (c : ascii) : string :=
  if Ascii.eqb ":" c then "_" else if Ascii.eqb "/" c then "_" else String c "".

(** A byte either stays or opens a token with an underscore. *)
Definition tokenising (f : ascii -> string) : Prop :=
  forall c, f c = String c "" \/ exists t, f c = String "_" t.

(** The tag as the specification words it: what follows the last colon
    of the name that remains once the registry is removed. *)
Definition tagAfterLastColon (rest : string) : string :=
  match LastIndex rest ":" with
  | Some i => sliceFrom (i + 1) rest
  | None => "latest"
  end.

Definition currentPath (l : Layout) (imageName : string) : Path :=
  Join (Join (rootDir l) "images") (safeName imageName).

Definition legacyPath (l : Layout) (imageName : string) : Path :=
  Join (Join (rootDir l) "images") (encodeOldEncoding imageName).

Section StatementNotions.
Context `{Env}.

(** The requests the registry client itself handed to the transport. *)
Definition clientRequests (events : list (Issuer * Request)) : list Request :=
  omap (λ ev, match ev.1 with ByClient => Some ev.2 | ByAuth => None end) events.

(** The state after [Do who req] received [w] from the transport. *)
Definition afterDo (st : State) (who : Issuer) (req : Request) (w : World) : State :=
  {| auth := auth st; world := w; sent := (sent st ++ [(who, req)])%list |}.



(** The request [UploadBlobMonolithic] sends, built from the result of
    [http.NewRequest]. *)
Definition blobPut (a : AuthConfig.t) (uploadURL digest : string) (size : nat)
    (req : Request) : Request :=
  setHeader "Docker-Distribution-API-Version" "registry/2.0"
    (AddAuth a
       {| Method := Method req; URL := withDigest uploadURL digest;
          ReqHeader :=
            <["Content-Length" := itoa size]>
              (<["Content-Type" := "application/octet-stream"]> (ReqHeader req));
          ReqBody := ReqBody req |}).

End StatementNotions.

(** ** An example registry

    A small registry for the examples below. It answers by URL:
    - [.../manifests/latest]: a manifest list (body [LIST]);
    - [.../manifests/sha256:amd]: a Docker manifest (body [IMAGE]);
    - [.../manifests/oci]: an OCI manifest, [ociBody];
    - [.../blobs/uploads/]: an upload session at [/upload/1];
    - [.../upload/1...]: the blob is refused as already present;
    - [/private/...]: 401 with a Bearer challenge unless the request
      carries the token [t0k];
    - [/basic/...]: always 401 with a Basic challenge;
    - [/bare/...]: 401 without any header;
    - [https://auth.example/token...]: the token service. *)

Definition quoted (s : string) : string := dquote ++ s ++ dquote.

Definition ociBody : string :=
  "{" ++ quoted "schemaVersion" ++ ":2,"
      ++ quoted "mediaType" ++ ":" ++ quoted "application/vnd.oci.image.manifest.v1+json" ++ ","
      ++ quoted "config" ++ ":{"
      ++ quoted "mediaType" ++ ":" ++ quoted "application/vnd.oci.image.config.v1+json" ++ ","
      ++ quoted "digest" ++ ":" ++ quoted "sha256:c0ffee" ++ ","
      ++ quoted "size" ++ ":7}}".


Definition respond (status : nat) (headers : Header) (body : string) : result Response :=
  Ok {| StatusCode := status; RespHeader := headers; Body := body |}.

Definition demoDo (req : Request) (w : unit) : result Response * unit :=
  let url := URL req in
  (if Contains url "/manifests/latest"
   then respond 200 {[ "Content-Type" := manifestListV2 ]} "LIST"
   else if Contains url "/manifests/sha256:amd"
   then respond 200 {[ "Content-Type" := "application/vnd.docker.distribution.manifest.v2+json" ]} "IMAGE"
   else if Contains url "/manifests/oci"
   then respond 200 {[ "Content-Type" := ociImageManifest ]} ociBody
   else if Contains url "/blobs/uploads/"
   then respond 202 {[ "Location" := "/upload/1" ]} ""
   else if Contains url "/upload/1"
   then respond 400 ∅ "blob already exists"
   else if Contains url "/private/"
   then if String.eqb (Get (ReqHeader req) "Authorization") "Bearer t0k"
        then respond 200 ∅ "secret"
        else respond 401
               {[ "Www-Authenticate" :=
                    "Bearer realm=" ++ quoted "https://auth.example/token"
                    ++ ",service=" ++ quoted "registry.example" ]} ""
   else if Contains url "/basic/"
   then respond 401 {[ "Www-Authenticate" := "Basic realm=" ++ quoted "registry" ]} ""
   else if Contains url "/bare/"
   then respond 401 ∅ ""
   else if HasPrefix url "https://auth.example/token"
   then respond 200 ∅ "TOKEN"
   else respond 404 ∅ "", w).

Definition amd64Image : Manifest.t :=
  {| Manifest.SchemaVersion := 2;
     Manifest.MediaType := "application/vnd.docker.distribution.manifest.v2+json";
     Manifest.Config :=
       {| Layer.MediaType := "application/vnd.docker.container.image.v1+json";
          Layer.Size := 7; Layer.Digest := "sha256:c0ffee" |};
     Manifest.Layers :=
       [ {| Layer.MediaType := "application/vnd.docker.image.rootfs.diff.tar.gzip";
            Layer.Size := 9; Layer.Digest := "sha256:0123456789ab" |} ];
     Manifest.Manifests := [] |}.

Definition entryFor (arch digest : string) : ManifestEntry.t :=
  {| ManifestEntry.MediaType := "application/vnd.docker.distribution.manifest.v2+json";
     ManifestEntry.Digest := digest;
     ManifestEntry.Platform :=
       {| Platform.Architecture := arch; Platform.OS := "linux"; Platform.Variant := "" |} |}.

Definition twoPlatforms : Manifest.t :=
  {| Manifest.SchemaVersion := 2;
     Manifest.MediaType := manifestListV2;
     Manifest.Config := {| Layer.MediaType := ""; Layer.Size := 0; Layer.Digest := "" |};
     Manifest.Layers := [];
     Manifest.Manifests := [ entryFor "arm64" "sha256:arm"; entryFor "amd64" "sha256:amd" ] |}.

(** The URLs of the examples have a path, at most one [?] and at most one
    [#] behind it: the query is what stands between the two. *)
Definition demoFragment (u : string) : string :=
  match Index u "#" with
  | Some i => sliceFrom i u
  | None => ""
  end.

Definition demoBeforeFragment (u : string) : string :=
  match Index u "#" with
  | Some i => sliceTo i u
  | None => u
  end.

Definition demoRawQuery (u : string) : string :=
  match Index (demoBeforeFragment u) "?" with
  | Some i => sliceFrom (i + 1) (demoBeforeFragment u)
  | None => ""
  end.

Definition demoWithRawQuery (u rawQuery : string) : string :=
  (match Index (demoBeforeFragment u) "?" with
   | Some i => sliceTo i (demoBeforeFragment u)
   | None => demoBeforeFragment u
   end)
  ++ (if String.eqb rawQuery "" then "" else "?" ++ rawQuery)
  ++ demoFragment u.

Definition demoEnv : Env :=
  {| World := unit;
     httpDo := demoDo;
     httpDoUnreadable := fun _ w => (Err "read: is a directory", w);
     newRequestErr := fun _ _ => None;
     urlSetQuery := fun realm query =>
       Ok (realm ++ "?" ++ String.concat "&" (map (fun kv => kv.1 ++ "=" ++ kv.2) query));
     urlRawQuery := demoRawQuery;
     urlWithRawQuery := demoWithRawQuery;
     dirSize := fun _ => 4096%nat;
     base64 := fun s => "b64(" ++ s ++ ")";
     decodeTokenResponse := fun body =>
       if String.eqb body "TOKEN"
       then Ok {| TokenResponse.Token := ""; TokenResponse.AccessToken := "t0k";
                  TokenResponse.ExpiresIn := 300; TokenResponse.IssuedAt := "" |}
       else Err "invalid character";
     decodeManifest := fun body =>
       if String.eqb body "LIST" then Ok twoPlatforms
       else if String.eqb body "IMAGE" then Ok amd64Image
       else Err "invalid character";
     decodeIndex := fun body =>
       if String.eqb body "LIST" then Ok (Manifest.Manifests twoPlatforms)
       else Err "invalid character" |}.

Definition demoClient : Client := {| baseURL := "https://registry.example" |}.

Definition anonymous : @State demoEnv :=
  @Build_State demoEnv
    {| AuthConfig.Username := ""; AuthConfig.Password := ""; AuthConfig.Token := "" |}
    tt [].

Definition demoLayout : Layout := {| rootDir := ["store"] |}.

Definition getRequest (url : string) : Request :=
  {| Method := "GET"; URL := url; ReqHeader := ∅; ReqBody := "" |}.

Definition basicChallenge : Response :=
  {| StatusCode := 401;
     RespHeader := {[ "Www-Authenticate" := "Basic realm=" ++ quoted "registry" ]};
     Body := "" |}.

Definition bareUnauthorized : Response :=
  {| StatusCode := 401; RespHeader := ∅; Body := "" |}.

Definition bearerChallenge : string :=
  "Bearer realm=" ++ quoted "https://auth.example/token"
  ++ ",service=" ++ quoted "registry.example".

(** A store holding the config and the layer of [amd64Image] under the
    reference [nginx:latest]. *)
Definition pushStore : FS :=
  {[ ["store"; "images"; "nginx_COLON_latest"; "config.json"] := File "config";
     ["store"; "images"; "nginx_COLON_latest"; "layers"; "sha256_0123456789ab.tar.gz"]
       := File "layer" ]}.

(** A store written by the earlier generation only. *)
Definition legacyOnly : FS :=
  {[ ["store"; "images"; "nginx_latest"] := Dir;
     ["store"; "images"; "nginx_latest"; "manifest.json"] := File "{}" ]}.

(** A store written by both generations: the same reference once under
    each encoding. *)
Definition twoGenerations : FS :=
  {[ ["store"; "images"; "nginx_COLON_latest"] := Dir;
     ["store"; "images"; "nginx_COLON_latest"; "manifest.json"] := File "{}";
     ["store"; "images"; "nginx_latest"] := Dir;
     ["store"; "images"; "nginx_latest"; "manifest.json"] := File "{}" ]}.

(** ** pkg/storage, continued: the rest of layout.go and store.go *)

(** [NewLayout(rootDir)], which [NewStore] calls: the root directory is
    created on the way. *)
Definition NewLayout (rootDir : Path) (fs : FS) : result (Layout * FS) :=
  match wrapErr "failed to create root directory: " (MkdirAll fs rootDir) with
  | Err e => Err e
  | Ok fs' => Ok ({| rootDir := rootDir |}, fs')
  end.

(** The name of [k] below [dir], when [k] is an entry of [dir]. *)
Fixpoint childName (dir k : Path) : option string :=
  match dir, k with
  | [], [name] => Some name
  | d :: dir', c :: k' => if String.eqb d c then childName dir' k' else None
  | _, _ => None
  end.

Definition isDir (n : Node) : bool :=
  match n with
  | Dir => true
  | File _ => false
  end.

(** Entries are ordered by name, byte by byte. *)
Definition nameLe (a b : string * bool) : Prop := String.leb a.1 b.1 = true.

#[export] Instance nameLe_dec (a b : string * bool) : Decision (nameLe a b) :=
  decide (String.leb a.1 b.1 = true).

(** [os.ReadDir(dir)]: the entries of a directory, each with its name and
    whether it is a directory, sorted by name. *)
Definition ReadDir (fs : FS) (dir : Path) : result (list (string * bool)) :=
  match fs !! dir with
  | Some Dir =>
      Ok (merge_sort nameLe
            (omap (fun kv => match childName dir kv.1 with
                             | Some name => Some (name, isDir kv.2)
                             | None => None
                             end) (map_to_list fs)))
  | Some (File _) => Err "readdirent: not a directory"
  | None => Err "open: no such file or directory"
  end.

(** [os.IsNotExist(err)] on the errors above. *)
Definition IsNotExist (e : string) : bool := String.eqb e "open: no such file or directory".

(** [Store.ListImages], that is [Layout.ListImages] with its call of
    [os.ReadDir]. *)
Definition Store_ListImages (l : Layout) (fs : FS) : result (list string) :=
  let imagesDir := Join (rootDir l) "images" in
  match ReadDir fs imagesDir with
  | Err e =>
      if IsNotExist e then Ok []
      else Err ("failed to read images directory: " ++ e)
  | Ok entries => Ok (ListImages entries)
  end.

Definition SaveConfig (l : Layout) (imageName : string) (data : string) (fs : FS) : result FS :=
  match CreateImageDir l imageName fs with
  | Err e => Err e
  | Ok fs1 =>
      let configPath := GetConfigPath l imageName in
      wrapErr "failed to write config: " (WriteFile fs1 configPath data)
  end.

Definition LoadConfig (l : Layout) (imageName : string) (fs : FS) : result string :=
  let configPath := GetConfigPath l imageName in
  wrapErr "failed to read config: " (ReadFile fs configPath).

(** [copyFile] of store.go, and of tag.go (the same but for the final
    [os.Chmod]): [os.Open(src)], then [os.Create(dst)], which empties an
    existing file, then [io.Copy], which reads what the source holds at
    that moment. *)
Definition copyFile (fs : FS) (src dst : Path) : result FS :=
  match fs !! src with
  | None => Err "open: no such file or directory"
  | Some _ =>
      match WriteFile fs dst "" with
      | Err e => Err e
      | Ok fs1 =>
          match fs1 !! src with
          | Some (File data) => WriteFile fs1 dst data
          | _ => Err "read: is a directory"
          end
      end
  end.

Definition SaveLayer (l : Layout) (imageName digest : string) (srcPath : Path) (fs : FS)
  : result FS :=
  let layersDir := GetLayersDir l imageName in
  match MkdirAll fs layersDir with
  | Err e => Err e
  | Ok fs1 =>
      let destPath := GetLayerPath l imageName digest in
      wrapErr "failed to copy layer: " (copyFile fs1 srcPath destPath)
  end.

(** ** cmd/rm.go *)

(** [rmCmd] with the storage directory [config.GetStorageDir] returned:
    the outcome and the file system the command leaves behind. *)
Definition rmCmd (storageDir : Path) (imageRef : string) (fs : FS) : Outcome unit * FS :=
  match NewLayout storageDir fs with
  | Err e => (Exited ("Error: Failed to create store: " ++ e), fs)
  | Ok (l, fs0) =>
      if negb (ImageExists l fs0 imageRef)
      then (Exited ("Error: Image '" ++ imageRef ++ "' not found"), fs0)
      else
        match RemoveImage l fs0 imageRef with
        | (Some e, fs1) => (Exited ("Error: Failed to remove image: " ++ e), fs1)
        | (None, fs1) => (Finished tt, fs1)
        end
  end.

(** ** cmd/tag.go: where [tagCmd] looks for layer files *)

Definition tagCmd_layersDir (storageDir : Path) (imageName : string) : Path :=
  Join (Join (Join storageDir "images")
          (ReplaceAll (ReplaceAll imageName ":" "_") "/" "_")) "layers".

(** ** Notions used in the proofs about the store *)

(** The paths [mkdirFrom fs base rest] visits: from [base] down to
    [base ++ rest]. *)
Definition between (base rest q : Path) : Prop :=
  base `prefix_of` q ∧ q `prefix_of` (base ++ rest)%list.

(** Writing a file called [name] into the directory of an image, after
    [CreateImageDir]: what [SaveManifestRaw] and [SaveConfig] do. *)
Definition saveInto (l : Layout) (imageName name data : string) (fs : FS) : result FS :=
  match MkdirAll fs (GetLayersDir l imageName) with
  | Err e => Err ("failed to create image directory: " ++ e)
  | Ok fs1 => WriteFile fs1 (GetImageDir l imageName ++ [name])%list data
  end.

(** ** pkg/config: the configuration and its manager

    A Go map that is [nil] reads like an empty one; [None] stands for it. *)

Module Config.

Record AuthEntry : Type := {
  Username : string;
  Password : string;
  Email : string
}.

Record RegistryEntry : Type := { Proxy : string }.

Record t : Type := {
  DefaultProxy : string;
  Auth : option (gmap string AuthEntry);
  Registries : option (gmap string RegistryEntry)
}.

End Config.

(** The methods of [Manager] that read and update [m.config]. *)

Definition GetDefaultProxy (cfg : Config.t) : string := Config.DefaultProxy cfg.

Definition SetDefaultProxy (cfg : Config.t) (proxy : string) : Config.t :=
  {| Config.DefaultProxy := proxy;
     Config.Auth := Config.Auth cfg;
     Config.Registries := Config.Registries cfg |}.

Definition GetRegistryProxy (cfg : Config.t) (registry : string) : string :=
  match Config.Registries cfg with
  | Some registries =>
      match registries !! registry with
      | Some entry => Config.Proxy entry
      | None => Config.DefaultProxy cfg
      end
  | None => Config.DefaultProxy cfg
  end.

Definition SetRegistryProxy (cfg : Config.t) (registry proxy : string) : Config.t :=
  let registries :=
    match Config.Registries cfg with
    | Some registries => registries
    | None => ∅
    end in
  {| Config.DefaultProxy := Config.DefaultProxy cfg;
     Config.Auth := Config.Auth cfg;
     Config.Registries := Some (<[registry := {| Config.Proxy := proxy |}]> registries) |}.

(** [GetAuth] returns [(username, password, ok)]. *)
Definition GetAuth (cfg : Config.t) (registry : string) : string * string * bool :=
  match Config.Auth cfg with
  | Some auths =>
      match auths !! registry with
      | Some entry => (Config.Username entry, Config.Password entry, true)
      | None => ("", "", false)
      end
  | None => ("", "", false)
  end.

Definition SetAuth (cfg : Config.t) (registry username password : string) : Config.t :=
  let auths :=
    match Config.Auth cfg with
    | Some auths => auths
    | None => ∅
    end in
  {| Config.DefaultProxy := Config.DefaultProxy cfg;
     Config.Auth :=
       Some (<[registry := {| Config.Username := username;
                              Config.Password := password;
                              Config.Email := "" |}]> auths);
     Config.Registries := Config.Registries cfg |}.

Definition RemoveAuth (cfg : Config.t) (registry : string) : Config.t :=
  match Config.Auth cfg with
  | Some auths =>
      {| Config.DefaultProxy := Config.DefaultProxy cfg;
         Config.Auth := Some (delete registry auths);
         Config.Registries := Config.Registries cfg |}
  | None => cfg
  end.

(** ** pkg/proxy: which proxy to use

    [getenv] is [os.Getenv]: the empty string for a variable that is not
    set. *)

Definition proxyEnvVars : list string :=
  ["TIMAGE_PROXY"; "HTTP_PROXY"; "HTTPS_PROXY"; "http_proxy"; "https_proxy"].

(** The loop of [GetProxyFromEnv]. *)
Fixpoint firstSet (getenv : string -> string) (envs : list string) : string :=
  match envs with
  | [] => ""
  | env :: rest =>
      let proxyURL := getenv env in
      if negb (String.eqb proxyURL "") then proxyURL else firstSet getenv rest
  end.

Definition GetProxyFromEnv (getenv : string -> string) : string :=
  firstSet getenv proxyEnvVars.

Definition GetProxyURL (getenv : string -> string) (cmdProxy : string) : string :=
  if negb (String.eqb cmdProxy "") then cmdProxy else GetProxyFromEnv getenv.

Definition IsProxyEnabled (proxyURL : string) : bool :=
  negb (String.eqb (TrimSpace proxyURL) "").

(** ** cmd: how [pullCmd] and [pushCmd] choose proxy and credentials *)

Definition cmd_proxyURL (getenv : string -> string) (cfg : Config.t)
    (proxyFlag registryURL : string) : string :=
  let proxyURL := GetProxyURL getenv proxyFlag in
  if String.eqb proxyURL "" then GetRegistryProxy cfg registryURL else proxyURL.

Definition cmd_auth (cfg : Config.t) (registryURL : string) : AuthConfig.t :=
  let '(username, password, _) := GetAuth cfg registryURL in
  {| AuthConfig.Username := username; AuthConfig.Password := password;
     AuthConfig.Token := "" |}.

(** The configuration [NewManager] starts from when there is no file. *)
Definition emptyConfig : Config.t :=
  {| Config.DefaultProxy := ""; Config.Auth := Some ∅; Config.Registries := Some ∅ |}.

(** An environment in which two of the proxy variables are set. *)
Definition twoProxies (env : string) : string :=
  if String.eqb env "HTTPS_PROXY" then "http://upper:3128"
  else if String.eqb env "http_proxy" then "http://lower:3128"
  else "".

(** ** pkg/registry/client.go: [NewClient]

    [newHTTPClientErr] is the error of [proxy.NewHTTPClient], if any, and
    [urlParse] is [url.Parse] followed by [String]. *)

Section NewClient.
Variable newHTTPClientErr : string -> option string.
Variable urlParse : string -> result string.

Definition createHTTPClient (proxyURL : string) : option string :=
  if negb (String.eqb proxyURL "") then newHTTPClientErr proxyURL else None.

(** The registry URL [NewClient] hands to [url.Parse]. *)
Definition NewClient_registryURL (registryURL : string) : string :=
  let registryURL :=
    if String.eqb registryURL "" || String.eqb registryURL "docker.io"
    then "https://registry-1.docker.io"
    else registryURL in
  if negb (HasPrefix registryURL "http://") && negb (HasPrefix registryURL "https://")
  then "https://" ++ registryURL
  else registryURL.

Definition NewClient (registryURL proxyURL : string) : result Client :=
  match createHTTPClient proxyURL with
  | Some e => Err ("failed to create HTTP client: " ++ e)
  | None =>
      match urlParse (NewClient_registryURL registryURL) with
      | Err e => Err ("invalid registry URL: " ++ e)
      | Ok parsed => Ok {| baseURL := parsed |}
      end
  end.

End NewClient.

(** ** pkg/registry, continued: the other operations of the client *)

Section ClientOperations.
Context `{Env}.

(** *** client.go *)

(** The line feed of the message of [VerifyCredentials]. *)
Definition newline : string := String (ascii_of_nat 10) EmptyString.

Definition VerifyCredentials (c : Client) : M unit :=
  resp ← wrap "failed to connect: " (doRequest c "GET" "/" ∅);
  if Nat.eqb (StatusCode resp) StatusOK then mret tt
  else if Nat.eqb (StatusCode resp) StatusUnauthorized
  then
    let authHeader := Get (RespHeader resp) "Www-Authenticate" in
    if negb (String.eqb authHeader "")
    then fail ("access denied. Server requested: " ++ authHeader ++ newline ++ newline
               ++ "Please check your username and password.")
    else fail "access denied. Please check your username and password."
  else fail ("unexpected status code: " ++ itoa (StatusCode resp)
             ++ " (registry may require authentication)").

(** *** blob.go *)

(** [os.Create(destPath)] leaves an empty file, which [io.Copy] then
    fills with the body of the response. *)
Definition DownloadBlob (c : Client) (name digest : string) (destPath : Path) (fs : FS)
  : M FS :=
  let path := "/" ++ name ++ "/blobs/" ++ digest in
  resp ← wrap "failed to get blob: " (doRequest c "GET" path ∅);
  if negb (Nat.eqb (StatusCode resp) StatusOK)
  then fail ("unexpected status code " ++ itoa (StatusCode resp))
  else
    fs1 ← lift (wrapErr "failed to create directory: " (MkdirAll fs (removelast destPath)));
    fs2 ← lift (wrapErr "failed to create file: " (WriteFile fs1 destPath ""));
    mret (<[destPath := File (Body resp)]> fs2).

(** *** manifest.go *)

Definition PutManifest (c : Client) (name reference manifest contentType : string)
  : M unit :=
  let path := "/" ++ name ++ "/manifests/" ++ reference in
  let fullURL := baseURL c ++ "/v2" ++ path in
  req ← lift (wrapErr "failed to create request: " (NewRequest "PUT" fullURL manifest));
  let req := setHeader "Content-Type" contentType req in
  let req := setHeader "Content-Length" (itoa (String.length manifest)) req in
  a ← getAuth;
  let req := setHeader "Docker-Distribution-API-Version" "registry/2.0" (AddAuth a req) in
  resp ← wrap "request failed: " (Do ByClient req);
  if negb (Nat.eqb (StatusCode resp) StatusCreated)
  then fail ("unexpected status code " ++ itoa (StatusCode resp) ++ ": " ++ Body resp)
  else mret tt.

(** The request [PutManifest] sends, built from the result of
    [http.NewRequest]. *)
Definition manifestPut (a : AuthConfig.t) (contentType : string) (size : nat)
    (req : Request) : Request :=
  setHeader "Docker-Distribution-API-Version" "registry/2.0"
    (AddAuth a
       (setHeader "Content-Length" (itoa size) (setHeader "Content-Type" contentType req))).

(** The upload URL [StartBlobUpload] makes of a [Location] header. *)
Definition uploadLocation (c : Client) (location : string) : string :=
  if negb (HasPrefix location "http://") && negb (HasPrefix location "https://")
  then baseURL c ++ "/v2" ++ location
  else location.

End ClientOperations.

(** An endless chain of manifest lists: every answer is a list whose
    entry for [amd64] and [linux] points on to [sha256:next]. *)
Definition chainList : Manifest.t :=
  {| Manifest.SchemaVersion := 2;
     Manifest.MediaType := manifestListV2;
     Manifest.Config := {| Layer.MediaType := ""; Layer.Size := 0; Layer.Digest := "" |};
     Manifest.Layers := [];
     Manifest.Manifests := [ entryFor "amd64" "sha256:next" ] |}.

Definition chainEnv : Env :=
  {| World := unit;
     httpDo := fun _ w => (respond 200 {[ "Content-Type" := manifestListV2 ]} "LIST", w);
     httpDoUnreadable := fun _ w => (Err "read: is a directory", w);
     newRequestErr := fun _ _ => None;
     urlSetQuery := fun realm _ => Ok realm;
     urlRawQuery := demoRawQuery;
     urlWithRawQuery := demoWithRawQuery;
     dirSize := fun _ => 4096%nat;
     base64 := fun s => s;
     decodeTokenResponse := fun _ => Err "invalid character";
     decodeManifest := fun _ => Ok chainList;
     decodeIndex := fun _ => Ok (Manifest.Manifests chainList) |}.

Definition chainStart : @State chainEnv :=
  @Build_State chainEnv
    {| AuthConfig.Username := ""; AuthConfig.Password := ""; AuthConfig.Token := "" |}
    tt [].

(** ** Notions used in the statements about challenges *)

(** Every byte of [s] passes [p]. *)
Fixpoint allBytes (p : ascii -> bool) (s : string) : bool :=
  match s with
  | EmptyString => true
  | String c s' => p c && allBytes p s'
  end.

(** An ASCII byte that is neither white space nor one of the marks of a
    challenge: comma, equals sign and double quote. *)
Definition plainByte (c : ascii) : bool :=
  negb (notASCII c) && negb (asciiSpace c)
  && negb (Ascii.eqb c ",") && negb (Ascii.eqb c "=")
  && negb (Ascii.eqb c (ascii_of_nat 34)).

(** A byte that may stand in a quoted value that is read back whole. *)
Definition valueByte (c : ascii) : bool :=
  negb (Ascii.eqb c ",") && negb (Ascii.eqb c (ascii_of_nat 34)).

(** A Bearer challenge with the given attributes, each written as
    [key=] and the value between double quotes, separated by commas. *)
Definition challenge (pairs : list (string * string)) : string :=
  "Bearer " ++ String.concat "," (map (fun kv => kv.1 ++ "=" ++ quoted kv.2) pairs).

(** ** Downloading blobs: blob.go and pull.go *)

(** An [int64] after an addition: the sum taken modulo [2^64] into the
    signed range. *)
Definition wrapInt64 (z : Z) : Z := ((z + 2 ^ 63) mod 2 ^ 64 - 2 ^ 63)%Z.

(** [progressWriter]: the bytes handed on to the file so far, the total
    announced, the count kept in [written], and the calls of the
    [progress] function, oldest first. *)
Record progressWriter : Type := {
  pw_writer : string;
  pw_total : Z;
  pw_written : Z;
  pw_progress : list (Z * Z)
}.

(** [progressWriter.Write] with a [progress] function that is not nil,
    into a file, where all of [p] is written. *)
Definition progressWriter_Write (pw : progressWriter) (p : string) : progressWriter :=
  let n := String.length p in
  let written := wrapInt64 (pw_written pw + Z.of_nat n) in
  {| pw_writer := pw_writer pw ++ p;
     pw_total := pw_total pw;
     pw_written := written;
     pw_progress := (pw_progress pw ++ [(written, pw_total pw)])%list |}.

(** The calls of the [progress] function for the given reads, starting
    from a count of [written]. *)
Fixpoint progressCalls (total written : Z) (reads : list string) : list (Z * Z) :=
  match reads with
  | [] => []
  | p :: rest =>
      let written := wrapInt64 (written + Z.of_nat (String.length p)) in
      (written, total) :: progressCalls total written rest
  end.

Section Downloads.
Context `{Env}.

(** [resp.ContentLength], and the pieces in which [io.Copy] reads the
    body of a response. *)
Variable contentLength : Response -> Z.
Variable bodyReads : Response -> list string.

(** The result is the file system and the calls the [progress] function
    has received. *)
Definition DownloadBlobWithProgress (c : Client) (name digest : string) (destPath : Path)
    (fs : FS) : M (FS * list (Z * Z)) :=
  let path := "/" ++ name ++ "/blobs/" ++ digest in
  resp ← wrap "failed to get blob: " (doRequest c "GET" path ∅);
  if negb (Nat.eqb (StatusCode resp) StatusOK)
  then fail ("unexpected status code " ++ itoa (StatusCode resp))
  else
    let size := contentLength resp in
    fs1 ← lift (wrapErr "failed to create directory: " (MkdirAll fs (removelast destPath)));
    fs2 ← lift (wrapErr "failed to create file: " (WriteFile fs1 destPath ""));
    let writer :=
      {| pw_writer := ""; pw_total := size; pw_written := 0; pw_progress := [] |} in
    let writer := fold_left progressWriter_Write (bodyReads resp) writer in
    mret (<[destPath := File (pw_writer writer)]> fs2, pw_progress writer).



End Downloads.

(** A registry that serves one blob. *)
Definition blobEnv : Env :=
  {| World := unit;
     httpDo := fun req w =>
       (if Contains (URL req) "/blobs/sha256:0123456789ab"
        then respond 200 ∅ "layer-bytes"
        else respond 404 ∅ "", w);
     httpDoUnreadable := fun _ w => (Err "read: is a directory", w);
     newRequestErr := fun _ _ => None;
     urlSetQuery := fun realm _ => Ok realm;
     urlRawQuery := demoRawQuery;
     urlWithRawQuery := demoWithRawQuery;
     dirSize := fun _ => 4096%nat;
     base64 := fun s => s;
     decodeTokenResponse := fun _ => Err "invalid character";
     decodeManifest := fun _ => Err "invalid character";
     decodeIndex := fun _ => Err "invalid character" |}.

Definition blobStart : @State blobEnv :=
  @Build_State blobEnv
    {| AuthConfig.Username := ""; AuthConfig.Password := ""; AuthConfig.Token := "" |}
    tt [].

(** The body read in two pieces. *)
Definition twoReads (resp : Response) : list string :=
  [sliceTo 5 (Body resp); sliceFrom 5 (Body resp)].

Definition isFinished {A} (o : Outcome A) : bool :=
  match o with
  | Finished _ => true
  | _ => false
  end.

(** ** pkg/config and cmd/login.go: the configuration file

    [unmarshalConfig] is [json.Unmarshal] into a [Config] and
    [marshalConfig] is [json.MarshalIndent]; [newHTTPClientErr] and
    [urlParse] are those of [NewClient]. *)

(** The error of [Manager.Load], with what [os.IsNotExist] says of it. *)
Inductive LoadResult : Type :=
| Loaded (config : Config.t)
| LoadFailed (notExist : bool) (msg : string).

Section ConfigFile.
Context `{Env}.
Variable unmarshalConfig : string -> result Config.t.
Variable marshalConfig : Config.t -> result string.
Variable newHTTPClientErr : string -> option string.
Variable urlParse : string -> result string.

Definition Load (configPath : Path) (fs : FS) : LoadResult :=
  match fs !! configPath with
  | None => LoadFailed true "open: no such file or directory"
  | Some Dir => LoadFailed false "read: is a directory"
  | Some (File data) =>
      match unmarshalConfig data with
      | Err e => LoadFailed false e
      | Ok config =>
          Loaded
            {| Config.DefaultProxy := Config.DefaultProxy config;
               Config.Auth :=
                 match Config.Auth config with
                 | Some auths => Some auths
                 | None => Some ∅
                 end;
               Config.Registries :=
                 match Config.Registries config with
                 | Some registries => Some registries
                 | None => Some ∅
                 end |}
      end
  end.

(** [NewManager] returns the configuration it starts with, or the error,
    and the file system it leaves behind, with the configuration directory
    in it. *)
Definition NewManager (configDir : Path) (fs : FS) : result Config.t * FS :=
  match MkdirAll fs configDir with
  | Err e => (Err ("failed to create config directory: " ++ e), fs)
  | Ok fs1 =>
      let configPath := Join configDir "config.json" in
      match Load configPath fs1 with
      | Loaded config => (Ok config, fs1)
      | LoadFailed true _ =>
          (Ok {| Config.DefaultProxy := ""; Config.Auth := Some ∅;
                 Config.Registries := Some ∅ |}, fs1)
      | LoadFailed false e => (Err e, fs1)
      end
  end.

Definition Save (configPath : Path) (config : Config.t) (fs : FS) : result FS :=
  match marshalConfig config with
  | Err e => Err ("failed to marshal config: " ++ e)
  | Ok data => wrapErr "failed to write config: " (WriteFile fs configPath data)
  end.

(** [loginCmd] with the registry given on the command line, if any, the
    two flags, the configuration directory [config.GetConfigDir] returned
    and the world behind the transport. The result is the outcome, the
    file system the command leaves behind, and the requests sent. After
    [Authentication failed] two lines of advice are printed as well. *)
Definition loginCmd (arg : option string) (loginUsername loginPassword : string)
    (configDir : Path) (fs : FS) (w : World)
  : Outcome unit * FS * list (Issuer * Request) :=
  let registryURL :=
    match arg with
    | Some registry => registry
    | None => "docker.io"
    end in
  match NewManager configDir fs with
  | (Err e, fs1) => (Exited ("Error: Failed to load config: " ++ e), fs1, [])
  | (Ok cfg, fs1) =>
      let auth :=
        {| AuthConfig.Username := loginUsername; AuthConfig.Password := loginPassword;
           AuthConfig.Token := "" |} in
      match NewClient newHTTPClientErr urlParse registryURL "" with
      | Err e => (Exited ("Error: Failed to create registry client: " ++ e), fs1, [])
      | Ok client =>
          match VerifyCredentials client {| auth := auth; world := w; sent := [] |} with
          | (Err e, st1) => (Exited ("Error: Authentication failed: " ++ e), fs1, sent st1)
          | (Ok _, st1) =>
              let cfg := SetAuth cfg registryURL loginUsername loginPassword in
              match Save (Join configDir "config.json") cfg fs1 with
              | Err e => (Exited ("Error: Failed to save config: " ++ e), fs1, sent st1)
              | Ok fs2 => (Finished tt, fs2, sent st1)
              end
          end
      end
  end.

End ConfigFile.

(** ** cmd/tag.go

    [unmarshalManifest] is [json.Unmarshal] into a [Manifest] and
    [marshalManifest] is [json.MarshalIndent]. *)

Section Tag.
Variable unmarshalManifest : string -> result Manifest.t.
Variable marshalManifest : Manifest.t -> result string.

Definition LoadManifest (l : Layout) (imageName : string) (fs : FS) : result Manifest.t :=
  let manifestPath := GetManifestPath l imageName in
  match ReadFile fs manifestPath with
  | Err e => Err ("failed to read manifest: " ++ e)
  | Ok data => wrapErr "failed to unmarshal manifest: " (unmarshalManifest data)
  end.

Definition SaveManifest (l : Layout) (imageName : string) (manifest : Manifest.t) (fs : FS)
  : result FS :=
  match CreateImageDir l imageName fs with
  | Err e => Err e
  | Ok fs1 =>
      match marshalManifest manifest with
      | Err e => Err ("failed to marshal manifest: " ++ e)
      | Ok data =>
          let manifestPath := GetManifestPath l imageName in
          wrapErr "failed to write manifest: " (WriteFile fs1 manifestPath data)
      end
  end.

(** The loop over the entries of the source layers directory. *)
Fixpoint tagCmd_copyLayers (sourceLayersDir targetLayersDir : Path)
    (files : list (string * bool)) (fs : FS) : result FS :=
  match files with
  | [] => Ok fs
  | file :: rest =>
      if file.2 then tagCmd_copyLayers sourceLayersDir targetLayersDir rest fs
      else
        let srcFile := Join sourceLayersDir file.1 in
        let dstFile := Join targetLayersDir file.1 in
        match copyFile fs srcFile dstFile with
        | Err e => Err e
        | Ok fs1 => tagCmd_copyLayers sourceLayersDir targetLayersDir rest fs1
        end
  end.

(** [tagCmd] with the storage directory [config.GetStorageDir] returned:
    the file system it leaves behind, or the exit. A source layers
    directory that cannot be read is passed over in silence. *)
Definition tagCmd (storageDir : Path) (source target : string) (fs : FS) : Outcome FS :=
  match NewLayout storageDir fs with
  | Err e => Exited ("Error: Failed to create store: " ++ e)
  | Ok (l, fs0) =>
      if negb (ImageExists l fs0 source)
      then Exited ("Error: Source image '" ++ source ++ "' not found")
      else
        match LoadManifest l source fs0 with
        | Err e => Exited ("Error: Failed to load manifest: " ++ e)
        | Ok manifest =>
        match SaveManifest l target manifest fs0 with
        | Err e => Exited ("Error: Failed to save manifest: " ++ e)
        | Ok fs1 =>
        match LoadConfig l source fs1 with
        | Err e => Exited ("Error: Failed to load config: " ++ e)
        | Ok configData =>
        match SaveConfig l target configData fs1 with
        | Err e => Exited ("Error: Failed to save config: " ++ e)
        | Ok fs2 =>
            let sourceLayersDir := tagCmd_layersDir storageDir source in
            let targetLayersDir := tagCmd_layersDir storageDir target in
            match MkdirAll fs2 (removelast targetLayersDir) with
            | Err e => Exited ("Error: Failed to create target directory: " ++ e)
            | Ok fs3 =>
                match ReadDir fs3 sourceLayersDir with
                | Err _ => Finished fs3
                | Ok files =>
                    match tagCmd_copyLayers sourceLayersDir targetLayersDir files fs3 with
                    | Err e => Exited ("Error: Failed to copy layer: " ++ e)
                    | Ok fs4 => Finished fs4
                    end
                end
            end
        end end end end
  end.

End Tag.

(** A name a directory entry can have. *)
Definition validName (name : string) : bool :=
  negb (Contains name "/") && negb (String.eqb name "") && negb (String.eqb name ".")
  && negb (String.eqb name "..").

(** Every component of every path of the file system is such a name. *)
Definition validFS (fs : FS) : Prop :=
  map_Forall (fun (k : Path) (_ : Node) => forallb validName k = true) fs.

(** A store holding one image with a layer, as [pullCmd] leaves it. *)
Definition pulledStore : FS :=
  {[ ["store"] := Dir;
     ["store"; "images"] := Dir;
     ["store"; "images"; "nginx_COLON_latest"] := Dir;
     ["store"; "images"; "nginx_COLON_latest"; "manifest.json"] := File "{}";
     ["store"; "images"; "nginx_COLON_latest"; "config.json"] := File "config";
     ["store"; "images"; "nginx_COLON_latest"; "layers"] := Dir;
     ["store"; "images"; "nginx_COLON_latest"; "layers"; "sha256_0123456789ab.tar.gz"]
       := File "layer" ]}.

(** The same for an image pulled as [busybox], without tag. *)
Definition plainStore : FS :=
  {[ ["store"] := Dir;
     ["store"; "images"] := Dir;
     ["store"; "images"; "busybox"] := Dir;
     ["store"; "images"; "busybox"; "manifest.json"] := File "{}";
     ["store"; "images"; "busybox"; "config.json"] := File "config";
     ["store"; "images"; "busybox"; "layers"] := Dir;
     ["store"; "images"; "busybox"; "layers"; "sha256_0123456789ab.tar.gz"]
       := File "layer" ]}.

(** * Properties *)

(** ** Facts about the string functions *)

Section StringFacts.

Lemma append_cons c a b : String c a ++ b = String c (a ++ b).
Proof. reflexivity. Qed.

Lemma append_nil_l a : "" ++ a = a.
Proof. reflexivity. Qed.

Lemma HasPrefix_nil s : HasPrefix s "" = true.
Proof. by destruct s. Qed.

Lemma HasPrefix_cons x s y p :
  HasPrefix (String x s) (String y p) = Ascii.eqb y x && HasPrefix s p.
Proof. simpl. by destruct (Ascii.eqb y x). Qed.

Lemma HasPrefix_app p s : HasPrefix (p ++ s) p = true.
Proof.
  induction p as [|x p IH]; [apply HasPrefix_nil|].
  rewrite append_cons, HasPrefix_cons, Ascii.eqb_refl. exact IH.
Qed.

Lemma Index_cons x s p :
  Index (String x s) p = if HasPrefix (String x s) p then Some 0 else S <$> Index s p.
Proof. simpl. destruct p; [done|]. by destruct (Index s _). Qed.

Lemma Contains_cons x s p :
  Contains (String x s) p = HasPrefix (String x s) p || Contains s p.
Proof.
  unfold Contains. rewrite Index_cons.
  destruct (HasPrefix (String x s) p); [done|]. by destruct (Index s p).
Qed.

Lemma Contains_nil_char c : Contains "" (String c "") = false.
Proof. reflexivity. Qed.

Lemma Contains_char_cons c x s :
  Contains (String x s) (String c "") = Ascii.eqb c x || Contains s (String c "").
Proof. by rewrite Contains_cons, HasPrefix_cons, HasPrefix_nil, andb_true_r. Qed.

Lemma Contains_char_app c a b :
  Contains (a ++ b) (String c "") = Contains a (String c "") || Contains b (String c "").
Proof.
  induction a as [|x a IH]; [done|].
  by rewrite append_cons, !Contains_char_cons, IH, orb_assoc.
Qed.

(** A match in the tail is a match in the whole. *)
Lemma Contains_app_r a b p : Contains b p = true → Contains (a ++ b) p = true.
Proof.
  intros Hb. induction a as [|x a IH]; [done|].
  rewrite append_cons, Contains_cons, IH. apply orb_true_r.
Qed.

Lemma Index_char_app c a b :
  Contains a (String c "") = false →
  Index (a ++ String c b) (String c "") = Some (String.length a).
Proof.
  induction a as [|x a IH]; intros Ha.
  - simpl. by rewrite Ascii.eqb_refl.
  - rewrite Contains_char_cons in Ha. apply orb_false_elim in Ha as [Hx Ha].
    by rewrite append_cons, Index_cons, HasPrefix_cons, Hx, (IH Ha).
Qed.

(** [Index] finds the first occurrence: nothing before it matches. *)
Lemma Index_char_split c s i :
  Index s (String c "") = Some i →
  s = sliceTo i s ++ String c (sliceFrom (i + 1) s)
  ∧ Contains (sliceTo i s) (String c "") = false
  ∧ String.length (sliceTo i s) = i.
Proof.
  revert i. induction s as [|x s IH]; intros i Hi; [done|].
  rewrite Index_cons, HasPrefix_cons, HasPrefix_nil, andb_true_r in Hi.
  destruct (Ascii.eqb c x) eqn:Hx.
  - apply Ascii.eqb_eq in Hx as ->. by injection Hi as <-.
  - destruct (Index s (String c "")) as [j|] eqn:Hj; [|done].
    injection Hi as <-. destruct (IH j eq_refl) as (Hs & Hc & Hl).
    simpl. rewrite Contains_char_cons, Hx, Hc, Hl. split; [|done].
    rewrite append_cons. by f_equal.
Qed.

Lemma sliceTo_app a b : sliceTo (String.length a) (a ++ b) = a.
Proof. induction a as [|x a IH]; simpl; [by destruct b|by rewrite ?append_cons, IH]. Qed.

Lemma sliceFrom_app a b : sliceFrom (String.length a) (a ++ b) = b.
Proof. induction a as [|x a IH]; simpl; [by destruct b|done]. Qed.

Lemma sliceFrom_app_char a c b : sliceFrom (String.length a + 1) (a ++ String c b) = b.
Proof. induction a as [|x a IH]; simpl; [by destruct b|done]. Qed.

End StringFacts.

(** ** Reference parsing *)

Example parse_busybox :
  parseImageRef "busybox:latest" = ("library/busybox", "latest", "docker.io").
Proof. reflexivity. Qed.

Example parse_harbor :
  parseImageRef "harbor.example.com/project/image:v1.0"
  = ("project/image", "v1.0", "harbor.example.com").
Proof. reflexivity. Qed.

Example parse_port :
  parseImageRef "localhost:5000/nginx" = ("nginx", "latest", "localhost:5000").
Proof. reflexivity. Qed.

Example parse_explicit_docker_io :
  parseImageRef "docker.io/nginx:1.25" = ("library/nginx", "1.25", "docker.io").
Proof. reflexivity. Qed.

(** C1, as stated, fails: with two colons the tag is what follows the
    first one, not the last. No registry is removed from ["a:b:c"], so the
    remaining name is the input itself. *)
Lemma parseImageRef_not_last_colon :
  parseImageRef "a:b:c" = ("library/a", "b:c", "docker.io")
  ∧ tagAfterLastColon "a:b:c" = "c"
  ∧ (parseImageRef "a:b:c").1.2 ≠ tagAfterLastColon "a:b:c".
Proof. repeat split. discriminate. Qed.

(** C1 (amended): [parseImageRef] takes as registry the text before the
    first slash exactly when that text contains a dot or a colon, and
    otherwise keeps the whole input and the registry [docker.io]; it
    splits the remaining name at its FIRST colon into name and tag, the
    tag being [latest] when there is no colon; and on [docker.io] a name
    without slash gets the prefix [library/]. *)
Theorem parseImageRef_first_colon (imageRef : string) :
  ∃ registry rest base tag,
    parseImageRef imageRef
    = ((if String.eqb registry "docker.io" && negb (Contains base "/")
        then "library/" ++ base else base), tag, registry)
    ∧ ((imageRef = registry ++ "/" ++ rest
        ∧ Contains registry "/" = false
        ∧ Contains registry "." || Contains registry ":" = true)
       ∨ (registry = "docker.io" ∧ rest = imageRef
          ∧ ∀ host tl, imageRef = host ++ "/" ++ tl → Contains host "/" = false →
                       Contains host "." || Contains host ":" = false))
    ∧ ((rest = base ++ ":" ++ tag ∧ Contains base ":" = false)
       ∨ (Contains rest ":" = false ∧ base = rest ∧ tag = "latest")).
Proof.
  assert (Htag : ∀ registry rest,
    ∃ base tag,
      (let '(name, tag) :=
         match Index rest ":" with
         | Some idx => (sliceTo idx rest, sliceFrom (idx + 1) rest)
         | None => (rest, "latest")
         end in
       ((if String.eqb registry "docker.io" && negb (Contains name "/")
         then "library/" ++ name else name), tag, registry))
      = ((if String.eqb registry "docker.io" && negb (Contains base "/")
          then "library/" ++ base else base), tag, registry)
      ∧ ((rest = base ++ ":" ++ tag ∧ Contains base ":" = false)
         ∨ (Contains rest ":" = false ∧ base = rest ∧ tag = "latest"))).
  { intros registry rest. destruct (Index rest ":") as [j|] eqn:Hj.
    - destruct (Index_char_split _ _ _ Hj) as (Hs & Hc & _).
      exists (sliceTo j rest), (sliceFrom (j + 1) rest). split; [done|]. by left.
    - exists rest, "latest". split; [done|]. right. unfold Contains. by rewrite Hj. }
  assert (Hfirst : ∀ host tl, imageRef = host ++ "/" ++ tl → Contains host "/" = false →
                              Index imageRef "/" = Some (String.length host)).
  { intros host tl -> Hno. by apply Index_char_app. }
  unfold parseImageRef.
  destruct (Index imageRef "/") as [i|] eqn:Hi.
  - destruct (Index_char_split _ _ _ Hi) as (Hs & Hc & Hl).
    destruct (Contains (sliceTo i imageRef) "." || Contains (sliceTo i imageRef) ":") eqn:Hhost.
    + destruct (Htag (sliceTo i imageRef) (sliceFrom (i + 1) imageRef))
        as (base & tag & Heq & Hsplit).
      exists (sliceTo i imageRef), (sliceFrom (i + 1) imageRef), base, tag.
      split; [exact Heq|]. split; [|exact Hsplit]. by left.
    + destruct (Htag "docker.io" imageRef) as (base & tag & Heq & Hsplit).
      exists "docker.io", imageRef, base, tag.
      split; [exact Heq|]. split; [|exact Hsplit]. right. split; [done|]. split; [done|].
      intros host tl Heq' Hno. specialize (Hfirst host tl Heq' Hno).
      injection Hfirst as ->. rewrite Heq' in Hhost. by rewrite sliceTo_app in Hhost.
  - destruct (Htag "docker.io" imageRef) as (base & tag & Heq & Hsplit).
    exists "docker.io", imageRef, base, tag.
    split; [exact Heq|]. split; [|exact Hsplit]. right. split; [done|]. split; [done|].
    intros host tl Heq' Hno. by specialize (Hfirst host tl Heq' Hno).
Qed.

(** ** Facts about [ReplaceAll] *)

Section ReplaceFacts.

Lemma append_assoc (a b c : string) : (a ++ b) ++ c = a ++ (b ++ c).
Proof. induction a as [|x a IH]; [done|]. by rewrite !append_cons, IH. Qed.

Lemma append_nil_r (a : string) : a ++ "" = a.
Proof. induction a as [|x a IH]; [done|]. by rewrite append_cons, IH. Qed.

Lemma expand_app f a b : expand f (a ++ b) = expand f a ++ expand f b.
Proof.
  induction a as [|x a IH]; [done|].
  rewrite append_cons. simpl. by rewrite IH, append_assoc.
Qed.

Lemma expand_expand f g s : expand f (expand g s) = expand (λ c, expand f (g c)) s.
Proof. induction s as [|x s IH]; [done|]. simpl. by rewrite expand_app, IH. Qed.

(** [expand f] leaves [s] alone when [f] leaves each of its bytes alone. *)
Lemma expand_id_on f s :
  (∀ c, Contains s (String c "") = true → f c = String c "") → expand f s = s.
Proof.
  induction s as [|x s IH]; intros Hf; [done|]. simpl.
  rewrite (Hf x), IH; [done| |].
  - intros c Hc. apply Hf. rewrite Contains_char_cons, Hc. apply orb_true_r.
  - by rewrite Contains_char_cons, Ascii.eqb_refl.
Qed.

Lemma expand_ext_on f g s :
  (∀ c, Contains s (String c "") = true → f c = g c) → expand f s = expand g s.
Proof.
  induction s as [|x s IH]; intros Hf; [done|]. simpl.
  rewrite (Hf x), IH; [done| |].
  - intros c Hc. apply Hf. rewrite Contains_char_cons, Hc. apply orb_true_r.
  - by rewrite Contains_char_cons, Ascii.eqb_refl.
Qed.

(** Passing over the rest of a match is slicing it off. *)
Lemma replaceFrom_skip old new k s :
  replaceFrom old new k s = replaceFrom old new 0 (sliceFrom k s).
Proof.
  revert s. induction k as [|k IH]; intros s; [by destruct s|].
  destruct s as [|x s]; [done|]. simpl. apply IH.
Qed.

Lemma ReplaceAll_nil old new : old ≠ "" → ReplaceAll "" old new = "".
Proof. by destruct old. Qed.

(** One step of [ReplaceAll] where [old] matches... *)
Lemma ReplaceAll_match old new s :
  old ≠ "" → ReplaceAll (old ++ s) old new = new ++ ReplaceAll s old new.
Proof.
  destruct old as [|o old]; [done|]. intros _. unfold ReplaceAll.
  rewrite append_cons. cbn [replaceFrom].
  rewrite <- append_cons, HasPrefix_app. f_equal.
  rewrite replaceFrom_skip. cbn [String.length]. rewrite Nat.sub_1_r. cbn [Nat.pred].
  by rewrite sliceFrom_app.
Qed.

(** ... and where it does not. *)
Lemma ReplaceAll_no_match old new x s :
  old ≠ "" → HasPrefix (String x s) old = false →
  ReplaceAll (String x s) old new = String x (ReplaceAll s old new).
Proof.
  destruct old as [|o old]; [done|]. intros _ Hno. unfold ReplaceAll.
  cbn [replaceFrom]. by rewrite Hno.
Qed.

(** Replacing a single byte is a bytewise substitution. *)
Lemma ReplaceAll_char c new s :
  ReplaceAll s (String c "") new
  = expand (λ x, if Ascii.eqb c x then new else String x "") s.
Proof.
  induction s as [|x s IH]; [done|]. simpl expand. rewrite <- IH.
  destruct (Ascii.eqb c x) eqn:Hx.
  - apply Ascii.eqb_eq in Hx as <-.
    change (String c s) with (String c "" ++ s). by rewrite ReplaceAll_match.
  - rewrite ReplaceAll_no_match; [done..|].
    by rewrite HasPrefix_cons, Hx.
Qed.

End ReplaceFacts.

(** ** The current encoding of directory names *)

Section CurrentEncoding.

Lemma safeName_expand r : safeName r = expand encByte r.
Proof.
  unfold safeName. rewrite !ReplaceAll_char, expand_expand.
  apply expand_ext_on. intros c _. unfold encByte.
  destruct (Ascii.eqb ":" c); [done|]. simpl. apply append_nil_r.
Qed.

Lemma HasPrefix_Contains s p : HasPrefix s p = true → Contains s p = true.
Proof.
  intros Hp. destruct s as [|x s].
  - unfold Contains. simpl. by rewrite Hp.
  - by rewrite Contains_cons, Hp.
Qed.

Lemma encByte_tokenising : tokenising encByte.
Proof.
  intros c. unfold encByte.
  destruct (Ascii.eqb ":" c); [right; by eexists|].
  destruct (Ascii.eqb "/" c); [right; by eexists|by left].
Qed.

Lemma colonByte_tokenising : tokenising colonByte.
Proof.
  intros c. unfold colonByte.
  destruct (Ascii.eqb ":" c); [right; by eexists|by left].
Qed.

(** Text without underscore at the head of an encoded name stood at the
    head of the name itself. *)
Lemma expand_prefix_plain f p q r :
  tokenising f → Contains p "_" = false →
  HasPrefix (expand f r) (p ++ q) = true → HasPrefix r p = true.
Proof.
  intros Hf. revert r. induction p as [|x p IH]; intros r Hp Hpre.
  { apply HasPrefix_nil. }
  rewrite Contains_char_cons in Hp. apply orb_false_elim in Hp as [Hx Hp].
  destruct r as [|c r]; [done|].
  simpl expand in Hpre. rewrite append_cons in Hpre.
  destruct (Hf c) as [Hc|[t Hc]]; rewrite Hc, append_cons in Hpre.
  - rewrite append_nil_l, HasPrefix_cons in Hpre.
    apply andb_prop in Hpre as [Hxc Hpre].
    rewrite HasPrefix_cons, Hxc. by apply IH.
  - rewrite HasPrefix_cons in Hpre. apply andb_prop in Hpre as [Hxc _].
    apply Ascii.eqb_eq in Hxc as ->. by rewrite Ascii.eqb_refl in Hx.
Qed.

Lemma Contains_cons_false x s p :
  Contains (String x s) p = false →
  HasPrefix (String x s) p = false ∧ Contains s p = false.
Proof. rewrite Contains_cons. apply orb_false_elim. Qed.

(** Undoing the slash tokens gives the name with only its colons encoded. *)
Lemma decode_slash r :
  Contains r "_SLASH" = false → Contains r ":SLASH" = false →
  ReplaceAll (expand encByte r) "_SLASH_" "/" = expand colonByte r.
Proof.
  induction r as [|c r IH]; intros H1 H2; [done|].
  apply Contains_cons_false in H1 as [H1 H1'].
  apply Contains_cons_false in H2 as [H2 H2'].
  specialize (IH H1' H2').
  assert (Hplain : HasPrefix (expand encByte r) "SLASH_" = true → HasPrefix r "SLASH" = true).
  { apply (expand_prefix_plain encByte "SLASH" "_"); [apply encByte_tokenising|done]. }
  simpl expand. unfold encByte at 1, colonByte at 1.
  destruct (Ascii.eqb_spec ":" c) as [<-|Hc].
  - rewrite !append_cons, append_nil_l.
    do 6 (rewrite ReplaceAll_no_match; [|done|reflexivity]).
    rewrite ReplaceAll_no_match, IH; [done|done|].
    rewrite HasPrefix_cons. simpl andb.
    destruct (HasPrefix (expand encByte r) "SLASH_") eqn:Hs; [|done].
    rewrite HasPrefix_cons, (Hplain eq_refl) in H2. done.
  - destruct (Ascii.eqb_spec "/" c) as [<-|Hc'].
    + rewrite ReplaceAll_match, IH; done.
    + rewrite !append_cons, append_nil_l.
      rewrite ReplaceAll_no_match, IH; [done|done|].
      rewrite HasPrefix_cons.
      destruct (Ascii.eqb_spec "_" c) as [<-|]; [|done]. simpl andb.
      destruct (HasPrefix (expand encByte r) "SLASH_") eqn:Hs; [|done].
      rewrite HasPrefix_cons, (Hplain eq_refl) in H1. done.
Qed.

(** Undoing the colon tokens gives the name back. *)
Lemma decode_colon r :
  Contains r "_COLON" = false →
  ReplaceAll (expand colonByte r) "_COLON_" ":" = r.
Proof.
  induction r as [|c r IH]; intros H1; [done|].
  apply Contains_cons_false in H1 as [H1 H1'].
  specialize (IH H1').
  assert (Hplain : HasPrefix (expand colonByte r) "COLON_" = true → HasPrefix r "COLON" = true).
  { apply (expand_prefix_plain colonByte "COLON" "_"); [apply colonByte_tokenising|done]. }
  simpl expand. unfold colonByte at 1.
  destruct (Ascii.eqb_spec ":" c) as [<-|Hc].
  - rewrite ReplaceAll_match, IH; done.
  - rewrite !append_cons, append_nil_l.
    rewrite ReplaceAll_no_match, IH; [done|done|].
    rewrite HasPrefix_cons.
    destruct (Ascii.eqb_spec "_" c) as [<-|]; [|done]. simpl andb.
    destruct (HasPrefix (expand colonByte r) "COLON_") eqn:Hs; [|done].
    rewrite HasPrefix_cons, (Hplain eq_refl) in H1. done.
Qed.

Lemma safeName_has_token r :
  Contains r "/" || Contains r ":" = true →
  Contains (safeName r) "_SLASH_" || Contains (safeName r) "_COLON_" = true.
Proof.
  rewrite safeName_expand. induction r as [|c r IH]; [done|].
  rewrite !Contains_char_cons. simpl expand. unfold encByte at 1 3.
  destruct (Ascii.eqb_spec ":" c) as [<-|Hc].
  - intros _. apply orb_true_iff. right. apply HasPrefix_Contains, HasPrefix_app.
  - destruct (Ascii.eqb_spec "/" c) as [<-|Hc'].
    + intros _. apply orb_true_iff. left. apply HasPrefix_Contains, HasPrefix_app.
    + simpl orb. intros Hr. apply IH in Hr. apply orb_true_iff in Hr as [Hr|Hr].
      * apply orb_true_iff. left. by apply Contains_app_r.
      * apply orb_true_iff. right. by apply Contains_app_r.
Qed.

Lemma safeName_no_slash r : Contains (safeName r) "/" = false.
Proof.
  rewrite safeName_expand. induction r as [|c r IH]; [done|].
  simpl expand. rewrite Contains_char_app, IH, orb_false_r. unfold encByte.
  destruct (Ascii.eqb_spec ":" c); [done|].
  destruct (Ascii.eqb_spec "/" c) as [|Hc]; [done|].
  rewrite Contains_char_cons. by destruct (Ascii.eqb_spec "/" c).
Qed.

Lemma Split_no_sep s c : Contains s (String c "") = false → Split s (String c "") = [s].
Proof.
  unfold Split. induction s as [|x s IH]; intros Hs; [done|].
  rewrite Contains_char_cons in Hs. apply orb_false_elim in Hs as [Hx Hs].
  cbn [splitFrom]. rewrite HasPrefix_cons, Hx. simpl andb. cbv iota. by rewrite (IH Hs).
Qed.

(** A name without slash that is not empty, [.] or [..] is one more
    component. *)
Lemma Join_component dir name :
  Contains name "/" = false → name ≠ "" → name ≠ "." → name ≠ ".." →
  Join dir name = (dir ++ [name])%list.
Proof.
  intros Hs H0 H1 H2. unfold Join. rewrite (Split_no_sep _ _ Hs). simpl.
  unfold cleanStep.
  destruct (String.eqb_spec name ""); [done|].
  destruct (String.eqb_spec name "."); [done|].
  by destruct (String.eqb_spec name "..").
Qed.

Lemma GetImageDir_safeName l r :
  Contains r "/" || Contains r ":" = true →
  GetImageDir l r = (Join (rootDir l) "images" ++ [safeName r])%list.
Proof.
  intros Hr. apply safeName_has_token in Hr.
  unfold GetImageDir. fold (safeName r). apply Join_component.
  - apply safeName_no_slash.
  - intros E. by rewrite E in Hr.
  - intros E. by rewrite E in Hr.
  - intros E. by rewrite E in Hr.
Qed.

Lemma ListImages_single dirName : ListImages [(dirName, true)] = [decodeDirName dirName].
Proof. reflexivity. Qed.

(** C5, as stated, fails: a tag may contain the text of a token. The name
    below has a slash and a colon; its directory decodes to another name. *)
Lemma current_encoding_fails :
  Contains "repo/img:v1_COLON_2" "/" = true
  ∧ Contains "repo/img:v1_COLON_2" ":" = true
  ∧ GetImageDir {| rootDir := ["store"] |} "repo/img:v1_COLON_2"
    = ["store"; "images"; "repo_SLASH_img_COLON_v1_COLON_2"]
  ∧ ListImages [("repo_SLASH_img_COLON_v1_COLON_2", true)] = ["repo/img:v1:2"]
  ∧ "repo/img:v1:2" ≠ "repo/img:v1_COLON_2".
Proof. repeat split. discriminate. Qed.

(** C5 (amended): for every reference that contains a slash or a colon
    and none of the texts [_SLASH], [:SLASH] and [_COLON], the directory
    name [GetImageDir] gives it is decoded by [ListImages] to the
    reference itself. *)
Theorem current_encoding_round_trip (l : Layout) (r : string) :
  Contains r "/" || Contains r ":" = true →
  Contains r "_SLASH" = false →
  Contains r ":SLASH" = false →
  Contains r "_COLON" = false →
  ∃ dirName,
    GetImageDir l r = (Join (rootDir l) "images" ++ [dirName])%list
    ∧ ListImages [(dirName, true)] = [r].
Proof.
  intros Hr H1 H2 H3. exists (safeName r). split; [by apply GetImageDir_safeName|].
  rewrite ListImages_single. f_equal. unfold decodeDirName.
  rewrite (safeName_has_token r Hr), safeName_expand, decode_slash by done.
  by apply decode_colon.
Qed.

(** The theorem at a reference with underscores in repository and tag. *)
Lemma current_encoding_round_trip_nginx :
  ∃ dirName,
    GetImageDir {| rootDir := ["store"] |} "docker.io/my_org/nginx:1.25_alpine"
    = (Join ["store"] "images" ++ [dirName])%list
    ∧ ListImages [(dirName, true)] = ["docker.io/my_org/nginx:1.25_alpine"].
Proof. apply current_encoding_round_trip; reflexivity. Defined.

End CurrentEncoding.

(** ** The legacy encoding of directory names *)

Section LegacyEncoding.

Lemma encodeOldEncoding_expand r : encodeOldEncoding r = expand oldByte r.
Proof.
  unfold encodeOldEncoding. rewrite !ReplaceAll_char, expand_expand.
  apply expand_ext_on. intros c _. unfold oldByte.
  destruct (Ascii.eqb ":" c); [done|]. simpl. apply append_nil_r.
Qed.

Lemma LastIndex_char_None c s :
  Contains s (String c "") = false → LastIndex s (String c "") = None.
Proof.
  induction s as [|x s IH]; [done|].
  rewrite Contains_char_cons. intros [Hx Hs]%orb_false_elim.
  cbn [LastIndex]. by rewrite (IH Hs), HasPrefix_cons, Hx.
Qed.

(** [LastIndex] finds the last occurrence: nothing after it matches. *)
Lemma LastIndex_char_app c a b :
  Contains b (String c "") = false →
  LastIndex (a ++ String c b) (String c "") = Some (String.length a).
Proof.
  intros Hb. induction a as [|x a IH].
  - rewrite append_nil_l. cbn [LastIndex].
    by rewrite (LastIndex_char_None _ _ Hb), HasPrefix_cons, Ascii.eqb_refl.
  - rewrite append_cons. cbn [LastIndex]. by rewrite IH.
Qed.

Lemma Contains_char_true_neq c x s :
  Contains s (String c "") = false → Contains s (String x "") = true → c ≠ x.
Proof. intros Hc Hx ->. congruence. Qed.

Lemma legacy_path_restored p :
  Contains p "_" = false → Contains p ":" = false →
  ReplaceAll (expand oldByte p) "_" "/" = p.
Proof.
  intros H1 H2. rewrite ReplaceAll_char, expand_expand.
  apply expand_id_on. intros c Hc. unfold oldByte.
  pose proof (Contains_char_true_neq _ _ _ H1 Hc) as N1.
  pose proof (Contains_char_true_neq _ _ _ H2 Hc) as N2.
  destruct (Ascii.eqb_spec ":" c); [done|].
  destruct (Ascii.eqb_spec "/" c) as [<-|]; [reflexivity|].
  cbn [expand]. rewrite append_nil_r. by destruct (Ascii.eqb_spec "_" c).
Qed.

Lemma legacy_plain_unchanged t :
  Contains t ":" = false → Contains t "/" = false → expand oldByte t = t.
Proof.
  intros H1 H2. apply expand_id_on. intros c Hc. unfold oldByte.
  pose proof (Contains_char_true_neq _ _ _ H1 Hc) as N1.
  pose proof (Contains_char_true_neq _ _ _ H2 Hc) as N2.
  destruct (Ascii.eqb_spec ":" c); [done|].
  by destruct (Ascii.eqb_spec "/" c).
Qed.

(** C6, as stated, fails: no repository segment of the reference below
    contains an underscore (nor does the reference), yet the colon of its
    registry port comes back as a slash. *)
Lemma legacy_round_trip_fails :
  parseImageRef "localhost:5000/nginx:latest" = ("nginx", "latest", "localhost:5000")
  ∧ Contains "localhost:5000/nginx:latest" "_" = false
  ∧ decodeOldEncoding (encodeOldEncoding "localhost:5000/nginx:latest")
    = "localhost/5000/nginx:latest"
  ∧ "localhost/5000/nginx:latest" ≠ "localhost:5000/nginx:latest".
Proof. repeat split. discriminate. Qed.

(** C6 (amended): the legacy encoding followed by the heuristic decoding
    returns a reference [p:t] whenever [p] contains neither underscore nor
    colon and [t] contains neither underscore, colon nor slash, and returns
    a reference without any of the three bytes; with an underscore in a
    repository segment the round trip can fail. *)
Theorem legacy_round_trip :
  (∀ p t,
     Contains p "_" = false → Contains p ":" = false →
     Contains t "_" = false → Contains t ":" = false → Contains t "/" = false →
     decodeOldEncoding (encodeOldEncoding (p ++ ":" ++ t)) = p ++ ":" ++ t)
  ∧ (∀ r,
       Contains r "_" = false → Contains r ":" = false → Contains r "/" = false →
       decodeOldEncoding (encodeOldEncoding r) = r)
  ∧ (Contains "my_app/web:v1" "_" = true
     ∧ decodeOldEncoding (encodeOldEncoding "my_app/web:v1") = "my/app/web:v1").
Proof.
  split; [|split; [|done]].
  - intros p t Hp1 Hp2 Ht1 Ht2 Ht3.
    change (":" ++ t) with (String ":" t).
    rewrite encodeOldEncoding_expand, expand_app. cbn [expand].
    rewrite (legacy_plain_unchanged t Ht2 Ht3).
    change (oldByte ":" ++ t) with (String "_" t).
    unfold decodeOldEncoding. rewrite (LastIndex_char_app _ _ _ Ht1).
    by rewrite sliceTo_app, sliceFrom_app_char, legacy_path_restored.
  - intros r H1 H2 H3.
    rewrite encodeOldEncoding_expand, (legacy_plain_unchanged r H2 H3).
    unfold decodeOldEncoding. by rewrite (LastIndex_char_None _ _ H1).
Qed.

(** The first part of the theorem at a usual reference. *)
Lemma legacy_round_trip_nginx :
  decodeOldEncoding (encodeOldEncoding ("docker.io/library/nginx" ++ ":" ++ "latest"))
  = "docker.io/library/nginx" ++ ":" ++ "latest".
Proof. apply (proj1 legacy_round_trip); reflexivity. Defined.

End LegacyEncoding.

(** ** Lookup and removal in the store *)

Section Lookup.

Lemma Stat_RemoveAll fs p fs' q :
  RemoveAll fs p = Ok fs' →
  Stat fs' q = Stat fs q && negb (bool_decide (p `prefix_of` q)).
Proof.
  unfold RemoveAll. intros [= <-]. unfold Stat.
  destruct (fs !! q) as [n|] eqn:Hq.
  - case_bool_decide as Hp; simpl.
    + rewrite (proj2 (map_lookup_filter_None _ _ _)); [done|].
      right. intros n' Hn'. simpl. tauto.
    + by rewrite (proj2 (map_lookup_filter_Some _ _ _ n)).
  - rewrite (proj2 (map_lookup_filter_None _ _ _)); [done|]. by left.
Qed.

Lemma findImageDir_cases l fs imageName :
  findImageDir l fs imageName =
  if Stat fs (currentPath l imageName) then Some (currentPath l imageName)
  else if Stat fs (legacyPath l imageName) then Some (legacyPath l imageName)
  else None.
Proof. reflexivity. Qed.

(** C9, as stated, fails: when the store holds the reference under both
    encodings, [RemoveImage] succeeds, removes the current-encoding
    directory only, and [ImageExists] still answers true. *)
Lemma remove_then_exists_fails :
  (RemoveImage {| rootDir := ["store"] |} twoGenerations "nginx:latest").1 = None
  ∧ ImageExists {| rootDir := ["store"] |}
      (RemoveImage {| rootDir := ["store"] |} twoGenerations "nginx:latest").2
      "nginx:latest" = true.
Proof. split; vm_compute; reflexivity. Qed.

(** C9 (amended): [ImageExists] and [RemoveImage] look at the
    current-encoding path first and at the legacy path only when the first
    is absent, and act on the first that exists: removal deletes that
    directory with everything below it and nothing else; when neither
    exists, [RemoveImage] fails with [image not found] and leaves the store
    as it was; and after a successful [RemoveImage], [ImageExists] answers
    false unless the store held the reference under both encodings, in two
    directories of which the legacy one is not inside the current one. *)
Theorem findImageDir_policy (l : Layout) (fs : FS) (imageName : string) :
  ImageExists l fs imageName
  = Stat fs (currentPath l imageName) || Stat fs (legacyPath l imageName)
  ∧ (Stat fs (currentPath l imageName) = true →
     ∃ fs', RemoveImage l fs imageName = (None, fs')
       ∧ ∀ q, Stat fs' q
              = Stat fs q && negb (bool_decide (currentPath l imageName `prefix_of` q)))
  ∧ (Stat fs (currentPath l imageName) = false →
     Stat fs (legacyPath l imageName) = true →
     ∃ fs', RemoveImage l fs imageName = (None, fs')
       ∧ ∀ q, Stat fs' q
              = Stat fs q && negb (bool_decide (legacyPath l imageName `prefix_of` q)))
  ∧ (Stat fs (currentPath l imageName) = false →
     Stat fs (legacyPath l imageName) = false →
     RemoveImage l fs imageName = (Some "image not found", fs))
  ∧ (∀ fs', RemoveImage l fs imageName = (None, fs') →
     ImageExists l fs' imageName
     = Stat fs (currentPath l imageName) && Stat fs (legacyPath l imageName)
       && negb (bool_decide (currentPath l imageName `prefix_of` legacyPath l imageName))).
Proof.
  repeat split.
  - unfold ImageExists. rewrite findImageDir_cases.
    destruct (Stat fs (currentPath l imageName)); [done|].
    by destruct (Stat fs (legacyPath l imageName)).
  - intros Hnew. unfold RemoveImage. rewrite findImageDir_cases, Hnew.
    eexists. split; [done|]. intros q. by apply Stat_RemoveAll.
  - intros Hnew Hold. unfold RemoveImage. rewrite findImageDir_cases, Hnew, Hold.
    eexists. split; [done|]. intros q. by apply Stat_RemoveAll.
  - intros Hnew Hold. unfold RemoveImage. by rewrite findImageDir_cases, Hnew, Hold.
  - intros fs'. unfold RemoveImage, ImageExists. rewrite !findImageDir_cases.
    destruct (Stat fs (currentPath l imageName)) eqn:Hnew;
      [|destruct (Stat fs (legacyPath l imageName)) eqn:Hold]; [| |done].
    + intros [= <-].
      rewrite !(Stat_RemoveAll fs (currentPath l imageName) _ _ eq_refl), Hnew.
      rewrite (bool_decide_true (currentPath l imageName `prefix_of` currentPath l imageName))
        by done.
      simpl. by destruct (Stat fs (legacyPath l imageName) && negb _).
    + intros [= <-].
      rewrite !(Stat_RemoveAll fs (legacyPath l imageName) _ _ eq_refl), Hnew, Hold.
      by rewrite (bool_decide_true (legacyPath l imageName `prefix_of` legacyPath l imageName)).
Qed.

End Lookup.

(** The theorem at a store that holds the reference under the legacy
    encoding only. *)
Lemma findImageDir_policy_legacy_only :
  ∃ fs',
    RemoveImage demoLayout legacyOnly "nginx:latest" = (None, fs')
    ∧ ImageExists demoLayout fs' "nginx:latest" = false.
Proof.
  pose proof (findImageDir_policy demoLayout legacyOnly "nginx:latest")
    as (_ & _ & Hlegacy & _ & Hgone).
  destruct Hlegacy as (fs' & Hremoved & _);
    [vm_compute; reflexivity|vm_compute; reflexivity|].
  exists fs'. split; [exact Hremoved|].
  rewrite (Hgone fs' Hremoved). vm_compute. reflexivity.
Defined.

(** ** The raw manifest on its way into the store *)


Section RawManifest.
Context `{Env}.

Lemma wrap_Ok {A} ctx (m : M A) st a st' : m st = (Ok a, st') → wrap ctx m st = (Ok a, st').
Proof. unfold wrap. by intros ->. Qed.

Lemma wrap_Err {A} ctx (m : M A) st e st' :
  m st = (Err e, st') → wrap ctx m st = (Err (ctx ++ e), st').
Proof. unfold wrap. by intros ->. Qed.




End RawManifest.

Section RawManifestClaim.
Context `{Env}.


End RawManifestClaim.


Section ManifestResolution.
Context `{Env}.

Lemma find_first {A} (f : A → bool) pre x post :
  Forall (λ y, f y = false) pre → f x = true → List.find f (pre ++ x :: post) = Some x.
Proof.
  intros Hpre Hx. induction Hpre as [|y pre Hy _ IH]; simpl; [by rewrite Hx|by rewrite Hy].
Qed.

Lemma find_none {A} (f : A → bool) l :
  Forall (λ y, f y = false) l → List.find f l = None.
Proof. intros Hl. induction Hl as [|y l Hy _ IH]; simpl; [done|by rewrite Hy]. Qed.

Lemma isAmd64Linux_spec m :
  isAmd64Linux m = true
  ↔ Platform.Architecture (ManifestEntry.Platform m) = "amd64"
    ∧ Platform.OS (ManifestEntry.Platform m) = "linux".
Proof. unfold isAmd64Linux. by rewrite andb_true_iff, !String.eqb_eq. Qed.

Lemma isManifestList_spec manifest contentType :
  isManifestList manifest contentType = true
  ↔ Manifest.MediaType manifest = manifestListV2 ∨ contentType = manifestListV2
    ∨ Manifest.MediaType manifest = ociImageIndex ∨ contentType = ociImageIndex.
Proof. unfold isManifestList. rewrite !orb_true_iff, !String.eqb_eq. tauto. Qed.

(** More fuel does not change a result. *)
Lemma GetManifest_more_fuel fuel extra c name reference st r :
  GetManifest fuel c name reference st = Some r →
  GetManifest (fuel + extra) c name reference st = Some r.
Proof.
  revert reference st. induction fuel as [|fuel IH]; intros reference st; [done|].
  cbn [GetManifest Nat.add].
  destruct (doRequest c "GET" _ acceptManifests st) as [[resp|e] st1]; [|done].
  destruct (negb _); [done|].
  destruct (decodeManifest (Body resp)) as [manifest|e]; [|done].
  destruct (isManifestList _ _); [|done].
  destruct (List.find _ _) as [m|]; [|done].
  apply IH.
Qed.

(** C3: let a 200 response decode to [manifest]. It counts as a list when
    its media type or the content type of the response is that of a
    manifest list or of an OCI image index. For a list, [GetManifest]
    continues as [GetManifest] on the digest of the first entry, in order,
    whose platform is amd64 and linux; without such an entry it fails with
    the no-amd64 error, whatever else is listed; and a manifest that is not
    a list is returned as it is. *)
Theorem GetManifest_resolution c name reference st fuel resp st1 manifest :
  doRequest c "GET" ("/" ++ name ++ "/manifests/" ++ reference) acceptManifests st
  = (Ok resp, st1) →
  StatusCode resp = StatusOK →
  decodeManifest (Body resp) = Ok manifest →
  (isManifestList manifest (Get (RespHeader resp) "Content-Type") = true
   ↔ Manifest.MediaType manifest = manifestListV2
     ∨ Get (RespHeader resp) "Content-Type" = manifestListV2
     ∨ Manifest.MediaType manifest = ociImageIndex
     ∨ Get (RespHeader resp) "Content-Type" = ociImageIndex)
  ∧ (isManifestList manifest (Get (RespHeader resp) "Content-Type") = true →
     ∀ pre m post,
       Manifest.Manifests manifest = (pre ++ m :: post)%list →
       Forall (λ e, ¬ (Platform.Architecture (ManifestEntry.Platform e) = "amd64"
                       ∧ Platform.OS (ManifestEntry.Platform e) = "linux")) pre →
       Platform.Architecture (ManifestEntry.Platform m) = "amd64" →
       Platform.OS (ManifestEntry.Platform m) = "linux" →
       GetManifest (S fuel) c name reference st
       = GetManifest fuel c name (ManifestEntry.Digest m) st1)
  ∧ (isManifestList manifest (Get (RespHeader resp) "Content-Type") = true →
     Forall (λ e, ¬ (Platform.Architecture (ManifestEntry.Platform e) = "amd64"
                     ∧ Platform.OS (ManifestEntry.Platform e) = "linux"))
       (Manifest.Manifests manifest) →
     GetManifest (S fuel) c name reference st
     = Some (Err "no amd64 manifest found in manifest list", st1))
  ∧ (isManifestList manifest (Get (RespHeader resp) "Content-Type") = false →
     GetManifest (S fuel) c name reference st = Some (Ok manifest, st1)).
Proof.
  intros Hreq Hok Hdec.
  assert (Hno : ∀ l,
    Forall (λ e, ¬ (Platform.Architecture (ManifestEntry.Platform e) = "amd64"
                    ∧ Platform.OS (ManifestEntry.Platform e) = "linux")) l →
    Forall (λ e, isAmd64Linux e = false) l).
  { intros l Hl. eapply Forall_impl; [exact Hl|]. intros e He. simpl in He.
    destruct (isAmd64Linux e) eqn:E; [|done]. by apply isAmd64Linux_spec in E. }
  split; [apply isManifestList_spec|].
  cbn [GetManifest]. rewrite Hreq, Hok, Hdec. cbn [Nat.eqb negb].
  change (Nat.eqb StatusOK StatusOK) with true. cbn [negb].
  split; [|split].
  - intros -> pre m post -> Hpre Harch Hos.
    by rewrite (find_first isAmd64Linux pre m post (Hno _ Hpre)
                  (proj2 (isAmd64Linux_spec m) (conj Harch Hos))).
  - intros -> Hall. by rewrite (find_none isAmd64Linux _ (Hno _ Hall)).
  - by intros ->.
Qed.

End ManifestResolution.

(** The theorem at the manifest list of the example registry: the amd64
    entry comes second and is the one resolved. *)
Lemma GetManifest_resolution_two_platforms :
  (@GetManifest demoEnv 2 demoClient "library/nginx" "latest" anonymous)
  = @GetManifest demoEnv 1 demoClient "library/nginx" "sha256:amd"
      (@doRequest demoEnv demoClient "GET" "/library/nginx/manifests/latest"
         acceptManifests anonymous).2
  ∧ fst <$> @GetManifest demoEnv 2 demoClient "library/nginx" "latest" anonymous
    = Some (Ok amd64Image).
Proof.
  split; [|vm_compute; reflexivity].
  refine (proj1 (proj2 (@GetManifest_resolution demoEnv demoClient "library/nginx" "latest"
            anonymous 1
            {| StatusCode := 200; RespHeader := {[ "Content-Type" := manifestListV2 ]};
               Body := "LIST" |} _ twoPlatforms _ _ _))
          _ [entryFor "arm64" "sha256:arm"] (entryFor "amd64" "sha256:amd") [] _ _ _ _).
  - vm_compute. reflexivity.
  - reflexivity.
  - reflexivity.
  - reflexivity.
  - reflexivity.
  - constructor; [|constructor]. intros [E _]. discriminate E.
  - reflexivity.
  - reflexivity.
Defined.

(** ** The request layer *)

Section RequestLayer.
Context `{Env}.

Lemma clientRequests_app ev1 ev2 :
  clientRequests (ev1 ++ ev2) = (clientRequests ev1 ++ clientRequests ev2)%list.
Proof. apply omap_app. Qed.

Lemma Do_eq who req st :
  Do who req st = ((httpDo req (world st)).1, afterDo st who req (httpDo req (world st)).2).
Proof. unfold Do, afterDo. by destruct (httpDo req (world st)). Qed.

(** [fetchToken] sends at most one request, and sends it as the auth
    handler; it leaves the credentials alone. *)
Lemma fetchToken_events realm service scope st r st' :
  fetchToken realm service scope st = (r, st') →
  auth st' = auth st ∧ clientRequests (sent st') = clientRequests (sent st).
Proof.
  unfold fetchToken, mbind, M_bind, lift, getAuth, wrap, fail, mret, M_ret.
  destruct (buildTokenURL realm service scope) as [u|]; [|by intros [= <- <-]].
  destruct (wrapErr _ (NewRequest "GET" u "")) as [tokenReq|]; [|by intros [= <- <-]].
  rewrite Do_eq.
  destruct (httpDo _ (world st)) as [[resp|e] w]; cbn [fst snd wrapErr];
    [|intros [= <- <-]; cbn [auth sent afterDo];
      by rewrite clientRequests_app, app_nil_r].
  assert (Hsent : clientRequests (sent st ++ [(ByAuth,
            if nonEmpty (AuthConfig.Username (auth st)) && nonEmpty (AuthConfig.Password (auth st))
            then setHeader "Authorization"
                   ("Basic " ++ basicAuth (AuthConfig.Username (auth st))
                                          (AuthConfig.Password (auth st))) tokenReq
            else tokenReq)])%list = clientRequests (sent st)).
  { by rewrite clientRequests_app, app_nil_r. }
  destruct (negb _); [by intros [= <- <-]|].
  destruct (wrapErr _ (decodeTokenResponse (Body resp))) as [tr|]; [|by intros [= <- <-]].
  destruct (nonEmpty (TokenResponse.Token tr)); [by intros [= <- <-]|].
  destruct (nonEmpty (TokenResponse.AccessToken tr)); by intros [= <- <-].
Qed.

(** Challenge handling never sends a request as the client. *)
Lemma HandleAuthChallenge_events req resp st r st' :
  HandleAuthChallenge req resp st = (r, st') →
  clientRequests (sent st') = clientRequests (sent st).
Proof.
  unfold HandleAuthChallenge, fail, mret, M_ret.
  destruct (String.eqb _ ""); [by intros [= <- <-]|].
  destruct (HasPrefix _ "Bearer").
  - unfold handleBearerAuth, fail.
    destruct (parseAuthHeader _ !! "realm") as [realm|]; [|by intros [= <- <-]].
    unfold mbind, M_bind, wrap, setToken.
    destruct (fetchToken realm _ _ st) as [[token|e] st1] eqn:Hfetch;
      apply fetchToken_events in Hfetch as [_ Hsent]; cbn [wrapErr];
      by intros [= <- <-].
  - destruct (HasPrefix _ "Basic"); by intros [= <- <-].
Qed.

End RequestLayer.

Section DoRequest.
Context `{Env}.

Lemma prepare_fields a headers req :
  Method (prepare a headers req) = Method req
  ∧ URL (prepare a headers req) = URL req
  ∧ ReqBody (prepare a headers req) = ReqBody req.
Proof.
  unfold prepare, AddAuth.
  destruct (nonEmpty (AuthConfig.Token a)); [done|].
  by destruct (nonEmpty (AuthConfig.Username a) && nonEmpty (AuthConfig.Password a)).
Qed.

(** Apart from [Authorization], the headers of a prepared request do not
    depend on the credentials. *)
Lemma prepare_header_ne a a' headers req k :
  k ≠ "Authorization" →
  ReqHeader (prepare a headers req) !! k = ReqHeader (prepare a' headers req) !! k.
Proof.
  intros Hk. unfold prepare. cbn [setHeader ReqHeader].
  destruct (decide (k = "Docker-Distribution-API-Version")) as [->|Hk'].
  { by rewrite !lookup_insert_eq. }
  rewrite !lookup_insert_ne by done.
  assert (Hadd : ∀ b, ReqHeader (AddAuth b (setHeaders headers req)) !! k
                      = ReqHeader (setHeaders headers req) !! k).
  { intros b. unfold AddAuth.
    destruct (nonEmpty (AuthConfig.Token b)); [cbn; by rewrite lookup_insert_ne|].
    destruct (nonEmpty (AuthConfig.Username b) && nonEmpty (AuthConfig.Password b));
      [cbn; by rewrite lookup_insert_ne|done]. }
  by rewrite !Hadd.
Qed.

Lemma NewRequest_fields method url body req :
  NewRequest method url body = Ok req →
  Method req = method ∧ URL req = url ∧ ReqHeader req = ∅ ∧ ReqBody req = body.
Proof. unfold NewRequest. destruct (newRequestErr method url); [done|]. by intros [= <-]. Qed.

(** [doRequest] after a first answer 401. *)
Lemma doRequest_unauthorized c method path headers st req0 resp w1 :
  NewRequest method (baseURL c ++ "/v2" ++ path) "" = Ok req0 →
  httpDo (prepare (auth st) headers req0) (world st) = (Ok resp, w1) →
  StatusCode resp = StatusUnauthorized →
  doRequest c method path headers st =
  match HandleAuthChallenge (prepare (auth st) headers req0) resp
          (afterDo st ByClient (prepare (auth st) headers req0) w1) with
  | (Err e, st2) => (Err ("authentication failed: " ++ e), st2)
  | (Ok _, st2) =>
      (wrapErr "retry request failed: "
         (httpDo (prepare (auth st2) headers req0) (world st2)).1,
       afterDo st2 ByClient (prepare (auth st2) headers req0)
         (httpDo (prepare (auth st2) headers req0) (world st2)).2)
  end.
Proof.
  intros Hnew Hdo H401.
  unfold doRequest, mbind, M_bind, lift, getAuth, wrap.
  rewrite Hnew. cbn [wrapErr]. rewrite Do_eq, Hdo. cbn [fst snd wrapErr].
  rewrite H401. change (Nat.eqb StatusUnauthorized StatusUnauthorized) with true. cbv iota.
  cbv beta.
  destruct (HandleAuthChallenge _ resp _) as [[u|e] st2]; cbn [wrapErr].
  - by rewrite Do_eq.
  - done.
Qed.

(** [doRequest] after any other first answer. *)
Lemma doRequest_other_status c method path headers st req0 resp w1 :
  NewRequest method (baseURL c ++ "/v2" ++ path) "" = Ok req0 →
  httpDo (prepare (auth st) headers req0) (world st) = (Ok resp, w1) →
  StatusCode resp ≠ StatusUnauthorized →
  doRequest c method path headers st
  = (Ok resp, afterDo st ByClient (prepare (auth st) headers req0) w1).
Proof.
  intros Hnew Hdo H401.
  unfold doRequest, mbind, M_bind, lift, getAuth, wrap.
  rewrite Hnew. cbn [wrapErr]. rewrite Do_eq, Hdo. cbn [fst snd wrapErr].
  by rewrite (proj2 (Nat.eqb_neq _ _) H401).
Qed.

Lemma clientRequests_afterDo st req w :
  clientRequests (sent (afterDo st ByClient req w)) = (clientRequests (sent st) ++ [req])%list.
Proof. unfold afterDo. cbn [sent]. by rewrite clientRequests_app. Qed.

(** Whatever happens, one call of [doRequest] sends at most two requests
    to the registry. *)
Lemma doRequest_requests c method path headers st :
  ∃ reqs,
    clientRequests (sent (doRequest c method path headers st).2)
    = (clientRequests (sent st) ++ reqs)%list
    ∧ (List.length reqs ≤ 2)%nat.
Proof.
  destruct (NewRequest method (baseURL c ++ "/v2" ++ path) "") as [req0|e] eqn:Hnew.
  2:{ exists []. split; [|simpl; lia].
      unfold doRequest, mbind, M_bind, lift. rewrite Hnew. cbn.
      by rewrite app_nil_r. }
  destruct (httpDo (prepare (auth st) headers req0) (world st)) as [[resp|e] w1] eqn:Hdo.
  2:{ exists [prepare (auth st) headers req0]. split; [|simpl; lia].
      unfold doRequest, mbind, M_bind, lift, getAuth, wrap.
      rewrite Hnew. cbn [wrapErr]. rewrite Do_eq, Hdo. cbn [fst snd wrapErr].
      by rewrite clientRequests_afterDo. }
  destruct (decide (StatusCode resp = StatusUnauthorized)) as [H401|H401].
  2:{ exists [prepare (auth st) headers req0]. split; [|simpl; lia].
      rewrite (doRequest_other_status _ _ _ _ _ _ _ _ Hnew Hdo H401). cbn [snd].
      by rewrite clientRequests_afterDo. }
  rewrite (doRequest_unauthorized _ _ _ _ _ _ _ _ Hnew Hdo H401).
  destruct (HandleAuthChallenge _ resp _) as [[u|e] st2] eqn:Hch;
    apply HandleAuthChallenge_events in Hch; rewrite clientRequests_afterDo in Hch.
  - exists [prepare (auth st) headers req0; prepare (auth st2) headers req0].
    split; [|simpl; lia].
    cbn [snd]. by rewrite clientRequests_afterDo, Hch, <- app_assoc.
  - exists [prepare (auth st) headers req0]. split; [|simpl; lia]. done.
Qed.

(** A token [fetchToken] returns is not empty, and fetching it leaves
    the credentials as they are. *)
Lemma fetchToken_Ok realm service scope st token st' :
  fetchToken realm service scope st = (Ok token, st') →
  token ≠ "" ∧ auth st' = auth st.
Proof.
  intros Hfetch. split; [|by apply fetchToken_events in Hfetch as [? _]].
  revert Hfetch.
  unfold fetchToken, mbind, M_bind, lift, getAuth, wrap, fail, mret, M_ret.
  destruct (buildTokenURL realm service scope) as [u|]; [|done].
  destruct (wrapErr _ (NewRequest "GET" u "")) as [tokenReq|]; [|done].
  rewrite Do_eq.
  destruct (httpDo _ (world st)) as [[resp|e] w]; cbn [fst snd wrapErr]; [|done].
  destruct (negb _); [done|].
  destruct (wrapErr _ (decodeTokenResponse (Body resp))) as [tr|]; [|done].
  destruct (nonEmpty (TokenResponse.Token tr)) eqn:Ht.
  { intros [= <- _]. unfold nonEmpty in Ht. apply negb_true_iff in Ht.
    by apply String.eqb_neq. }
  destruct (nonEmpty (TokenResponse.AccessToken tr)) eqn:Ha; [|done].
  intros [= <- _]. unfold nonEmpty in Ha. apply negb_true_iff in Ha.
  by apply String.eqb_neq.
Qed.

(** What a successful [HandleAuthChallenge] has done: for a Bearer
    challenge it has fetched a token and stored it, for any other it has
    done nothing. *)
Lemma HandleAuthChallenge_Ok req resp st u st2 :
  HandleAuthChallenge req resp st = (Ok u, st2) →
  (HasPrefix (Get (RespHeader resp) "Www-Authenticate") "Bearer" = true →
   ∃ realm token st1,
     parseAuthHeader (Get (RespHeader resp) "Www-Authenticate") !! "realm" = Some realm
     ∧ fetchToken realm
         (default "" (parseAuthHeader (Get (RespHeader resp) "Www-Authenticate") !! "service"))
         (default "" (parseAuthHeader (Get (RespHeader resp) "Www-Authenticate") !! "scope"))
         st = (Ok token, st1)
     ∧ token ≠ ""
     ∧ st2 = (setToken token st1).2)
  ∧ (HasPrefix (Get (RespHeader resp) "Www-Authenticate") "Bearer" = false → st2 = st).
Proof.
  unfold HandleAuthChallenge, fail, mret, M_ret.
  destruct (String.eqb _ ""); [done|].
  destruct (HasPrefix _ "Bearer").
  - intros Hbearer. split; [intros _|done]. revert Hbearer.
    unfold handleBearerAuth, fail.
    destruct (parseAuthHeader _ !! "realm") as [realm|]; [|done].
    unfold mbind, M_bind, wrap.
    destruct (fetchToken realm _ _ st) as [[token|e] st1] eqn:Hfetch; cbn [wrapErr]; [|done].
    intros Hset. exists realm, token, st1. split; [done|]. split; [done|].
    split; [by apply fetchToken_Ok in Hfetch as [? _]|]. by rewrite Hset.
  - destruct (HasPrefix _ "Basic"); [|done]. intros [= _ <-]. by split.
Qed.

(** The [Authorization] header of a prepared request is the one the
    credentials call for. *)
Lemma prepare_authorization a headers req :
  ReqHeader (prepare a headers req) !! "Authorization"
  = if nonEmpty (AuthConfig.Token a)
    then Some ("Bearer " ++ AuthConfig.Token a)
    else if nonEmpty (AuthConfig.Username a) && nonEmpty (AuthConfig.Password a)
    then Some ("Basic " ++ basicAuth (AuthConfig.Username a) (AuthConfig.Password a))
    else (headers ∪ ReqHeader req) !! "Authorization".
Proof.
  unfold prepare. cbn [setHeader ReqHeader]. rewrite lookup_insert_ne by done.
  unfold AddAuth.
  destruct (nonEmpty (AuthConfig.Token a)); [cbn; by rewrite lookup_insert_eq|].
  destruct (nonEmpty (AuthConfig.Username a) && nonEmpty (AuthConfig.Password a));
    [cbn; by rewrite lookup_insert_eq|done].
Qed.

(** C4: one call of [doRequest] sends at most two requests to the
    registry. When the first response is a 401, the challenge is handled;
    if that fails, [doRequest] fails with [authentication failed] and has
    sent the one request; if it succeeds, the request is built again from
    the same method, URL and headers with the credentials as they are now,
    sent once more, and the transport's answer to it is the result,
    whatever its status. The [Authorization] header of the second request
    is the one the credentials call for after the challenge: after a
    Bearer challenge it is [Bearer] and the token just fetched, which is
    not empty; after any other challenge the credentials, and with them the
    request, are the same as before. *)
Theorem doRequest_retries_once c method path headers st :
  (∃ reqs,
     clientRequests (sent (doRequest c method path headers st).2)
     = (clientRequests (sent st) ++ reqs)%list
     ∧ (List.length reqs ≤ 2)%nat)
  ∧ ∀ req0 resp w1,
      NewRequest method (baseURL c ++ "/v2" ++ path) "" = Ok req0 →
      httpDo (prepare (auth st) headers req0) (world st) = (Ok resp, w1) →
      StatusCode resp = StatusUnauthorized →
      (∀ e st2,
         HandleAuthChallenge (prepare (auth st) headers req0) resp
           (afterDo st ByClient (prepare (auth st) headers req0) w1) = (Err e, st2) →
         doRequest c method path headers st = (Err ("authentication failed: " ++ e), st2)
         ∧ clientRequests (sent st2)
           = (clientRequests (sent st) ++ [prepare (auth st) headers req0])%list)
      ∧ (∀ u st2,
           HandleAuthChallenge (prepare (auth st) headers req0) resp
             (afterDo st ByClient (prepare (auth st) headers req0) w1) = (Ok u, st2) →
           doRequest c method path headers st
           = (wrapErr "retry request failed: "
                (httpDo (prepare (auth st2) headers req0) (world st2)).1,
              afterDo st2 ByClient (prepare (auth st2) headers req0)
                (httpDo (prepare (auth st2) headers req0) (world st2)).2)
           ∧ (∀ resp2,
                (httpDo (prepare (auth st2) headers req0) (world st2)).1 = Ok resp2 →
                (doRequest c method path headers st).1 = Ok resp2)
           ∧ clientRequests (sent (doRequest c method path headers st).2)
             = (clientRequests (sent st)
                ++ [prepare (auth st) headers req0; prepare (auth st2) headers req0])%list
           ∧ Method (prepare (auth st2) headers req0) = method
           ∧ URL (prepare (auth st2) headers req0) = baseURL c ++ "/v2" ++ path
           ∧ Method (prepare (auth st) headers req0) = method
           ∧ URL (prepare (auth st) headers req0) = baseURL c ++ "/v2" ++ path
           ∧ (∀ k, k ≠ "Authorization" →
                ReqHeader (prepare (auth st2) headers req0) !! k
                = ReqHeader (prepare (auth st) headers req0) !! k)
           ∧ (∀ k v, headers !! k = Some v → k ≠ "Authorization" →
                k ≠ "Docker-Distribution-API-Version" →
                ReqHeader (prepare (auth st2) headers req0) !! k = Some v)
           ∧ ReqHeader (prepare (auth st2) headers req0) !! "Authorization"
             = (if nonEmpty (AuthConfig.Token (auth st2))
                then Some ("Bearer " ++ AuthConfig.Token (auth st2))
                else if nonEmpty (AuthConfig.Username (auth st2))
                        && nonEmpty (AuthConfig.Password (auth st2))
                then Some ("Basic " ++ basicAuth (AuthConfig.Username (auth st2))
                                                 (AuthConfig.Password (auth st2)))
                else headers !! "Authorization")
           ∧ (HasPrefix (Get (RespHeader resp) "Www-Authenticate") "Bearer" = true →
              ∃ realm token st1,
                parseAuthHeader (Get (RespHeader resp) "Www-Authenticate") !! "realm"
                = Some realm
                ∧ fetchToken realm
                    (default "" (parseAuthHeader (Get (RespHeader resp) "Www-Authenticate")
                                   !! "service"))
                    (default "" (parseAuthHeader (Get (RespHeader resp) "Www-Authenticate")
                                   !! "scope"))
                    (afterDo st ByClient (prepare (auth st) headers req0) w1)
                  = (Ok token, st1)
                ∧ token ≠ ""
                ∧ auth st2
                  = {| AuthConfig.Username := AuthConfig.Username (auth st);
                       AuthConfig.Password := AuthConfig.Password (auth st);
                       AuthConfig.Token := token |}
                ∧ ReqHeader (prepare (auth st2) headers req0) !! "Authorization"
                  = Some ("Bearer " ++ token))
           ∧ (HasPrefix (Get (RespHeader resp) "Www-Authenticate") "Bearer" = false →
              auth st2 = auth st
              ∧ prepare (auth st2) headers req0 = prepare (auth st) headers req0)).
Proof.
  split; [apply doRequest_requests|].
  intros req0 resp w1 Hnew Hdo H401.
  pose proof (doRequest_unauthorized _ _ _ _ _ _ _ _ Hnew Hdo H401) as Heq.
  destruct (NewRequest_fields _ _ _ _ Hnew) as (Hm & Hu & Hh & _).
  split.
  - intros e st2 Hch. rewrite Hch in Heq. split; [done|].
    apply HandleAuthChallenge_events in Hch. by rewrite clientRequests_afterDo in Hch.
  - intros u st2 Hch. rewrite Hch in Heq.
    pose proof (HandleAuthChallenge_Ok _ _ _ _ _ Hch) as [Hbearer Hother].
    assert (Hauth : ReqHeader (prepare (auth st2) headers req0) !! "Authorization"
             = (if nonEmpty (AuthConfig.Token (auth st2))
                then Some ("Bearer " ++ AuthConfig.Token (auth st2))
                else if nonEmpty (AuthConfig.Username (auth st2))
                        && nonEmpty (AuthConfig.Password (auth st2))
                then Some ("Basic " ++ basicAuth (AuthConfig.Username (auth st2))
                                                 (AuthConfig.Password (auth st2)))
                else headers !! "Authorization")).
    { rewrite prepare_authorization, Hh. by rewrite (right_id_L ∅ (∪) headers). }
    destruct (prepare_fields (auth st2) headers req0) as (Hm2 & Hu2 & _).
    destruct (prepare_fields (auth st) headers req0) as (Hm1 & Hu1 & _).
    split_and!.
    + done.
    + intros resp2 Hresp2. by rewrite Heq, Hresp2.
    + rewrite Heq. cbn [snd]. rewrite clientRequests_afterDo.
      apply HandleAuthChallenge_events in Hch. rewrite clientRequests_afterDo in Hch.
      by rewrite Hch, <- app_assoc.
    + by rewrite Hm2.
    + by rewrite Hu2.
    + by rewrite Hm1.
    + by rewrite Hu1.
    + intros k Hk. by apply prepare_header_ne.
    + intros k v Hkv Hk Hk'.
      unfold prepare. cbn [setHeader ReqHeader]. rewrite lookup_insert_ne by done.
      unfold AddAuth.
      destruct (nonEmpty (AuthConfig.Token (auth st2)));
        [cbn [setHeader ReqHeader]; rewrite lookup_insert_ne by done|
         destruct (nonEmpty _ && nonEmpty _);
           [cbn [setHeader ReqHeader]; rewrite lookup_insert_ne by done|]];
        cbn [setHeaders ReqHeader]; by rewrite lookup_union_l', Hkv.
    + exact Hauth.
    + intros Hb. destruct (Hbearer Hb) as (realm & token & st1 & Hrealm & Hfetch & Hne & ->).
      exists realm, token, st1. split; [done|]. split; [done|]. split; [done|].
      apply fetchToken_Ok in Hfetch as [_ Ha].
      assert (Hst2 : auth (setToken token st1).2
                     = {| AuthConfig.Username := AuthConfig.Username (auth st);
                          AuthConfig.Password := AuthConfig.Password (auth st);
                          AuthConfig.Token := token |}).
      { cbn [setToken snd auth]. by rewrite Ha. }
      split; [exact Hst2|]. rewrite Hauth, Hst2. cbn [AuthConfig.Token].
      unfold nonEmpty. by rewrite (proj2 (String.eqb_neq _ _) Hne).
    + intros Hb. rewrite (Hother Hb). by split.
Qed.

(** C10: a 401 response without [Www-Authenticate] header makes challenge
    handling fail with [no Www-Authenticate header found]; [doRequest] then
    fails with [authentication failed] and has sent the request once. *)
Theorem missing_challenge_header c method path headers st req0 resp w1 :
  NewRequest method (baseURL c ++ "/v2" ++ path) "" = Ok req0 →
  httpDo (prepare (auth st) headers req0) (world st) = (Ok resp, w1) →
  StatusCode resp = StatusUnauthorized →
  RespHeader resp !! "Www-Authenticate" = None →
  (∀ req st', HandleAuthChallenge req resp st'
              = (Err "no Www-Authenticate header found", st'))
  ∧ doRequest c method path headers st
    = (Err "authentication failed: no Www-Authenticate header found",
       afterDo st ByClient (prepare (auth st) headers req0) w1)
  ∧ clientRequests (sent (doRequest c method path headers st).2)
    = (clientRequests (sent st) ++ [prepare (auth st) headers req0])%list.
Proof.
  intros Hnew Hdo H401 Hnone.
  assert (Hch : ∀ req st', HandleAuthChallenge req resp st'
                           = (Err "no Www-Authenticate header found", st')).
  { intros req st'. unfold HandleAuthChallenge, Get. by rewrite Hnone. }
  split; [exact Hch|].
  rewrite (doRequest_unauthorized _ _ _ _ _ _ _ _ Hnew Hdo H401), Hch.
  split; [done|]. cbn [snd]. apply clientRequests_afterDo.
Qed.

End DoRequest.

(** The theorem at the path of the example registry that wants a token:
    the first request goes out without credentials and is answered with a
    Bearer challenge, the token service hands out [t0k], and the second
    request carries it and is answered with 200. *)
Lemma doRequest_retries_once_bearer :
  (@doRequest demoEnv demoClient "GET" "/private/x" ∅ anonymous).1
  = Ok {| StatusCode := 200; RespHeader := ∅; Body := "secret" |}
  ∧ map (λ req, ReqHeader req !! "Authorization")
      (clientRequests (sent (@doRequest demoEnv demoClient "GET" "/private/x" ∅ anonymous).2))
    = [None; Some "Bearer t0k"].
Proof.
  pose proof (proj2 (@doRequest_retries_once demoEnv demoClient "GET" "/private/x" ∅ anonymous)
                (getRequest "https://registry.example/v2/private/x")
                {| StatusCode := 401;
                   RespHeader := {[ "Www-Authenticate" := bearerChallenge ]};
                   Body := "" |} tt eq_refl) as Hretry.
  destruct Hretry as [_ Hok]; [vm_compute; reflexivity|reflexivity|].
  specialize (Hok tt
    (@HandleAuthChallenge demoEnv
       (@prepare demoEnv (@auth demoEnv anonymous) ∅
          (getRequest "https://registry.example/v2/private/x"))
       {| StatusCode := 401;
          RespHeader := {[ "Www-Authenticate" := bearerChallenge ]};
          Body := "" |}
       (@afterDo demoEnv anonymous ByClient
          (@prepare demoEnv (@auth demoEnv anonymous) ∅
             (getRequest "https://registry.example/v2/private/x")) tt)).2).
  destruct Hok as (_ & Hresp & Hsent & _ & _ & _ & _ & _ & _ & _ & Hbearer & _).
  { rewrite (surjective_pairing (@HandleAuthChallenge demoEnv _ _ _)) at 1.
    f_equal. }
  destruct Hbearer as (realm & token & st1 & Hrealm & Hfetch & _ & _ & Hheader);
    [vm_compute; reflexivity|].
  vm_compute in Hrealm. injection Hrealm as <-.
  split.
  - apply Hresp. vm_compute. reflexivity.
  - rewrite Hsent.
    change (clientRequests (@sent demoEnv anonymous)) with (@nil Request).
    cbn [app map]. rewrite Hheader.
    apply (f_equal fst) in Hfetch. vm_compute in Hfetch. injection Hfetch as <-.
    reflexivity.
Defined.

(** The theorem at the path of the example registry that answers 401
    without a challenge. *)
Lemma missing_challenge_header_bare :
  (@doRequest demoEnv demoClient "GET" "/bare/x" ∅ anonymous).1
  = Err "authentication failed: no Www-Authenticate header found"
  ∧ List.length
      (clientRequests (sent (@doRequest demoEnv demoClient "GET" "/bare/x" ∅ anonymous).2))
    = 1%nat.
Proof.
  destruct (@missing_challenge_header demoEnv demoClient "GET" "/bare/x" ∅ anonymous
              (getRequest "https://registry.example/v2/bare/x") bareUnauthorized tt)
    as (_ & Hres & Hsent); [reflexivity|vm_compute; reflexivity|reflexivity|reflexivity|].
  split.
  - by rewrite Hres.
  - rewrite Hsent. reflexivity.
Defined.

(** ** The Bearer challenge *)

Section Bearer.
Context `{Env}.






End Bearer.


(** ** Uploads the registry refuses *)

Section Push.
Context `{Env}.

Lemma blobExistsError_spec e :
  blobExistsError e = true
  ↔ Contains e "BLOB_UPLOAD_INVALID" = true ∨ Contains e "already exists" = true
    ∨ Contains e "exist blob" = true.
Proof. unfold blobExistsError. rewrite !orb_true_iff. tauto. Qed.

(** The test looks at the whole message, so context put in front of a
    matching text does not hide it. *)
Lemma blobExistsError_wrapped ctx e :
  blobExistsError e = true → blobExistsError (ctx ++ e) = true.
Proof.
  rewrite !blobExistsError_spec. intros [He|[He|He]];
    [left|right; left|right; right]; by apply Contains_app_r.
Qed.

(** Whatever is at a path opens, unless the way there leads through a
    regular file. *)
Lemma openFile_entry fs srcPath file :
  fs !! srcPath = Some file → belowFile fs srcPath = false → openFile fs srcPath = Ok file.
Proof. intros Hfile Hway. unfold openFile. by rewrite Hway, Hfile. Qed.

(** [UploadBlob] when the registry answers the PUT with another status
    than 201. *)
Lemma UploadBlob_refused c fs name digest srcPath st content uploadURL st1 req0 resp w2 :
  fs !! srcPath = Some (File content) →
  belowFile fs srcPath = false →
  StartBlobUpload c name st = (Ok uploadURL, st1) →
  NewRequest "PUT" uploadURL content = Ok req0 →
  httpDo (blobPut (auth st1) uploadURL digest (String.length content) req0) (world st1)
  = (Ok resp, w2) →
  StatusCode resp ≠ StatusCreated →
  UploadBlob c fs name digest srcPath st
  = (Err ("failed to upload blob: " ++ "unexpected status code "
          ++ itoa (StatusCode resp) ++ ": " ++ Body resp),
     afterDo st1 ByClient
       (blobPut (auth st1) uploadURL digest (String.length content) req0) w2).
Proof.
  intros Hfile Hway Hstart Hnew Hdo Hstatus.
  unfold UploadBlob, mbind, M_bind, lift.
  rewrite (openFile_entry _ _ _ Hfile Hway). cbn [wrapErr fileSize].
  rewrite (wrap_Ok _ _ _ _ _ Hstart).
  unfold UploadBlobMonolithic, mbind, M_bind, lift, getAuth, wrap, fail.
  cbn [fileBytes]. rewrite Hnew. cbn [wrapErr]. cbv beta.
  change (setHeader "Docker-Distribution-API-Version" "registry/2.0" (AddAuth (auth st1) _))
    with (blobPut (auth st1) uploadURL digest (String.length content) req0).
  unfold DoFile. cbn [httpDoFile]. rewrite Hdo. cbn [fst snd wrapErr].
  by rewrite (proj2 (Nat.eqb_neq _ _) Hstatus).
Qed.

(** C7: when the file of a blob is there and the registry answers its
    PUT with a status other than 201, [UploadBlob] fails after that PUT
    with an error that ends in the body of the response. The push command looks for
    [BLOB_UPLOAD_INVALID], [already exists] and [exist blob] in the error
    text: if the body contains one of them the push goes on with the next
    blob, from the state the PUT has left, for the config as for a layer;
    if the text contains none, the push prints the error and exits. The
    same holds for every error of [UploadBlob], whatever its cause. *)
Theorem push_skips_existing_blob c l fs imageRef name st :
  (∀ digest srcPath content uploadURL st1 req0 resp w2,
     fs !! srcPath = Some (File content) →
     belowFile fs srcPath = false →
     StartBlobUpload c name st = (Ok uploadURL, st1) →
     NewRequest "PUT" uploadURL content = Ok req0 →
     httpDo (blobPut (auth st1) uploadURL digest (String.length content) req0) (world st1)
     = (Ok resp, w2) →
     StatusCode resp ≠ StatusCreated →
     let e := "failed to upload blob: " ++ "unexpected status code "
              ++ itoa (StatusCode resp) ++ ": " ++ Body resp in
     let st2 := afterDo st1 ByClient
                  (blobPut (auth st1) uploadURL digest (String.length content) req0) w2 in
     UploadBlob c fs name digest srcPath st = (Err e, st2)
     ∧ (Contains (Body resp) "BLOB_UPLOAD_INVALID" = true
        ∨ Contains (Body resp) "already exists" = true
        ∨ Contains (Body resp) "exist blob" = true →
        blobExistsError e = true
        ∧ (∀ manifest,
             digest = Layer.Digest (Manifest.Config manifest) →
             srcPath = GetConfigPath l imageRef →
             pushCmd_blobs c l fs imageRef name manifest st
             = pushCmd_layers c l fs imageRef name (Manifest.Layers manifest) st2)
        ∧ (∀ layer rest,
             digest = Layer.Digest layer →
             srcPath = GetLayerPath l imageRef (Layer.Digest layer) →
             (12 ≤ String.length (Layer.Digest layer))%nat →
             pushCmd_layers c l fs imageRef name (layer :: rest) st
             = pushCmd_layers c l fs imageRef name rest st2))
     ∧ (blobExistsError e = false →
        (∀ manifest,
           digest = Layer.Digest (Manifest.Config manifest) →
           srcPath = GetConfigPath l imageRef →
           pushCmd_blobs c l fs imageRef name manifest st
           = (Exited ("Error: Failed to upload config: " ++ e), st2))
        ∧ (∀ layer rest,
             digest = Layer.Digest layer →
             srcPath = GetLayerPath l imageRef (Layer.Digest layer) →
             (12 ≤ String.length (Layer.Digest layer))%nat →
             pushCmd_layers c l fs imageRef name (layer :: rest) st
             = (Exited ("Error: Failed to upload layer: " ++ e), st2))))
  ∧ (∀ manifest e st2,
       UploadBlob c fs name (Layer.Digest (Manifest.Config manifest))
         (GetConfigPath l imageRef) st = (Err e, st2) →
       (blobExistsError e = true →
        pushCmd_blobs c l fs imageRef name manifest st
        = pushCmd_layers c l fs imageRef name (Manifest.Layers manifest) st2)
       ∧ (blobExistsError e = false →
          pushCmd_blobs c l fs imageRef name manifest st
          = (Exited ("Error: Failed to upload config: " ++ e), st2)))
  ∧ (∀ layer rest e st2,
       (12 ≤ String.length (Layer.Digest layer))%nat →
       UploadBlob c fs name (Layer.Digest layer)
         (GetLayerPath l imageRef (Layer.Digest layer)) st = (Err e, st2) →
       (blobExistsError e = true →
        pushCmd_layers c l fs imageRef name (layer :: rest) st
        = pushCmd_layers c l fs imageRef name rest st2)
       ∧ (blobExistsError e = false →
          pushCmd_layers c l fs imageRef name (layer :: rest) st
          = (Exited ("Error: Failed to upload layer: " ++ e), st2)))
  ∧ (∀ e, blobExistsError e = true
          ↔ Contains e "BLOB_UPLOAD_INVALID" = true ∨ Contains e "already exists" = true
            ∨ Contains e "exist blob" = true).
Proof.
  assert (Hconfig : ∀ manifest e st2,
    UploadBlob c fs name (Layer.Digest (Manifest.Config manifest))
      (GetConfigPath l imageRef) st = (Err e, st2) →
    pushCmd_blobs c l fs imageRef name manifest st
    = if blobExistsError e
      then pushCmd_layers c l fs imageRef name (Manifest.Layers manifest) st2
      else (Exited ("Error: Failed to upload config: " ++ e), st2)).
  { intros manifest e st2 Hup. unfold pushCmd_blobs. by rewrite Hup. }
  assert (Hlayer : ∀ layer rest e st2,
    (12 ≤ String.length (Layer.Digest layer))%nat →
    UploadBlob c fs name (Layer.Digest layer)
      (GetLayerPath l imageRef (Layer.Digest layer)) st = (Err e, st2) →
    pushCmd_layers c l fs imageRef name (layer :: rest) st
    = if blobExistsError e
      then pushCmd_layers c l fs imageRef name rest st2
      else (Exited ("Error: Failed to upload layer: " ++ e), st2)).
  { intros layer rest e st2 Hlen Hup. cbn [pushCmd_layers].
    by rewrite (proj2 (Nat.ltb_ge _ _) Hlen), Hup. }
  split; [|split; [|split]].
  - intros digest srcPath content uploadURL st1 req0 resp w2 Hfile Hway Hstart Hnew Hdo Hst
      e st2.
    pose proof (UploadBlob_refused _ _ _ _ _ _ _ _ _ _ _ _ Hfile Hway Hstart Hnew Hdo Hst)
      as Hup.
    fold e st2 in Hup. split; [exact Hup|]. split.
    + intros Hbody.
      assert (He : blobExistsError e = true).
      { subst e. rewrite <- !append_assoc. apply blobExistsError_wrapped.
        by apply blobExistsError_spec. }
      split; [exact He|]. split.
      * intros manifest -> ->. by rewrite (Hconfig _ _ _ Hup), He.
      * intros layer rest -> -> Hlen. by rewrite (Hlayer _ rest _ _ Hlen Hup), He.
    + intros He. split.
      * intros manifest -> ->. by rewrite (Hconfig _ _ _ Hup), He.
      * intros layer rest -> -> Hlen. by rewrite (Hlayer _ rest _ _ Hlen Hup), He.
  - intros manifest e st2 Hup. rewrite (Hconfig _ _ _ Hup). split; by intros ->.
  - intros layer rest e st2 Hlen Hup. rewrite (Hlayer _ rest _ _ Hlen Hup).
    split; by intros ->.
  - apply blobExistsError_spec.
Qed.

End Push.

(** The theorem at the example registry, which refuses every PUT with
    [blob already exists]: [UploadBlob] fails with that body at the end of
    its error, and the push of the config goes on to the layer, which is
    skipped in the same way. *)
Lemma push_skips_existing_blob_demo :
  (@UploadBlob demoEnv demoClient pushStore "library/nginx" "sha256:c0ffee"
     (GetConfigPath demoLayout "nginx:latest") anonymous).1
  = Err "failed to upload blob: unexpected status code 400: blob already exists"
  ∧ (@pushCmd_blobs demoEnv demoClient demoLayout pushStore "nginx:latest" "library/nginx"
       amd64Image anonymous).1 = Finished tt.
Proof.
  destruct (proj1 (@push_skips_existing_blob demoEnv demoClient demoLayout pushStore
                     "nginx:latest" "library/nginx" anonymous)
              "sha256:c0ffee" (GetConfigPath demoLayout "nginx:latest") "config"
              "https://registry.example/v2/upload/1"
              (@StartBlobUpload demoEnv demoClient "library/nginx" anonymous).2
              {| Method := "PUT"; URL := "https://registry.example/v2/upload/1";
                 ReqHeader := ∅; ReqBody := "config" |}
              {| StatusCode := 400; RespHeader := ∅; Body := "blob already exists" |} tt)
    as (Hup & Hskip & _);
    [vm_compute; reflexivity|vm_compute; reflexivity
    |rewrite (surjective_pairing (@StartBlobUpload demoEnv _ _ _)) at 1; f_equal
    |reflexivity|vm_compute; reflexivity|discriminate|].
  split; [by rewrite Hup|].
  destruct Hskip as (_ & Hconfig & _); [right; left; vm_compute; reflexivity|].
  rewrite (Hconfig amd64Image eq_refl eq_refl). vm_compute. reflexivity.
Defined.

(** * Further properties of the store, the configuration and the client *)

(** ** Directory names: lengths and separators *)

Section DirectoryNames.

Lemma Contains_first_byte s c p :
  Contains s (String c p) = true → Contains s (String c "") = true.
Proof.
  induction s as [|x s IH]; [done|].
  rewrite Contains_cons, Contains_char_cons, HasPrefix_cons.
  destruct (Ascii.eqb c x); [done|]. simpl. exact IH.
Qed.

Lemma safeName_no_colon r : Contains (safeName r) ":" = false.
Proof.
  rewrite safeName_expand. induction r as [|c r IH]; [done|].
  simpl expand. rewrite Contains_char_app, IH, orb_false_r. unfold encByte.
  destruct (Ascii.eqb_spec ":" c) as [|Hc]; [done|].
  destruct (Ascii.eqb_spec "/" c); [done|].
  rewrite Contains_char_cons. by destruct (Ascii.eqb_spec ":" c).
Qed.

(** An encoded name without underscore is the name itself. *)
Lemma safeName_plain r : Contains (safeName r) "_" = false → safeName r = r.
Proof.
  rewrite safeName_expand. induction r as [|c r IH]; [done|].
  simpl expand. rewrite Contains_char_app. intros [Hc Hr]%orb_false_elim.
  rewrite (IH Hr). unfold encByte in *.
  destruct (Ascii.eqb ":" c); [done|]. by destruct (Ascii.eqb "/" c).
Qed.

Lemma encodeOldEncoding_no_sep r :
  Contains (encodeOldEncoding r) "/" = false ∧ Contains (encodeOldEncoding r) ":" = false.
Proof.
  rewrite encodeOldEncoding_expand. induction r as [|c r [IH1 IH2]]; [done|].
  simpl expand. rewrite !Contains_char_app, IH1, IH2, !orb_false_r. unfold oldByte.
  destruct (Ascii.eqb_spec ":" c) as [|Hc]; [done|].
  destruct (Ascii.eqb_spec "/" c) as [|Hc']; [done|].
  rewrite !Contains_char_cons.
  destruct (Ascii.eqb_spec "/" c); [done|]. by destruct (Ascii.eqb_spec ":" c).
Qed.

Lemma length_append (a b : string) :
  String.length (a ++ b) = (String.length a + String.length b)%nat.
Proof. induction a as [|x a IH]; [done|]. rewrite append_cons. simpl. by rewrite IH. Qed.

Lemma encodeOldEncoding_length r : String.length (encodeOldEncoding r) = String.length r.
Proof.
  rewrite encodeOldEncoding_expand. induction r as [|c r IH]; [done|].
  simpl expand. rewrite length_append, IH. unfold oldByte.
  destruct (Ascii.eqb ":" c); [done|]. by destruct (Ascii.eqb "/" c).
Qed.

Lemma safeName_length r :
  (String.length r ≤ String.length (safeName r))%nat
  ∧ (Contains r "/" || Contains r ":" = true →
     (String.length r < String.length (safeName r))%nat).
Proof.
  rewrite safeName_expand. induction r as [|c r [IH1 IH2]]; [done|].
  simpl expand. rewrite length_append, !Contains_char_cons.
  set (n := String.length (expand encByte r)) in *. unfold encByte.
  destruct (Ascii.eqb ":" c); [cbn [String.length orb]; split; intros; lia|].
  destruct (Ascii.eqb "/" c); [cbn [String.length orb]; split; intros; lia|].
  cbn [String.length orb]. split; [lia|]. intros Hr. apply IH2 in Hr. lia.
Qed.

End DirectoryNames.

(** ** Creating directories *)

Section StoreFacts.

Lemma between_nil base q : between base [] q ↔ q = base.
Proof.
  unfold between. rewrite app_nil_r. split.
  - intros [H1 H2]. by apply (anti_symm prefix).
  - by intros ->.
Qed.

Lemma between_cons base c rest q :
  between base (c :: rest) q ↔ q = base ∨ between (base ++ [c])%list rest q.
Proof.
  unfold between. rewrite <- (app_assoc base [c] rest). simpl. split.
  - intros [[k ->] [k' Hk']]. rewrite <- (app_assoc base k k') in Hk'.
    apply app_inv_head in Hk'. destruct k as [|x k].
    + left. by rewrite app_nil_r.
    + right. simpl in Hk'. injection Hk' as <- Hk'. split.
      * exists k. by rewrite <- (app_assoc base [c] k).
      * exists k'. subst rest. by rewrite <- !app_assoc.
  - intros [->|[[k ->] H2]].
    + split; [done|]. by apply prefix_app_r.
    + split; [|done]. rewrite <- (app_assoc base [c] k). by apply prefix_app_r.
Qed.

Lemma mkdirFrom_Ok fs base rest fs' :
  mkdirFrom fs base rest = Ok fs' →
  (∀ q, between base rest q → fs' !! q = Some Dir ∧ ∀ d, fs !! q ≠ Some (File d))
  ∧ (∀ q, ¬ between base rest q → fs' !! q = fs !! q).
Proof.
  revert fs base. induction rest as [|c rest IH]; intros fs base; simpl.
  - destruct (fs !! base) as [[|d]|] eqn:Hb; [|done|]; intros [= <-]; split.
    all: try (intros q ->%between_nil; rewrite lookup_insert_eq; split; [done|congruence]).
    all: intros q Hq; rewrite between_nil in Hq; by rewrite lookup_insert_ne.
  - destruct (fs !! base) as [[|d]|] eqn:Hb; [|done|]; intros [H1 H2]%IH; split.
    all: try (intros q [->|Hq]%between_cons;
      [ rewrite H2; [rewrite lookup_insert_eq; split; [done|congruence]|];
        intros [[k Hk] _]; apply (f_equal List.length) in Hk;
        rewrite !length_app in Hk; simpl in Hk; lia
      | destruct (H1 q Hq) as [Hd Hf]; split; [done|]; intros d' Hq';
        destruct (decide (q = base)) as [->|Hne]; [congruence|];
        apply (Hf d'); by rewrite lookup_insert_ne ]).
    all: intros q Hq; rewrite between_cons in Hq;
      rewrite H2 by tauto; rewrite lookup_insert_ne; [done|]; intros ->; tauto.
Qed.

Lemma mkdirFrom_Err fs base rest e :
  mkdirFrom fs base rest = Err e →
  e = "mkdir: not a directory" ∧ ∃ q d, between base rest q ∧ fs !! q = Some (File d).
Proof.
  revert fs base. induction rest as [|c rest IH]; intros fs base; simpl.
  - destruct (fs !! base) as [[|d]|] eqn:Hb; try done. intros [= <-]. split; [done|].
    exists base, d. by rewrite between_nil.
  - destruct (fs !! base) as [[|d]|] eqn:Hb.
    2:{ intros [= <-]. split; [done|]. exists base, d. rewrite between_cons. by split; [left|]. }
    all: intros [-> (q & d & Hq & Hd)]%IH; split; [done|]; exists q, d;
      rewrite between_cons; split; [by right|];
      destruct (decide (q = base)) as [->|Hne];
      [by rewrite lookup_insert_eq in Hd | by rewrite lookup_insert_ne in Hd].
Qed.

Lemma mkdirFrom_total fs base rest :
  (∀ q d, between base rest q → fs !! q ≠ Some (File d)) →
  ∃ fs', mkdirFrom fs base rest = Ok fs'.
Proof.
  intros Hno. destruct (mkdirFrom fs base rest) as [fs'|e] eqn:Hm; [by eexists|].
  apply mkdirFrom_Err in Hm as [_ (q & d & Hq & Hd)]. by destruct (Hno q d Hq).
Qed.

Lemma between_root p q : between [] p q ↔ q `prefix_of` p.
Proof. unfold between. simpl. split; [tauto|]. split; [apply prefix_nil|done]. Qed.

Lemma MkdirAll_Ok fs p fs' :
  MkdirAll fs p = Ok fs' →
  (∀ q, q `prefix_of` p → fs' !! q = Some Dir ∧ ∀ d, fs !! q ≠ Some (File d))
  ∧ (∀ q, ¬ q `prefix_of` p → fs' !! q = fs !! q).
Proof.
  intros [H1 H2]%mkdirFrom_Ok. split; intros q Hq.
  - apply H1. by apply between_root.
  - apply H2. by rewrite between_root.
Qed.

Lemma MkdirAll_total fs p :
  (∀ q d, q `prefix_of` p → fs !! q ≠ Some (File d)) → ∃ fs', MkdirAll fs p = Ok fs'.
Proof. intros Hno. apply mkdirFrom_total. intros q d Hq%between_root. by apply Hno. Qed.


End StoreFacts.

(** ** The paths of an image *)

Section Paths.

Lemma imagesDir_eq l : Join (rootDir l) "images" = (rootDir l ++ ["images"])%list.
Proof. reflexivity. Qed.

Lemma GetManifestPath_eq l r : GetManifestPath l r = (GetImageDir l r ++ ["manifest.json"])%list.
Proof. reflexivity. Qed.

Lemma GetConfigPath_eq l r : GetConfigPath l r = (GetImageDir l r ++ ["config.json"])%list.
Proof. reflexivity. Qed.

Lemma GetLayersDir_eq l r : GetLayersDir l r = (GetImageDir l r ++ ["layers"])%list.
Proof. reflexivity. Qed.

Lemma safeName_id r : Contains r "/" || Contains r ":" = false → safeName r = r.
Proof.
  intros [H1 H2]%orb_false_elim. rewrite safeName_expand. apply expand_id_on.
  intros c Hc. unfold encByte.
  destruct (Ascii.eqb_spec ":" c) as [<-|_]; [congruence|].
  destruct (Ascii.eqb_spec "/" c) as [<-|_]; [congruence|done].
Qed.

Lemma Contains_nil_l p : p ≠ "" → Contains "" p = false.
Proof. by destruct p. Qed.

Lemma safeName_not_special r :
  r ≠ "" → r ≠ "." → r ≠ ".." →
  safeName r ≠ "" ∧ safeName r ≠ "." ∧ safeName r ≠ "..".
Proof.
  intros H1 H2 H3. destruct (Contains r "/" || Contains r ":") eqn:Hsep.
  - apply safeName_has_token in Hsep.
    repeat split; intros Heq; rewrite Heq in Hsep; discriminate Hsep.
  - by rewrite (safeName_id r Hsep).
Qed.

Lemma GetImageDir_child l r :
  r ≠ "" → r ≠ "." → r ≠ ".." →
  GetImageDir l r = (rootDir l ++ ["images"; safeName r])%list.
Proof.
  intros H1 H2 H3. destruct (safeName_not_special r H1 H2 H3) as (N1 & N2 & N3).
  change (GetImageDir l r) with (Join (Join (rootDir l) "images") (safeName r)).
  rewrite Join_component; [|apply safeName_no_slash|done..].
  rewrite imagesDir_eq. by rewrite <- app_assoc.
Qed.

End Paths.

(** ** One directory for each image *)

Section ImageDirectories.

(** X1: the directory of an image is a direct child of the images
    directory, named by the encoded reference, which holds neither a
    slash nor a colon; the three references that [filepath.Join] resolves
    are the exception: the empty one and [.] give the images directory
    itself, [..] gives the root of the store. *)
Theorem GetImageDir_location (l : Layout) :
  (∀ r, r ≠ "" → r ≠ "." → r ≠ ".." →
     GetImageDir l r = (rootDir l ++ ["images"; safeName r])%list
     ∧ Contains (safeName r) "/" = false
     ∧ Contains (safeName r) ":" = false)
  ∧ GetImageDir l "" = (rootDir l ++ ["images"])%list
  ∧ GetImageDir l "." = (rootDir l ++ ["images"])%list
  ∧ GetImageDir l ".." = rootDir l.
Proof.
  split; [|split; [done|split; [done|]]].
  - intros r H1 H2 H3. split; [by apply GetImageDir_child|].
    split; [apply safeName_no_slash|apply safeName_no_colon].
  - change (GetImageDir l "..") with (removelast (rootDir l ++ ["images"])%list).
    apply removelast_last.
Qed.

Lemma safeName_decode r :
  Contains r "_SLASH" = false → Contains r ":SLASH" = false → Contains r "_COLON" = false →
  ReplaceAll (ReplaceAll (safeName r) "_SLASH_" "/") "_COLON_" ":" = r.
Proof.
  intros H1 H2 H3. rewrite safeName_expand, decode_slash by done. by apply decode_colon.
Qed.

(** X2: two different references that hold none of [_SLASH], [:SLASH]
    and [_COLON], and that [filepath.Join] does not resolve, are stored in
    different directories. *)
Theorem GetImageDir_injective (l : Layout) (r1 r2 : string) :
  r1 ≠ "" → r1 ≠ "." → r1 ≠ ".." →
  r2 ≠ "" → r2 ≠ "." → r2 ≠ ".." →
  Contains r1 "_SLASH" = false → Contains r1 ":SLASH" = false → Contains r1 "_COLON" = false →
  Contains r2 "_SLASH" = false → Contains r2 ":SLASH" = false → Contains r2 "_COLON" = false →
  r1 ≠ r2 →
  GetImageDir l r1 ≠ GetImageDir l r2.
Proof.
  intros A1 A2 A3 B1 B2 B3 C1 C2 C3 D1 D2 D3 Hne.
  rewrite !GetImageDir_child by done. intros Heq%app_inv_head.
  injection Heq as Heq. apply Hne.
  rewrite <- (safeName_decode r1), <- (safeName_decode r2) by done. by rewrite Heq.
Qed.

Lemma GetImageDir_injective_tags :
  GetImageDir demoLayout "docker.io/library/nginx:1.25"
  ≠ GetImageDir demoLayout "docker.io/library/nginx:1.26".
Proof. by apply GetImageDir_injective. Defined.

Lemma HasPrefix_split s p : HasPrefix s p = true → s = p ++ sliceFrom (String.length p) s.
Proof.
  revert s. induction p as [|a p IH]; intros s; [done|].
  destruct s as [|b s]; [done|]. rewrite HasPrefix_cons.
  intros [Hab Hp]%andb_prop. apply Ascii.eqb_eq in Hab as ->.
  rewrite append_cons. simpl. by rewrite <- (IH s Hp).
Qed.

(** Replacing a pattern by something shorter shortens the string whenever
    the pattern occurs. *)
Lemma ReplaceAll_shorter old new s :
  (String.length new < String.length old)%nat →
  (String.length (ReplaceAll s old new) ≤ String.length s)%nat
  ∧ (Contains s old = true → (String.length (ReplaceAll s old new) < String.length s)%nat).
Proof.
  intros Hlen. assert (Hold : old ≠ "") by (intros ->; simpl in Hlen; lia).
  remember (String.length s) as n eqn:Hn. revert s Hn.
  induction (lt_wf n) as [n _ IH]. intros s ->.
  destruct s as [|x s].
  { rewrite ReplaceAll_nil by done. split; [done|]. by rewrite Contains_nil_l. }
  destruct (HasPrefix (String x s) old) eqn:Hp.
  - pose proof (HasPrefix_split _ _ Hp) as Hs.
    remember (sliceFrom (String.length old) (String x s)) as s' eqn:Hs'. clear Hs'.
    rewrite Hs. rewrite ReplaceAll_match by done. rewrite !length_append.
    assert (String.length s' < String.length (String x s))%nat as Hlt.
    { rewrite Hs, length_append. destruct old; [done|simpl; lia]. }
    destruct (IH (String.length s') Hlt s' eq_refl) as [IH1 _].
    split; [lia|]. intros _. lia.
  - rewrite ReplaceAll_no_match by done. rewrite Contains_cons, Hp. simpl.
    destruct (IH (String.length s) (ltac:(simpl; lia)) s eq_refl) as [IH1 IH2].
    split; [lia|]. intros Hc. apply IH2 in Hc. lia.
Qed.

Lemma LastIndex_None_Contains c s :
  LastIndex s (String c "") = None → Contains s (String c "") = false.
Proof.
  induction s as [|x s IH]; [done|]. cbn [LastIndex].
  destruct (LastIndex s (String c "")); [done|]. specialize (IH eq_refl).
  rewrite Contains_char_cons, IH, HasPrefix_cons, HasPrefix_nil, andb_true_r.
  by destruct (Ascii.eqb c x).
Qed.

Lemma Contains_token_underscore s t :
  Contains s "_" = false → Contains s (String "_" t) = false.
Proof.
  intros Hs. destruct (Contains s (String "_" t)) eqn:Ht; [|done].
  apply Contains_first_byte in Ht. congruence.
Qed.

(** X3: a reference without slash and colon is its own directory name,
    and [ListImages] gives it back exactly when it holds no underscore:
    with an underscore the name is read as one of the two encodings. *)
Theorem plain_name_listing (r : string) :
  Contains r "/" = false → Contains r ":" = false →
  safeName r = r
  ∧ (ListImages [(safeName r, true)] = [r] ↔ Contains r "_" = false).
Proof.
  intros Hs Hc. assert (Hid : safeName r = r) by (apply safeName_id; by rewrite Hs, Hc).
  split; [done|]. rewrite Hid, ListImages_single. unfold decodeDirName. split.
  - intros [= Hd]. destruct (Contains r "_") eqn:Hu; [exfalso|done].
    destruct (Contains r "_SLASH_" || Contains r "_COLON_") eqn:Htok.
    + destruct (ReplaceAll_shorter "_SLASH_" "/" r ltac:(simpl; lia)) as [L1 L2].
      destruct (ReplaceAll_shorter "_COLON_" ":" (ReplaceAll r "_SLASH_" "/")
                  ltac:(simpl; lia)) as [L3 L4].
      apply (f_equal String.length) in Hd.
      change (String.length (ReplaceAll (ReplaceAll r "_SLASH_" "/") "_COLON_" ":")
              = String.length r) in Hd.
      apply orb_prop in Htok as [Ht|Ht].
      * apply L2 in Ht. lia.
      * destruct (Contains r "_SLASH_") eqn:Hsl; [specialize (L2 eq_refl); lia|].
        assert (ReplaceAll r "_SLASH_" "/" = r) as Hr.
        { clear -Hsl. induction r as [|x r IH]; [done|].
          apply Contains_cons_false in Hsl as [Hp Hsl].
          rewrite ReplaceAll_no_match by done. by rewrite (IH Hsl). }
        rewrite Hr in *. apply L4 in Ht. lia.
    + unfold decodeOldEncoding in Hd. destruct (LastIndex r "_") as [i|] eqn:Hi.
      * apply (f_equal (λ s, Contains s ":")) in Hd. rewrite Hc in Hd.
        rewrite Contains_char_app, Contains_char_app in Hd. simpl in Hd.
        by rewrite orb_true_r in Hd.
      * apply LastIndex_None_Contains in Hi. congruence.
  - intros Hu. rewrite !Contains_token_underscore by done. simpl.
    unfold decodeOldEncoding. by rewrite LastIndex_char_None.
Qed.

Lemma plain_name_listing_busybox :
  safeName "busybox" = "busybox"
  ∧ (ListImages [(safeName "busybox", true)] = ["busybox"] ↔ Contains "busybox" "_" = false).
Proof. by apply plain_name_listing. Defined.

End ImageDirectories.

(** ** Files in the directory of an image *)

Section StoreFiles.

Lemma prefix_snoc_ne (d : Path) (a b : string) : a ≠ b → ¬ (d ++ [a])%list `prefix_of` (d ++ [b])%list.
Proof.
  intros Hab [k Hk]. rewrite <- app_assoc in Hk. apply app_inv_head in Hk.
  simpl in Hk. congruence.
Qed.

Lemma prefix_snoc_self (d : Path) (a : string) : d `prefix_of` (d ++ [a])%list.
Proof. by apply prefix_app_r. Qed.

Lemma removelast_snoc (d : Path) (a : string) : removelast (d ++ [a])%list = d.
Proof. apply removelast_last. Qed.

Lemma saveInto_Ok l r name data fs fs' :
  name ≠ "layers" →
  saveInto l r name data fs = Ok fs' →
  fs' !! (GetImageDir l r ++ [name])%list = Some (File data)
  ∧ (∀ q, q `prefix_of` GetLayersDir l r → fs' !! q = Some Dir)
  ∧ (∀ q, ¬ q `prefix_of` GetLayersDir l r → q ≠ (GetImageDir l r ++ [name])%list →
          fs' !! q = fs !! q)
  ∧ (∀ q d, q `prefix_of` GetLayersDir l r → fs !! q ≠ Some (File d))
  ∧ fs !! (GetImageDir l r ++ [name])%list ≠ Some Dir.
Proof.
  intros Hname. unfold saveInto.
  destruct (MkdirAll fs (GetLayersDir l r)) as [fs1|e] eqn:Hm; [|done].
  apply MkdirAll_Ok in Hm as [H1 H2]. unfold WriteFile.
  rewrite removelast_snoc.
  assert (Hnp : ¬ (GetImageDir l r ++ [name])%list `prefix_of` GetLayersDir l r).
  { rewrite GetLayersDir_eq. by apply prefix_snoc_ne. }
  destruct (H1 (GetImageDir l r)) as [-> _].
  { rewrite GetLayersDir_eq. apply prefix_snoc_self. }
  rewrite (H2 _ Hnp).
  destruct (fs !! (GetImageDir l r ++ [name])%list) as [[|d]|] eqn:Hf; [done|..];
    intros [= <-]; (split; [by rewrite lookup_insert_eq|]);
    (split; [intros q Hq; rewrite lookup_insert_ne; [by apply H1|by intros <-]|]);
    (split; [intros q Hq Hne; rewrite lookup_insert_ne by done; by apply H2|]);
    (split; [intros q d' Hq; by apply H1|done]).
Qed.

Lemma saveInto_total l r name data fs :
  name ≠ "layers" →
  (∀ q d, q `prefix_of` GetLayersDir l r → fs !! q ≠ Some (File d)) →
  fs !! (GetImageDir l r ++ [name])%list ≠ Some Dir →
  ∃ fs', saveInto l r name data fs = Ok fs'.
Proof.
  intros Hname Hno Hd. unfold saveInto.
  destruct (MkdirAll_total fs (GetLayersDir l r) Hno) as [fs1 Hm]. rewrite Hm.
  apply MkdirAll_Ok in Hm as [H1 H2]. unfold WriteFile. rewrite removelast_snoc.
  destruct (H1 (GetImageDir l r)) as [-> _].
  { rewrite GetLayersDir_eq. apply prefix_snoc_self. }
  rewrite H2. 2:{ rewrite GetLayersDir_eq. by apply prefix_snoc_ne. }
  destruct (fs !! (GetImageDir l r ++ [name])%list) as [[|d]|]; [done|by eexists..].
Qed.

Lemma SaveManifestRaw_saveInto l r data fs fs' :
  SaveManifestRaw l r data fs = Ok fs' ↔ saveInto l r "manifest.json" data fs = Ok fs'.
Proof.
  unfold SaveManifestRaw, saveInto, CreateImageDir. rewrite GetManifestPath_eq.
  destruct (MkdirAll fs (GetLayersDir l r)); simpl; [|done].
  by destruct (WriteFile _ _ _).
Qed.

Lemma SaveConfig_saveInto l r data fs fs' :
  SaveConfig l r data fs = Ok fs' ↔ saveInto l r "config.json" data fs = Ok fs'.
Proof.
  unfold SaveConfig, saveInto, CreateImageDir. rewrite GetConfigPath_eq.
  destruct (MkdirAll fs (GetLayersDir l r)); simpl; [|done].
  by destruct (WriteFile _ _ _).
Qed.

Lemma ImageExists_current l fs r : Stat fs (GetImageDir l r) = true → ImageExists l fs r = true.
Proof.
  intros Hs. unfold ImageExists. rewrite findImageDir_cases.
  change (currentPath l r) with (GetImageDir l r). by rewrite Hs.
Qed.

End StoreFiles.

(** ** Saving manifest and config *)

Section SavingFiles.

Lemma SaveManifestRaw_total l r data fs :
  (∀ q d, q `prefix_of` GetLayersDir l r → fs !! q ≠ Some (File d)) →
  fs !! GetManifestPath l r ≠ Some Dir →
  ∃ fs', SaveManifestRaw l r data fs = Ok fs'.
Proof.
  intros H1 H2. destruct (saveInto_total l r "manifest.json" data fs) as [fs' Hs]; [done..|].
  exists fs'. by apply SaveManifestRaw_saveInto.
Qed.

Lemma SaveConfig_total l r data fs :
  (∀ q d, q `prefix_of` GetLayersDir l r → fs !! q ≠ Some (File d)) →
  fs !! GetConfigPath l r ≠ Some Dir →
  ∃ fs', SaveConfig l r data fs = Ok fs'.
Proof.
  intros H1 H2. destruct (saveInto_total l r "config.json" data fs) as [fs' Hs]; [done..|].
  exists fs'. by apply SaveConfig_saveInto.
Qed.

(** X4: a manifest that has been saved makes the image exist; the layers
    directory and everything above it are directories afterwards, and no
    other path than these and the manifest file has changed. *)
Theorem SaveManifestRaw_effect (l : Layout) (r data : string) (fs fs' : FS) :
  SaveManifestRaw l r data fs = Ok fs' →
  ImageExists l fs' r = true
  ∧ (∀ q, q `prefix_of` GetLayersDir l r → fs' !! q = Some Dir)
  ∧ (∀ q, ¬ q `prefix_of` GetLayersDir l r → q ≠ GetManifestPath l r →
          fs' !! q = fs !! q).
Proof.
  intros Hs%SaveManifestRaw_saveInto. apply saveInto_Ok in Hs as (_ & H2 & H3 & _); [|done].
  split; [|done]. apply ImageExists_current. unfold Stat.
  rewrite H2; [done|]. rewrite GetLayersDir_eq. apply prefix_snoc_self.
Qed.

Lemma SaveManifestRaw_effect_empty :
  ∃ fs', SaveManifestRaw demoLayout "nginx:latest" "{}" ∅ = Ok fs'
    ∧ ImageExists demoLayout fs' "nginx:latest" = true
    ∧ (∀ q, q `prefix_of` GetLayersDir demoLayout "nginx:latest" → fs' !! q = Some Dir)
    ∧ (∀ q, ¬ q `prefix_of` GetLayersDir demoLayout "nginx:latest" →
            q ≠ GetManifestPath demoLayout "nginx:latest" → fs' !! q = (∅ : FS) !! q).
Proof.
  destruct (SaveManifestRaw_total demoLayout "nginx:latest" "{}" ∅) as [fs' Hs].
  - intros q d _. by rewrite lookup_empty.
  - by rewrite lookup_empty.
  - exists fs'. split; [exact Hs|]. exact (SaveManifestRaw_effect _ _ _ _ _ Hs).
Defined.


(** X6: a config that has been saved is what [LoadConfig] returns, and
    the manifest of the image reads as before. *)
Theorem SaveConfig_load (l : Layout) (r data : string) (fs fs' : FS) :
  SaveConfig l r data fs = Ok fs' →
  LoadConfig l r fs' = Ok data
  ∧ LoadManifestRaw l r fs' = LoadManifestRaw l r fs
  ∧ ImageExists l fs' r = true.
Proof.
  intros Hs%SaveConfig_saveInto. apply saveInto_Ok in Hs as (H1 & H2 & H3 & _); [|done].
  split; [|split].
  - unfold LoadConfig, ReadFile. rewrite GetConfigPath_eq. by rewrite H1.
  - unfold LoadManifestRaw, ReadFile. rewrite GetManifestPath_eq, H3; [done|..].
    + rewrite GetLayersDir_eq. by apply prefix_snoc_ne.
    + intros Heq%app_inv_head. discriminate Heq.
  - apply ImageExists_current. unfold Stat.
    rewrite H2; [done|]. rewrite GetLayersDir_eq. apply prefix_snoc_self.
Qed.

Lemma SaveConfig_load_nginx :
  ∃ fs', SaveConfig demoLayout "nginx:latest" "{}" twoGenerations = Ok fs'
    ∧ LoadConfig demoLayout "nginx:latest" fs' = Ok "{}"
    ∧ LoadManifestRaw demoLayout "nginx:latest" fs'
      = LoadManifestRaw demoLayout "nginx:latest" twoGenerations
    ∧ ImageExists demoLayout fs' "nginx:latest" = true.
Proof.
  destruct (SaveConfig_total demoLayout "nginx:latest" "{}" twoGenerations) as [fs' Hs].
  - intros q d Hq Hf. revert Hq.
    unfold twoGenerations in Hf.
    repeat (apply lookup_insert_Some in Hf as [[<- Hf]|[_ Hf]]; [try done|]).
    all: try (apply lookup_singleton_Some in Hf as [<- Hf]; try done).
    all: apply (bool_decide_eq_false_1 _); vm_compute; reflexivity.
  - by vm_compute.
  - exists fs'. split; [exact Hs|]. exact (SaveConfig_load _ _ _ _ _ Hs).
Defined.

End SavingFiles.

(** ** Images beside each other, and removal *)

Section OtherImages.


Lemma prefix_length_le (p q : Path) : p `prefix_of` q → (List.length p ≤ List.length q)%nat.
Proof. intros [k ->]. rewrite length_app. lia. Qed.






End OtherImages.

(** ** Layer files *)

Section Layers.

Lemma WriteFile_Ok fs p data fs' :
  WriteFile fs p data = Ok fs' →
  fs' = <[p := File data]> fs ∧ fs !! removelast p = Some Dir ∧ fs !! p ≠ Some Dir.
Proof.
  unfold WriteFile. destruct (fs !! removelast p) as [[|?]|]; [|done..].
  destruct (fs !! p) as [[|?]|]; [done|..]; by intros [= <-].
Qed.

Lemma copyFile_Ok fs src dst fs' :
  copyFile fs src dst = Ok fs' →
  ∃ data,
    fs !! src = Some (File data)
    ∧ fs' = <[dst := File (if decide (src = dst) then "" else data)]> fs.
Proof.
  unfold copyFile. destruct (fs !! src) as [n|] eqn:Hsrc; [|done].
  destruct (WriteFile fs dst "") as [fs1|e] eqn:Hw; [|done].
  apply WriteFile_Ok in Hw as (-> & Hpar & Hnd).
  destruct (decide (src = dst)) as [->|Hne].
  - rewrite lookup_insert_eq. intros (-> & _ & _)%WriteFile_Ok.
    rewrite insert_insert_eq. destruct n as [|data]; [done|]. by exists data.
  - rewrite lookup_insert_ne by done. rewrite Hsrc. destruct n as [|data]; [done|].
    intros (-> & _ & _)%WriteFile_Ok. rewrite insert_insert_eq. by exists data.
Qed.

Lemma SaveLayer_Ok l r digest src fs fs' :
  SaveLayer l r digest src fs = Ok fs' →
  ∃ data,
    fs !! src = Some (File data)
    ∧ ¬ src `prefix_of` GetLayersDir l r
    ∧ fs' !! GetLayerPath l r digest
      = Some (File (if decide (src = GetLayerPath l r digest) then "" else data))
    ∧ (∀ q, ¬ q `prefix_of` GetLayersDir l r → q ≠ GetLayerPath l r digest →
            fs' !! q = fs !! q).
Proof.
  unfold SaveLayer. destruct (MkdirAll fs (GetLayersDir l r)) as [fs1|e] eqn:Hm; [|done].
  apply MkdirAll_Ok in Hm as [H1 H2].
  destruct (copyFile fs1 src (GetLayerPath l r digest)) as [fs2|e] eqn:Hc; [|done].
  simpl. intros [= <-]. apply copyFile_Ok in Hc as (data & Hsrc & ->).
  assert (¬ src `prefix_of` GetLayersDir l r) as Hnp.
  { intros Hp. destruct (H1 src Hp) as [Hd _]. congruence. }
  exists data. rewrite <- (H2 src Hnp). split; [done|]. split; [done|]. split.
  - by rewrite lookup_insert_eq.
  - intros q Hq Hne. rewrite lookup_insert_ne by done. by apply H2.
Qed.

(** X9: a layer that has been saved is a regular file at the path
    [GetLayerPath] names, the path [pushCmd] uploads from; it holds what the
    source held, unless the source is that very path, which the copy
    empties. Nothing else changes but the directories created on the
    way. *)
Theorem SaveLayer_stored (l : Layout) (r digest : string) (src : Path) (fs fs' : FS) :
  SaveLayer l r digest src fs = Ok fs' →
  ∃ data,
    fs !! src = Some (File data)
    ∧ fs' !! GetLayerPath l r digest
      = Some (File (if decide (src = GetLayerPath l r digest) then "" else data))
    ∧ (∀ q, ¬ q `prefix_of` GetLayersDir l r → q ≠ GetLayerPath l r digest →
            fs' !! q = fs !! q).
Proof.
  intros (data & H1 & _ & H2 & H3)%SaveLayer_Ok. by exists data.
Qed.

Lemma WriteFile_total fs p data :
  fs !! removelast p = Some Dir → fs !! p ≠ Some Dir →
  WriteFile fs p data = Ok (<[p := File data]> fs).
Proof.
  intros Hpar Hnd. unfold WriteFile. rewrite Hpar.
  by destruct (fs !! p) as [[|?]|].
Qed.

Lemma copyFile_total fs src dst data :
  fs !! src = Some (File data) →
  fs !! removelast dst = Some Dir → fs !! dst ≠ Some Dir →
  ∃ fs', copyFile fs src dst = Ok fs'.
Proof.
  intros Hsrc Hpar Hnd. unfold copyFile. rewrite Hsrc.
  rewrite (WriteFile_total fs dst "") by done.
  assert (removelast dst ≠ dst) as Hne.
  { intros Heq. rewrite Heq in Hpar. congruence. }
  assert (∀ d, WriteFile (<[dst:=File ""]> fs) dst d
               = Ok (<[dst:=File d]> (<[dst:=File ""]> fs))) as Hw.
  { intros d. apply WriteFile_total.
    - by rewrite lookup_insert_ne.
    - by rewrite lookup_insert_eq. }
  destruct (decide (src = dst)) as [->|Hsd].
  - rewrite lookup_insert_eq, Hw. by eexists.
  - rewrite lookup_insert_ne, Hsrc, Hw by done. by eexists.
Qed.

Lemma SaveLayer_total l r digest src data fs :
  (∀ q d, q `prefix_of` GetLayersDir l r → fs !! q ≠ Some (File d)) →
  fs !! src = Some (File data) →
  removelast (GetLayerPath l r digest) = GetLayersDir l r →
  fs !! GetLayerPath l r digest ≠ Some Dir →
  ∃ fs', SaveLayer l r digest src fs = Ok fs'.
Proof.
  intros Hno Hsrc Hpar Hnd. unfold SaveLayer.
  destruct (MkdirAll_total fs (GetLayersDir l r) Hno) as [fs1 Hm]. rewrite Hm.
  apply MkdirAll_Ok in Hm as [H1 H2].
  assert (¬ src `prefix_of` GetLayersDir l r) as Hnp.
  { intros Hp. by destruct (Hno src data Hp). }
  assert (¬ GetLayerPath l r digest `prefix_of` GetLayersDir l r) as Hnp'.
  { intros Hp. pose proof (prefix_length_le _ _ Hp) as Hlen. rewrite <- Hpar in Hlen.
    destruct (GetLayerPath l r digest) as [|x p _] using rev_ind.
    - simpl in Hpar. rewrite GetLayersDir_eq in Hpar. by destruct (GetImageDir l r).
    - rewrite removelast_last, length_app in Hlen. simpl in Hlen. lia. }
  destruct (copyFile_total fs1 src (GetLayerPath l r digest) data) as [fs2 ->].
  - by rewrite H2.
  - rewrite Hpar. by apply H1.
  - by rewrite H2.
  - by eexists.
Qed.

Lemma SaveLayer_stored_blob :
  ∃ fs' data,
    SaveLayer demoLayout "nginx:latest" "sha256:0123456789ab" ["tmp"; "layer.tmp"]
      {[ ["tmp"; "layer.tmp"] := File "blob" ]} = Ok fs'
    ∧ ({[ ["tmp"; "layer.tmp"] := File "blob" ]} : FS) !! ["tmp"; "layer.tmp"] = Some (File data)
    ∧ fs' !! GetLayerPath demoLayout "nginx:latest" "sha256:0123456789ab"
      = Some (File (if decide (["tmp"; "layer.tmp"]
                               = GetLayerPath demoLayout "nginx:latest" "sha256:0123456789ab")
                    then "" else data)).
Proof.
  destruct (SaveLayer_total demoLayout "nginx:latest" "sha256:0123456789ab"
              ["tmp"; "layer.tmp"] "blob" {[ ["tmp"; "layer.tmp"] := File "blob" ]})
    as [fs' Hs].
  - intros q d Hq [<- _]%lookup_singleton_Some. revert Hq.
    apply (bool_decide_eq_false_1 _). vm_compute. reflexivity.
  - apply lookup_singleton_eq.
  - reflexivity.
  - by rewrite lookup_singleton_ne.
  - exists fs'. destruct (SaveLayer_stored _ _ _ _ _ _ Hs) as (data & H1 & H2 & _).
    exists data. by split.
Defined.

End Layers.

(** ** The layers directory of [tagCmd] *)

Section TagLayers.

(** X10: [tagCmd] looks for the layer files of an image in the directory
    the store keeps them in exactly when the reference holds neither a
    slash nor a colon: it still builds the path with the legacy
    encoding. *)
Theorem tagCmd_layersDir_current (l : Layout) (r : string) :
  tagCmd_layersDir (rootDir l) r = GetLayersDir l r
  ↔ Contains r "/" || Contains r ":" = false.
Proof.
  change (tagCmd_layersDir (rootDir l) r)
    with (Join (Join (Join (rootDir l) "images") (encodeOldEncoding r)) "layers").
  split.
  - intros Heq. destruct (Contains r "/" || Contains r ":") eqn:Hsep; [exfalso|done].
    rewrite GetLayersDir_eq, (GetImageDir_safeName l r Hsep) in Heq.
    assert (Contains (encodeOldEncoding r) "_" = true) as Hu.
    { clear -Hsep. rewrite encodeOldEncoding_expand.
      induction r as [|c r IH]; [done|]. simpl expand. rewrite Contains_char_app.
      rewrite !Contains_char_cons in Hsep. unfold oldByte at 1.
      destruct (Ascii.eqb ":" c); [done|]. destruct (Ascii.eqb "/" c); [done|].
      simpl in Hsep. rewrite (IH Hsep). apply orb_true_r. }
    rewrite (Join_component _ (encodeOldEncoding r)) in Heq.
    2:{ apply encodeOldEncoding_no_sep. }
    2-4: intros E; by rewrite E in Hu.
    change (Join ?d "layers") with (d ++ ["layers"])%list in Heq.
    apply app_inj_tail in Heq as [Heq _]. apply app_inv_head in Heq.
    injection Heq as Heq. apply (f_equal String.length) in Heq.
    rewrite encodeOldEncoding_length in Heq.
    destruct (safeName_length r) as [_ Hlt]. specialize (Hlt Hsep). lia.
  - intros Hsep. rewrite GetLayersDir_eq.
    change (GetImageDir l r) with (Join (Join (rootDir l) "images") (safeName r)).
    rewrite (safeName_id r Hsep).
    apply orb_false_elim in Hsep as [H1 H2].
    rewrite encodeOldEncoding_expand, legacy_plain_unchanged by done. reflexivity.
Qed.

End TagLayers.

(** ** Listing the images *)

Section Listing.

Lemma childName_Some dir k name : childName dir k = Some name ↔ k = (dir ++ [name])%list.
Proof.
  revert k. induction dir as [|d dir IH]; intros k; simpl.
  - destruct k as [|x [|y k]]; simpl; split; try done; congruence.
  - destruct k as [|x k]; [split; [done|by destruct dir]|].
    destruct (String.eqb_spec d x) as [->|Hne].
    + rewrite IH. split; [by intros ->|]. by intros [= ->].
    + split; [done|]. intros [= -> _]. done.
Qed.

Lemma ReadDir_Ok fs dir entries :
  ReadDir fs dir = Ok entries →
  fs !! dir = Some Dir
  ∧ ∀ name b, (name, b) ∈ entries ↔ ∃ n, fs !! (dir ++ [name])%list = Some n ∧ isDir n = b.
Proof.
  unfold ReadDir. destruct (fs !! dir) as [[|?]|]; [|done..]. intros [= <-].
  split; [done|]. intros name b. rewrite merge_sort_Permutation, list_elem_of_omap. split.
  - intros ([k n] & Hin%elem_of_map_to_list & Hf). simpl in Hf.
    destruct (childName dir k) as [name'|] eqn:Hc; [|done]. injection Hf as -> <-.
    apply childName_Some in Hc as ->. by exists n.
  - intros (n & Hl & <-). exists ((dir ++ [name])%list, n). split.
    + by apply elem_of_map_to_list.
    + simpl. by rewrite (proj2 (childName_Some dir _ name) eq_refl).
Qed.


(** X12: an image whose manifest has been saved is listed under its own
    reference, when the reference holds a slash or a colon and none of
    [_SLASH], [:SLASH] and [_COLON]. *)
Theorem saved_image_listed (l : Layout) (r data : string) (fs fs' : FS) :
  Contains r "/" || Contains r ":" = true →
  Contains r "_SLASH" = false → Contains r ":SLASH" = false → Contains r "_COLON" = false →
  SaveManifestRaw l r data fs = Ok fs' →
  ∃ names, Store_ListImages l fs' = Ok names ∧ r ∈ names.
Proof.
  intros Hsep C1 C2 C3 Hs%SaveManifestRaw_saveInto.
  apply saveInto_Ok in Hs as (_ & Hdirs & _); [|done].
  rewrite GetLayersDir_eq, (GetImageDir_safeName l r Hsep), imagesDir_eq in Hdirs.
  unfold Store_ListImages. rewrite imagesDir_eq.
  destruct (ReadDir fs' (rootDir l ++ ["images"])) as [entries|e] eqn:Hr.
  2:{ unfold ReadDir in Hr. rewrite Hdirs in Hr; [done|].
      rewrite <- app_assoc. by apply prefix_app_r. }
  apply ReadDir_Ok in Hr as [_ Hent]. eexists. split; [reflexivity|].
  unfold ListImages. change (map ?f ?x) with (f <$> x). apply list_elem_of_fmap.
  exists (safeName r, true). split.
  - simpl. unfold decodeDirName. rewrite (safeName_has_token r Hsep).
    symmetry. by apply safeName_decode.
  - apply list_elem_of_filter. split; [done|]. apply Hent. exists Dir. split; [|done].
    apply Hdirs. apply prefix_snoc_self.
Qed.

Lemma saved_image_listed_nginx :
  ∃ fs' names,
    SaveManifestRaw demoLayout "docker.io/library/nginx:1.25" "{}" ∅ = Ok fs'
    ∧ Store_ListImages demoLayout fs' = Ok names
    ∧ "docker.io/library/nginx:1.25" ∈ names.
Proof.
  destruct (SaveManifestRaw_total demoLayout "docker.io/library/nginx:1.25" "{}" ∅)
    as [fs' Hs].
  - intros q d _. by rewrite lookup_empty.
  - by rewrite lookup_empty.
  - destruct (saved_image_listed demoLayout "docker.io/library/nginx:1.25" "{}" ∅ fs')
      as (names & Hn & Hin); [reflexivity..|exact Hs|].
    by exists fs', names.
Defined.

End Listing.

(** ** The [rm] command *)

Section Remove.

(** X13: [timage rm ..] removes the whole storage directory: the
    reference [..] names the root of the store, which the command has just
    made sure exists. *)
Theorem rmCmd_parent (storageDir : Path) (fs : FS) :
  (∀ q d, q `prefix_of` storageDir → fs !! q ≠ Some (File d)) →
  ∃ fs',
    rmCmd storageDir ".." fs = (Finished tt, fs')
    ∧ (∀ q, storageDir `prefix_of` q → fs' !! q = None)
    ∧ (∀ q, ¬ storageDir `prefix_of` q → ¬ q `prefix_of` storageDir → fs' !! q = fs !! q).
Proof.
  intros Hno. unfold rmCmd, NewLayout.
  destruct (MkdirAll_total fs storageDir Hno) as [fs0 Hm]. rewrite Hm. simpl.
  apply MkdirAll_Ok in Hm as [H1 H2].
  assert (findImageDir {| rootDir := storageDir |} fs0 ".." = Some storageDir) as Hf.
  { rewrite findImageDir_cases.
    change (currentPath _ "..") with (removelast (storageDir ++ ["images"])%list).
    rewrite removelast_last. unfold Stat. by destruct (H1 storageDir) as [-> _]. }
  unfold ImageExists, RemoveImage. rewrite Hf. simpl. eexists. split; [reflexivity|]. split.
  - intros q Hq. apply map_lookup_filter_None. right. intros x _ Hx. by apply Hx.
  - intros q Hq Hq'. rewrite <- (H2 q Hq'). destruct (fs0 !! q) as [x|] eqn:Hfq.
    + apply map_lookup_filter_Some. by split.
    + apply map_lookup_filter_None. by left.
Qed.

Lemma rmCmd_parent_store :
  ∃ fs',
    rmCmd ["home"; ".timage"] ".." ∅ = (Finished tt, fs')
    ∧ (∀ q, ["home"; ".timage"] `prefix_of` q → fs' !! q = None)
    ∧ (∀ q, ¬ ["home"; ".timage"] `prefix_of` q → ¬ q `prefix_of` ["home"; ".timage"] →
            fs' !! q = (∅ : FS) !! q).
Proof. apply rmCmd_parent. intros q d _. by rewrite lookup_empty. Defined.

End Remove.

(** ** Credentials and proxies in the configuration *)

Section Configuration.

(** X14: credentials set for a registry are the ones [GetAuth] returns
    for it, and removed ones are reported as missing; both leave the
    credentials of every other registry and the proxy settings alone. *)
Theorem auth_round_trip (cfg : Config.t) (registry username password : string) :
  GetAuth (SetAuth cfg registry username password) registry = (username, password, true)
  ∧ GetAuth (RemoveAuth cfg registry) registry = ("", "", false)
  ∧ GetAuth (RemoveAuth (SetAuth cfg registry username password) registry) registry
    = ("", "", false)
  ∧ (∀ other, other ≠ registry →
       GetAuth (SetAuth cfg registry username password) other = GetAuth cfg other
       ∧ GetAuth (RemoveAuth cfg registry) other = GetAuth cfg other)
  ∧ (∀ other,
       GetRegistryProxy (SetAuth cfg registry username password) other
       = GetRegistryProxy cfg other
       ∧ GetRegistryProxy (RemoveAuth cfg registry) other = GetRegistryProxy cfg other).
Proof.
  destruct cfg as [d [auths|] regs]; unfold GetAuth, SetAuth, RemoveAuth; simpl.
  all: rewrite ?lookup_insert_eq, ?lookup_delete_eq; repeat split; try done.
  all: try (by rewrite lookup_insert_ne).
  all: try (by rewrite lookup_delete_ne).
  all: try (rewrite lookup_insert_ne by done; by rewrite lookup_empty).
Qed.

(** X15: an entry for a registry decides its proxy even when the entry
    holds the empty string, which then hides the default proxy; a
    registry without entry gets the default. *)
Theorem registry_proxy (cfg : Config.t) (registry proxy : string) :
  GetRegistryProxy (SetRegistryProxy cfg registry proxy) registry = proxy
  ∧ (∀ default, GetRegistryProxy
                  (SetDefaultProxy (SetRegistryProxy cfg registry "") default) registry = "")
  ∧ (∀ other, other ≠ registry →
       GetRegistryProxy (SetRegistryProxy cfg registry proxy) other
       = GetRegistryProxy cfg other)
  ∧ (∀ default,
       GetRegistryProxy (SetDefaultProxy cfg default) registry
       = match Config.Registries cfg with
         | Some registries =>
             match registries !! registry with
             | Some entry => Config.Proxy entry
             | None => default
             end
         | None => default
         end)
  ∧ (∀ other, GetAuth (SetRegistryProxy cfg registry proxy) other = GetAuth cfg other).
Proof.
  destruct cfg as [d auths [regs|]]; unfold GetRegistryProxy, SetRegistryProxy; simpl.
  all: rewrite ?lookup_insert_eq; repeat split; try done.
  all: intros other Hne; by rewrite lookup_insert_ne.
Qed.

Lemma firstSet_first getenv pre v post :
  Forall (λ e, getenv e = "") pre → getenv v ≠ "" →
  firstSet getenv (pre ++ v :: post) = getenv v.
Proof.
  intros Hpre Hv. induction Hpre as [|e pre He _ IH]; simpl.
  - by destruct (String.eqb_spec (getenv v) "").
  - by rewrite He.
Qed.

Lemma firstSet_none getenv envs :
  Forall (λ e, getenv e = "") envs → firstSet getenv envs = "".
Proof. intros H. induction H as [|e envs He _ IH]; simpl; [done|]. by rewrite He. Qed.

(** X16: [pullCmd] and [pushCmd] take the proxy from the command line if
    one is given; otherwise from the first variable that is set among
    [TIMAGE_PROXY], [HTTP_PROXY], [HTTPS_PROXY], [http_proxy] and
    [https_proxy], in this order; and from the configuration only when
    none of them is set. *)
Theorem proxy_priority (getenv : string → string) (cfg : Config.t)
    (proxyFlag registryURL : string) :
  (proxyFlag ≠ "" → cmd_proxyURL getenv cfg proxyFlag registryURL = proxyFlag)
  ∧ (proxyFlag = "" →
     ∀ pre v post,
       proxyEnvVars = (pre ++ v :: post)%list →
       Forall (λ e, getenv e = "") pre → getenv v ≠ "" →
       cmd_proxyURL getenv cfg proxyFlag registryURL = getenv v)
  ∧ (proxyFlag = "" → Forall (λ e, getenv e = "") proxyEnvVars →
     cmd_proxyURL getenv cfg proxyFlag registryURL = GetRegistryProxy cfg registryURL).
Proof.
  unfold cmd_proxyURL, GetProxyURL, GetProxyFromEnv. split; [|split].
  - intros Hf. destruct (String.eqb_spec proxyFlag ""); [done|]. simpl.
    by destruct (String.eqb_spec proxyFlag "").
  - intros -> pre v post -> Hpre Hv. simpl negb. cbv iota.
    rewrite (firstSet_first _ _ _ _ Hpre Hv). by destruct (String.eqb_spec (getenv v) "").
  - intros -> Hall. simpl negb. cbv iota. by rewrite (firstSet_none _ _ Hall).
Qed.

Lemma proxy_priority_upper_case :
  cmd_proxyURL twoProxies emptyConfig "" "docker.io" = "http://upper:3128".
Proof.
  apply (proj1 (proj2 (proxy_priority twoProxies emptyConfig "" "docker.io")) eq_refl
           ["TIMAGE_PROXY"; "HTTP_PROXY"] "HTTPS_PROXY" ["http_proxy"; "https_proxy"]).
  - reflexivity.
  - by repeat constructor.
  - discriminate.
Defined.

End Configuration.

(** ** From the reference to the registry *)

Section Endpoint.


Lemma parseImageRef_registry imageRef :
  (parseImageRef imageRef).2
  = match Index imageRef "/" with
    | Some idx =>
        if Contains (sliceTo idx imageRef) "." || Contains (sliceTo idx imageRef) ":"
        then sliceTo idx imageRef else "docker.io"
    | None => "docker.io"
    end.
Proof.
  unfold parseImageRef. destruct (Index imageRef "/") as [idx|]; simpl.
  - destruct (_ || _); simpl.
    + by destruct (Index (sliceFrom (idx + 1) imageRef) ":").
    + by destruct (Index imageRef ":").
  - by destruct (Index imageRef ":").
Qed.



(** X18: credentials saved under a registry host, as [loginCmd] does, are
    the ones [pullCmd] and [pushCmd] use for every reference that starts
    with that host and a slash, when the host holds a dot or a colon and
    no slash; those saved under [docker.io] are used for every reference
    without slash. *)
Theorem login_then_pull_credentials (cfg : Config.t) (username password : string) :
  (∀ registry rest,
     Contains registry "/" = false →
     Contains registry "." || Contains registry ":" = true →
     cmd_auth (SetAuth cfg registry username password)
       (parseImageRef (registry ++ "/" ++ rest)).2
     = {| AuthConfig.Username := username; AuthConfig.Password := password;
          AuthConfig.Token := "" |})
  ∧ (∀ imageRef,
       Contains imageRef "/" = false →
       cmd_auth (SetAuth cfg "docker.io" username password) (parseImageRef imageRef).2
       = {| AuthConfig.Username := username; AuthConfig.Password := password;
            AuthConfig.Token := "" |}).
Proof.
  assert (∀ r, cmd_auth (SetAuth cfg r username password) r
               = {| AuthConfig.Username := username; AuthConfig.Password := password;
                    AuthConfig.Token := "" |}) as Hset.
  { intros r. unfold cmd_auth, GetAuth, SetAuth. simpl. by rewrite lookup_insert_eq. }
  split.
  - intros registry rest Hs Hdot. rewrite parseImageRef_registry.
    change (registry ++ "/" ++ rest) with (registry ++ String "/" rest).
    rewrite (Index_char_app "/" registry rest Hs), sliceTo_app, Hdot. apply Hset.
  - intros imageRef Hs. rewrite parseImageRef_registry.
    unfold Contains in Hs. destruct (Index imageRef "/"); [done|]. apply Hset.
Qed.

Lemma login_then_pull_credentials_harbor :
  cmd_auth (SetAuth emptyConfig "harbor.example.com" "alice" "secret")
    (parseImageRef ("harbor.example.com" ++ "/" ++ "project/image:v1.0")).2
  = {| AuthConfig.Username := "alice"; AuthConfig.Password := "secret";
       AuthConfig.Token := "" |}.
Proof.
  apply (proj1 (login_then_pull_credentials emptyConfig "alice" "secret")); reflexivity.
Defined.

End Endpoint.

(** ** The PUT requests of a push *)

Section DirectRequests.
Context `{Env}.

Lemma UploadBlobMonolithic_eq c uploadURL reader size digest st req0 :
  NewRequest "PUT" uploadURL (fileBytes reader) = Ok req0 →
  UploadBlobMonolithic c uploadURL reader size digest st
  = (match (httpDoFile reader (blobPut (auth st) uploadURL digest size req0) (world st)).1 with
     | Err e => Err ("request failed: " ++ e)
     | Ok resp =>
         if Nat.eqb (StatusCode resp) StatusCreated then Ok tt
         else Err ("unexpected status code " ++ itoa (StatusCode resp) ++ ": " ++ Body resp)
     end,
     afterDo st ByClient (blobPut (auth st) uploadURL digest size req0)
       (httpDoFile reader (blobPut (auth st) uploadURL digest size req0) (world st)).2).
Proof.
  intros Hnew. unfold UploadBlobMonolithic, mbind, M_bind, lift, getAuth, wrap, fail, mret, M_ret.
  rewrite Hnew. cbn [wrapErr]. cbv beta.
  change (setHeader "Docker-Distribution-API-Version" "registry/2.0" (AddAuth (auth st) _))
    with (blobPut (auth st) uploadURL digest size req0).
  unfold DoFile, afterDo.
  destruct (httpDoFile reader _ (world st)) as [[resp|e] w]; cbn [fst snd wrapErr]; [|done].
  by destruct (Nat.eqb (StatusCode resp) StatusCreated).
Qed.

Lemma PutManifest_eq c name reference manifest contentType st req0 :
  NewRequest "PUT" (baseURL c ++ "/v2" ++ "/" ++ name ++ "/manifests/" ++ reference) manifest
  = Ok req0 →
  PutManifest c name reference manifest contentType st
  = (match (httpDo (manifestPut (auth st) contentType (String.length manifest) req0)
              (world st)).1 with
     | Err e => Err ("request failed: " ++ e)
     | Ok resp =>
         if Nat.eqb (StatusCode resp) StatusCreated then Ok tt
         else Err ("unexpected status code " ++ itoa (StatusCode resp) ++ ": " ++ Body resp)
     end,
     afterDo st ByClient (manifestPut (auth st) contentType (String.length manifest) req0)
       (httpDo (manifestPut (auth st) contentType (String.length manifest) req0)
          (world st)).2).
Proof.
  intros Hnew. unfold PutManifest, mbind, M_bind, lift, getAuth, wrap, fail, mret, M_ret.
  rewrite Hnew. cbn [wrapErr]. cbv beta.
  fold (manifestPut (auth st) contentType (String.length manifest) req0).
  rewrite Do_eq. destruct (httpDo _ (world st)) as [[resp|e] w]; cbn [fst snd wrapErr]; [|done].
  by destruct (Nat.eqb (StatusCode resp) StatusCreated).
Qed.

(** X19: the two PUT requests of a push, the blob in
    [UploadBlobMonolithic] and the manifest in [PutManifest], do not go
    through [doRequest]: each is handed to the transport once, by the client
    and not by the auth handler, with the credentials as they are and the
    body given; a 401 is not answered by a second attempt but returned as
    an error, like every status other than 201. *)
Theorem direct_puts_not_retried (c : Client) (st : State) :
  (∀ uploadURL reader size digest req0,
     NewRequest "PUT" uploadURL (fileBytes reader) = Ok req0 →
     let req := blobPut (auth st) uploadURL digest size req0 in
     let st' := (UploadBlobMonolithic c uploadURL reader size digest st).2 in
     sent st' = (sent st ++ [(ByClient, req)])%list
     ∧ auth st' = auth st
     ∧ ReqBody req = fileBytes reader
     ∧ ∀ resp w, httpDoFile reader req (world st) = (Ok resp, w) →
                 StatusCode resp ≠ StatusCreated →
                 (UploadBlobMonolithic c uploadURL reader size digest st).1
                 = Err ("unexpected status code " ++ itoa (StatusCode resp) ++ ": " ++ Body resp))
  ∧ (∀ name reference manifest contentType req0,
       NewRequest "PUT" (baseURL c ++ "/v2" ++ "/" ++ name ++ "/manifests/" ++ reference)
         manifest = Ok req0 →
       let req := manifestPut (auth st) contentType (String.length manifest) req0 in
       let st' := (PutManifest c name reference manifest contentType st).2 in
       sent st' = (sent st ++ [(ByClient, req)])%list
       ∧ auth st' = auth st
       ∧ ReqBody req = manifest
       ∧ ∀ resp w, httpDo req (world st) = (Ok resp, w) →
                   StatusCode resp ≠ StatusCreated →
                   (PutManifest c name reference manifest contentType st).1
                   = Err ("unexpected status code " ++ itoa (StatusCode resp) ++ ": " ++ Body resp)).
Proof.
  split.
  - intros uploadURL reader size digest req0 Hnew req st'. subst req st'.
    rewrite (UploadBlobMonolithic_eq _ _ _ _ _ _ _ Hnew). cbn [fst snd].
    split; [done|split; [done|split]].
    + apply NewRequest_fields in Hnew as (_ & _ & _ & Hb).
      unfold blobPut, AddAuth.
      by destruct (nonEmpty _); [|destruct (_ && _)].
    + intros resp w Hdo Hst. rewrite Hdo. cbn [fst].
      by rewrite (proj2 (Nat.eqb_neq _ _) Hst).
  - intros name reference manifest contentType req0 Hnew req st'. subst req st'.
    rewrite (PutManifest_eq _ _ _ _ _ _ _ Hnew). cbn [fst snd].
    split; [done|split; [done|split]].
    + apply NewRequest_fields in Hnew as (_ & _ & _ & Hb).
      unfold manifestPut, AddAuth.
      by destruct (nonEmpty _); [|destruct (_ && _)].
    + intros resp w Hdo Hst. rewrite Hdo. cbn [fst].
      by rewrite (proj2 (Nat.eqb_neq _ _) Hst).
Qed.

End DirectRequests.

(** The blob PUT at the example registry, sent without token to a path
    that wants one: the 401 comes back as the error, after one request. *)
Lemma direct_puts_not_retried_private :
  (@UploadBlobMonolithic demoEnv demoClient "https://registry.example/v2/private/upload"
     (File "blob") 4 "sha256:c0ffee" anonymous).1
  = Err "unexpected status code 401: "
  ∧ List.length
      (sent (@UploadBlobMonolithic demoEnv demoClient
               "https://registry.example/v2/private/upload" (File "blob") 4 "sha256:c0ffee"
               anonymous).2) = 1%nat.
Proof.
  destruct (proj1 (@direct_puts_not_retried demoEnv demoClient anonymous)
              "https://registry.example/v2/private/upload" (File "blob") 4%nat "sha256:c0ffee"
              {| Method := "PUT"; URL := "https://registry.example/v2/private/upload";
                 ReqHeader := ∅; ReqBody := "blob" |} eq_refl)
    as (Hsent & _ & _ & H401).
  split.
  - apply (H401 {| StatusCode := 401;
                   RespHeader := {[ "Www-Authenticate" := bearerChallenge ]};
                   Body := "" |} tt); [vm_compute; reflexivity|discriminate].
  - by rewrite Hsent.
Defined.

(** ** The requests of [UploadBlob] *)

Section BlobUpload.
Context `{Env}.

Lemma wrap_snd {A} ctx (m : M A) st : (wrap ctx m st).2 = (m st).2.
Proof. unfold wrap. by destruct (m st). Qed.

Lemma StartBlobUpload_requests c name st :
  ∃ reqs,
    clientRequests (sent (StartBlobUpload c name st).2)
    = (clientRequests (sent st) ++ reqs)%list
    ∧ (List.length reqs ≤ 2)%nat.
Proof.
  destruct (doRequest_requests c "POST" ("/" ++ name ++ "/blobs/uploads/") ∅ st)
    as (reqs & Hreqs & Hlen).
  exists reqs. split; [|done]. rewrite <- Hreqs.
  unfold StartBlobUpload, mbind, M_bind, wrap, fail, mret, M_ret.
  destruct (doRequest c "POST" _ ∅ st) as [[resp|e] st1]; cbn [wrapErr snd]; [|done].
  destruct (negb _); [done|]. destruct (String.eqb _ ""); [done|].
  by destruct (_ && _).
Qed.

Lemma UploadBlobMonolithic_requests c uploadURL reader size digest st :
  ∃ reqs,
    clientRequests (sent (UploadBlobMonolithic c uploadURL reader size digest st).2)
    = (clientRequests (sent st) ++ reqs)%list
    ∧ (List.length reqs ≤ 1)%nat.
Proof.
  destruct (NewRequest "PUT" uploadURL (fileBytes reader)) as [req0|e] eqn:Hnew.
  - rewrite (UploadBlobMonolithic_eq _ _ _ _ _ _ _ Hnew). cbn [snd].
    eexists. split; [apply clientRequests_afterDo|simpl; lia].
  - exists []. split; [|simpl; lia].
    unfold UploadBlobMonolithic, mbind, M_bind, lift. rewrite Hnew. cbn.
    by rewrite app_nil_r.
Qed.

(** X20: [UploadBlob] opens the file before it talks to the registry:
    when nothing is at the path, the error names the path, says [not a
    directory] if the way there leads through a regular file and [no such
    file or directory] otherwise, and nothing has been sent. Whatever else
    is at the path opens, a directory like a file, and the upload session
    is asked for next; if that fails, its error comes back. In every case
    the client sends at most three requests: the POST that opens the
    upload, once more after a challenge, and the PUT. *)
Theorem UploadBlob_requests (c : Client) (fs : FS) (name digest : string) (srcPath : Path)
    (st : State) :
  (fs !! srcPath = None →
   UploadBlob c fs name digest srcPath st
   = (Err ("failed to open file: " ++ "open " ++ pathText srcPath
           ++ (if belowFile fs srcPath then ": not a directory"
               else ": no such file or directory")), st))
  ∧ (∀ file e st1,
       fs !! srcPath = Some file →
       belowFile fs srcPath = false →
       StartBlobUpload c name st = (Err e, st1) →
       UploadBlob c fs name digest srcPath st
       = (Err ("failed to start upload: " ++ e), st1))
  ∧ ∃ reqs,
      clientRequests (sent (UploadBlob c fs name digest srcPath st).2)
      = (clientRequests (sent st) ++ reqs)%list
      ∧ (List.length reqs ≤ 3)%nat.
Proof.
  split; [|split].
  - intros Hno. unfold UploadBlob, mbind, M_bind, lift, openFile. rewrite Hno.
    by destruct (belowFile fs srcPath).
  - intros file e st1 Hfile Hway Hstart.
    unfold UploadBlob, mbind, M_bind, lift.
    rewrite (openFile_entry _ _ _ Hfile Hway). cbn [wrapErr].
    by rewrite (wrap_Err _ _ _ _ _ Hstart).
  - unfold UploadBlob, mbind, M_bind, lift.
    destruct (openFile fs srcPath) as [file|e]; cbn [wrapErr].
    2:{ exists []. split; [by rewrite app_nil_r|simpl; lia]. }
    destruct (StartBlobUpload_requests c name st) as (reqs1 & Hr1 & Hl1).
    pose proof (wrap_snd "failed to start upload: " (StartBlobUpload c name) st) as Hw.
    destruct (wrap "failed to start upload: " (StartBlobUpload c name) st)
      as [[uploadURL|e] st1]; cbn [snd] in *; rewrite <- Hw in Hr1.
    2:{ exists reqs1. split; [done|lia]. }
    destruct (UploadBlobMonolithic_requests c uploadURL file (fileSize srcPath file)
                digest st1) as (reqs2 & Hr2 & Hl2).
    rewrite wrap_snd, Hr2, Hr1, <- app_assoc.
    exists (reqs1 ++ reqs2)%list. split; [done|]. rewrite length_app. lia.
Qed.

End BlobUpload.

(** With an empty store: the config file of the image is not there. *)
Lemma UploadBlob_requests_missing_file :
  @UploadBlob demoEnv demoClient ∅ "library/nginx" "sha256:c0ffee"
    (GetConfigPath demoLayout "nginx:latest") anonymous
  = (Err "failed to open file: open /store/images/nginx_COLON_latest/config.json: no such file or directory",
     anonymous).
Proof.
  rewrite (proj1 (@UploadBlob_requests demoEnv demoClient ∅ "library/nginx" "sha256:c0ffee"
                    (GetConfigPath demoLayout "nginx:latest") anonymous)
             (lookup_empty _)).
  reflexivity.
Defined.

(** ** Chains of manifest lists *)

Section ManifestChains.
Context `{Env}.

(** X21: nothing bounds the number of manifest lists [GetManifest]
    follows. With a registry that answers every request with a manifest
    list holding an entry for [amd64] and [linux], the call has not
    returned after any number of requests. *)
Theorem GetManifest_follows_without_limit (c : Client) (name : string) :
  (∀ method url, newRequestErr method url = None) →
  (∀ req w, ∃ resp w' manifest entry,
      httpDo req w = (Ok resp, w')
      ∧ StatusCode resp = StatusOK
      ∧ decodeManifest (Body resp) = Ok manifest
      ∧ isManifestList manifest (Get (RespHeader resp) "Content-Type") = true
      ∧ List.find isAmd64Linux (Manifest.Manifests manifest) = Some entry) →
  ∀ fuel reference st, GetManifest fuel c name reference st = None.
Proof.
  intros Hnew Hlist fuel. induction fuel as [|fuel IH]; intros reference st; [done|].
  cbn [GetManifest].
  set (path := "/" ++ name ++ "/manifests/" ++ reference).
  assert (NewRequest "GET" (baseURL c ++ "/v2" ++ path) ""
          = Ok {| Method := "GET"; URL := baseURL c ++ "/v2" ++ path;
                  ReqHeader := ∅; ReqBody := "" |}) as Hreq.
  { unfold NewRequest. by rewrite Hnew. }
  destruct (Hlist (prepare (auth st) acceptManifests
                     {| Method := "GET"; URL := baseURL c ++ "/v2" ++ path;
                        ReqHeader := ∅; ReqBody := "" |}) (world st))
    as (resp & w' & manifest & entry & Hdo & Hst & Hdec & Hil & Hfind).
  rewrite (doRequest_other_status _ _ _ _ _ _ _ _ Hreq Hdo) by (rewrite Hst; discriminate).
  rewrite Hst. change (negb (Nat.eqb StatusOK StatusOK)) with false. cbv iota.
  rewrite Hdec, Hil, Hfind. apply IH.
Qed.

End ManifestChains.

Lemma GetManifest_follows_without_limit_chain :
  @GetManifest chainEnv 50 demoClient "library/nginx" "latest" chainStart = None.
Proof.
  apply (@GetManifest_follows_without_limit chainEnv).
  - done.
  - intros req w. eexists _, _, _, _. repeat split.
Defined.

(** ** The Basic challenge *)

Section BasicChallenge.
Context `{Env}.

(** X22: after a 401 with a [Basic] challenge the client has nothing new
    to offer: the request it sends again is the very request it sent
    first, credentials included, and what the transport answers to it is
    the result. *)
Theorem doRequest_basic_resend (c : Client) (method path : string) (headers : Header)
    (st : State) (req0 : Request) (resp : Response) (w1 : World) :
  NewRequest method (baseURL c ++ "/v2" ++ path) "" = Ok req0 →
  httpDo (prepare (auth st) headers req0) (world st) = (Ok resp, w1) →
  StatusCode resp = StatusUnauthorized →
  HasPrefix (Get (RespHeader resp) "Www-Authenticate") "Basic" = true →
  let req := prepare (auth st) headers req0 in
  doRequest c method path headers st
  = (wrapErr "retry request failed: " (httpDo req w1).1,
     afterDo (afterDo st ByClient req w1) ByClient req (httpDo req w1).2)
  ∧ sent (doRequest c method path headers st).2
    = (sent st ++ [(ByClient, req); (ByClient, req)])%list
  ∧ auth (doRequest c method path headers st).2 = auth st.
Proof.
  intros Hnew Hdo H401 Hbasic req. subst req.
  rewrite (doRequest_unauthorized _ _ _ _ _ _ _ _ Hnew Hdo H401).
  unfold HandleAuthChallenge.
  destruct (String.eqb_spec (Get (RespHeader resp) "Www-Authenticate") "") as [E|_].
  { by rewrite E in Hbasic. }
  destruct (HasPrefix (Get (RespHeader resp) "Www-Authenticate") "Bearer") eqn:Hbearer.
  { apply HasPrefix_split in Hbearer. apply HasPrefix_split in Hbasic.
    rewrite Hbearer in Hbasic. discriminate Hbasic. }
  rewrite Hbasic. unfold mret, M_ret. cbn [afterDo auth world sent fst snd].
  split; [done|]. split; [|done]. by rewrite <- app_assoc.
Qed.

End BasicChallenge.

Lemma doRequest_basic_resend_demo :
  sent (@doRequest demoEnv demoClient "GET" "/basic/x" ∅ anonymous).2
  = [(ByClient, @prepare demoEnv (@auth demoEnv anonymous) ∅
                  (getRequest "https://registry.example/v2/basic/x"));
     (ByClient, @prepare demoEnv (@auth demoEnv anonymous) ∅
                  (getRequest "https://registry.example/v2/basic/x"))].
Proof.
  apply (@doRequest_basic_resend demoEnv demoClient "GET" "/basic/x" ∅ anonymous
           (getRequest "https://registry.example/v2/basic/x") basicChallenge tt).
  - reflexivity.
  - vm_compute. reflexivity.
  - reflexivity.
  - vm_compute. reflexivity.
Defined.

(** ** Reading a challenge *)

Section Challenges.

Lemma allBytes_app p a b : allBytes p (a ++ b) = allBytes p a && allBytes p b.
Proof.
  induction a as [|c a IH]; [done|]. rewrite append_cons. simpl.
  by rewrite IH, andb_assoc.
Qed.

Lemma allBytes_impl (p q : ascii → bool) s :
  (∀ c, p c = true → q c = true) → allBytes p s = true → allBytes q s = true.
Proof.
  intros Hpq. induction s as [|c s IH]; [done|]. simpl.
  intros [Hc Hs]%andb_prop. by rewrite (Hpq c Hc), (IH Hs).
Qed.

Lemma allBytes_Contains p s c :
  allBytes p s = true → p c = false → Contains s (String c "") = false.
Proof.
  intros Hs Hc. induction s as [|x s IH]; [done|]. simpl in Hs.
  apply andb_prop in Hs as [Hx Hs]. rewrite Contains_char_cons, (IH Hs), orb_false_r.
  destruct (Ascii.eqb_spec c x) as [->|]; [congruence|done].
Qed.

Lemma trimLeftFunc_id f s :
  allBytes (λ c, negb (f c)) s = true → trimLeftFunc f s = s.
Proof. destruct s as [|c s]; [done|]. simpl. by intros [->%negb_true_iff _]%andb_prop. Qed.

Lemma trimRightFunc_id f s :
  allBytes (λ c, negb (f c)) s = true → trimRightFunc f s = s.
Proof.
  induction s as [|c s IH]; [done|]. simpl.
  intros [Hc%negb_true_iff Hs]%andb_prop. rewrite (IH Hs), Hc. by destruct s.
Qed.

Lemma trimRightFunc_strip f s c :
  allBytes (λ c, negb (f c)) s = true → f c = true →
  trimRightFunc f (s ++ String c "") = s.
Proof.
  intros Hs Hc. induction s as [|x s IH].
  - simpl. by rewrite Hc.
  - simpl in Hs. apply andb_prop in Hs as [Hx%negb_true_iff Hs].
    rewrite append_cons. cbn [trimRightFunc]. rewrite (IH Hs), Hx. by destruct s.
Qed.

(** A string that is not empty ends in a byte. *)
Lemma string_snoc c s : ∃ u d, String c s = u ++ String d "".
Proof.
  revert c. induction s as [|x s IH]; intros c.
  - by exists "", c.
  - destruct (IH x) as (u & d & ->). by exists (String c u), d.
Qed.

Lemma get_snoc u d : String.get (String.length u) (u ++ String d "") = Some d.
Proof. induction u as [|x u IH]; [done|]. by rewrite append_cons. Qed.

Lemma sliceTo_length s : sliceTo (String.length s) s = s.
Proof. induction s as [|x s IH]; [done|]. simpl. by rewrite IH. Qed.

Lemma length_snoc u d : String.length (u ++ String d "") = S (String.length u).
Proof. induction u as [|x u IH]; [done|]. rewrite append_cons. simpl. by rewrite IH. Qed.

(** [TrimSpace] leaves a string alone that begins and ends with an ASCII
    byte other than white space: the two loops over the bytes stop at
    once. *)
Lemma TrimSpace_edges c s u d :
  String c s = u ++ String d "" →
  notASCII c = false → asciiSpace c = false →
  notASCII d = false → asciiSpace d = false →
  TrimSpace (String c s) = String c s.
Proof.
  intros Hs Hc1 Hc2 Hd1 Hd2.
  assert (Hlen : String.length (String c s) = S (String.length u)).
  { rewrite Hs. apply length_snoc. }
  change (TrimSpace (String c s))
    with (if notASCII c then TrimFunc (String c s) IsSpace
          else if asciiSpace c then TrimSpace s
          else trimSpaceRight (String c s) (String.length (String c s))).
  rewrite Hc1, Hc2, Hlen, Hs. cbn [trimSpaceRight]. rewrite get_snoc, Hd1, Hd2.
  by rewrite <- (length_snoc u d), sliceTo_length.
Qed.

Lemma allBytes_last p u d : allBytes p (u ++ String d "") = true → p d = true.
Proof. rewrite allBytes_app. simpl. intros [_ H]%andb_prop. by rewrite andb_true_r in H. Qed.

Lemma TrimSpace_ascii s :
  allBytes (λ c, negb (notASCII c) && negb (asciiSpace c)) s = true → TrimSpace s = s.
Proof.
  destruct s as [|c s]; [done|]. intros Hs.
  destruct (string_snoc c s) as (u & d & Hud).
  pose proof Hs as Hd. rewrite Hud in Hd. apply allBytes_last in Hd.
  simpl in Hs. apply andb_prop in Hs as [Hc _].
  apply andb_prop in Hc as [Hc1%negb_true_iff Hc2%negb_true_iff].
  apply andb_prop in Hd as [Hd1%negb_true_iff Hd2%negb_true_iff].
  by apply (TrimSpace_edges c s u d).
Qed.

Lemma Split_comma_cons a rest :
  Contains a "," = false → Split (a ++ String "," rest) "," = a :: Split rest ",".
Proof.
  unfold Split. induction a as [|x a IH]; intros Ha.
  - reflexivity.
  - rewrite Contains_char_cons in Ha. apply orb_false_elim in Ha as [Hx Ha].
    rewrite append_cons. cbn [splitFrom]. rewrite HasPrefix_cons, Hx. simpl andb. cbv iota.
    by rewrite (IH Ha).
Qed.

Lemma Split_concat items :
  items ≠ [] → Forall (λ a, Contains a "," = false) items →
  Split (String.concat "," items) "," = items.
Proof.
  intros Hne Hall. induction Hall as [|a items Ha Hall IH]; [done|].
  destruct items as [|b items].
  - simpl. by apply Split_no_sep.
  - change (String.concat "," (a :: b :: items))
      with (a ++ String "," (String.concat "," (b :: items))).
    rewrite (Split_comma_cons _ _ Ha). f_equal. by apply IH.
Qed.

(** One turn of the loop of [parseAuthHeader]. *)
Lemma parseAuthHeader_step_eq header :
  parseAuthHeader header
  = fold_left
      (λ params part,
         if String.eqb (TrimSpace part) "" then params
         else match SplitN (TrimSpace part) "=" 2 with
              | [k; v] => <[TrimSpace k := Trim v dquote]> params
              | _ => params
              end)
      (Split (TrimPrefix header "Bearer ") ",") (∅ : gmap string string).
Proof. reflexivity. Qed.

Lemma plainByte_spec c :
  plainByte c = true →
  notASCII c = false ∧ asciiSpace c = false
  ∧ c ≠ ","%char ∧ c ≠ "="%char ∧ c ≠ ascii_of_nat 34.
Proof.
  unfold plainByte. rewrite !andb_true_iff, !negb_true_iff.
  intros [[[[H0 H1] H2] H3] H4]. split; [done|]. split; [done|].
  repeat split; intros ->; by rewrite Ascii.eqb_refl in *.
Qed.

Lemma valueByte_spec c : valueByte c = true → c ≠ ","%char ∧ c ≠ ascii_of_nat 34.
Proof.
  unfold valueByte. rewrite !andb_true_iff, !negb_true_iff.
  intros [H2 H4]. split; intros ->; by rewrite Ascii.eqb_refl in *.
Qed.

Lemma plain_no c k : allBytes plainByte k = true →
  c = ","%char ∨ c = "="%char ∨ c = ascii_of_nat 34 → Contains k (String c "") = false.
Proof.
  intros Hk Hc. apply (allBytes_Contains _ _ _ Hk).
  destruct Hc as [-> | [-> | ->] ]; reflexivity.
Qed.

Lemma plain_ascii s :
  allBytes plainByte s = true
  → allBytes (λ c, negb (notASCII c) && negb (asciiSpace c)) s = true.
Proof.
  apply allBytes_impl. intros c (H1 & H2 & _)%plainByte_spec. by rewrite H1, H2.
Qed.

Lemma TrimSpace_plain k : allBytes plainByte k = true → TrimSpace k = k.
Proof. intros Hk. by apply TrimSpace_ascii, plain_ascii. Qed.

Lemma cut_dquote c : Contains dquote (String c "") = Ascii.eqb c (ascii_of_nat 34).
Proof.
  unfold dquote. rewrite Contains_char_cons. by rewrite orb_false_r.
Qed.

Lemma Trim_quoted v : allBytes valueByte v = true → Trim (quoted v) dquote = v.
Proof.
  intros Hv. unfold Trim, quoted.
  assert (allBytes (λ c, negb (Contains dquote (String c ""))) v = true) as Hq.
  { revert Hv. apply allBytes_impl. intros c [_ Hc]%valueByte_spec.
    rewrite cut_dquote. by destruct (Ascii.eqb_spec c (ascii_of_nat 34)). }
  change (dquote ++ v ++ dquote)
    with (String (ascii_of_nat 34) (v ++ String (ascii_of_nat 34) "")).
  cbn [trimLeftFunc]. rewrite cut_dquote, Ascii.eqb_refl.
  assert (Contains dquote (String (ascii_of_nat 34) "") = true) as Hcut.
  { by rewrite cut_dquote, Ascii.eqb_refl. }
  destruct v as [|x v].
  - change ("" ++ String (ascii_of_nat 34) "") with (String (ascii_of_nat 34) "").
    cbn [trimLeftFunc]. by rewrite Hcut.
  - rewrite append_cons. cbn [trimLeftFunc]. pose proof Hq as Hq'. simpl in Hq'.
    apply andb_prop in Hq' as [Hx _]. apply negb_true_iff in Hx. rewrite Hx.
    rewrite <- append_cons. by apply trimRightFunc_strip.
Qed.

(** What the loop does with one well-formed attribute. *)
Lemma attribute_read k v :
  k ≠ "" → allBytes plainByte k = true → allBytes valueByte v = true →
  let part := k ++ "=" ++ quoted v in
  TrimSpace part = part
  ∧ String.eqb part "" = false
  ∧ SplitN part "=" 2 = [k; quoted v]
  ∧ Contains part "," = false.
Proof.
  intros Hne Hk Hv part. subst part.
  assert (Hsplit : SplitN (k ++ "=" ++ quoted v) "=" 2 = [k; quoted v]).
  { change (k ++ "=" ++ quoted v) with (k ++ String "=" (quoted v)).
    cbn [SplitN]. rewrite (Index_char_app "=" k (quoted v)) by (apply plain_no; auto).
    by rewrite sliceTo_app, sliceFrom_app_char. }
  split; [|split; [|split; [done|]]].
  - destruct k as [|c k]; [done|]. simpl in Hk.
    apply andb_prop in Hk as [Hc _]. apply plainByte_spec in Hc as (Hc1 & Hc2 & _).
    rewrite append_cons.
    apply (TrimSpace_edges c _ (String c k ++ "=" ++ dquote ++ v) (ascii_of_nat 34));
      [|done..].
    rewrite <- append_cons. unfold quoted. by rewrite !append_assoc.
  - destruct k; [done|]. reflexivity.
  - rewrite !Contains_char_app. rewrite (plain_no "," k Hk) by auto.
    unfold quoted. rewrite !Contains_char_app.
    rewrite (allBytes_Contains _ _ "," Hv) by reflexivity. reflexivity.
Qed.

(** X23: a Bearer challenge whose attributes are written as [key=] and
    the value in double quotes, separated by commas, is read back as
    written: [parseAuthHeader] returns every key with its value, a later
    attribute replacing an earlier one of the same key. Keys are not empty
    and consist of ASCII bytes other than white space, comma, equals sign
    and quote; values hold no comma and no quote. *)
Theorem parseAuthHeader_challenge (pairs : list (string * string)) :
  Forall (λ kv, kv.1 ≠ "" ∧ allBytes plainByte kv.1 = true
                ∧ allBytes valueByte kv.2 = true) pairs →
  parseAuthHeader (challenge pairs)
  = fold_left (λ params kv, <[kv.1 := kv.2]> params) pairs ∅.
Proof.
  intros Hall. rewrite parseAuthHeader_step_eq. unfold challenge, TrimPrefix.
  rewrite HasPrefix_app, (sliceFrom_app "Bearer " _).
  destruct pairs as [|kv0 pairs0]; [reflexivity|].
  set (pairs := kv0 :: pairs0) in *.
  rewrite Split_concat.
  2:{ done. }
  2:{ apply Forall_fmap. apply (Forall_impl _ _ _ Hall). intros [k v] (Hne & Hk & Hv).
      by apply (attribute_read k v). }
  generalize (∅ : gmap string string). clearbody pairs. clear kv0 pairs0.
  induction Hall as [|[k v] pairs (Hne & Hk & Hv) _ IH]; intros params; [done|].
  cbn [map fold_left fst snd].
  destruct (attribute_read k v Hne Hk Hv) as (-> & -> & -> & _).
  rewrite (TrimSpace_plain k Hk), (Trim_quoted v Hv). apply IH.
Qed.

Lemma parseAuthHeader_challenge_demo :
  parseAuthHeader
    (challenge [("realm", "https://auth.example/token"); ("service", "registry.example");
                ("scope", "repository:library/nginx:pull")])
  = fold_left (λ params kv, <[kv.1 := kv.2]> params)
      [("realm", "https://auth.example/token"); ("service", "registry.example");
       ("scope", "repository:library/nginx:pull")] ∅.
Proof. apply parseAuthHeader_challenge. by repeat constructor. Defined.

Lemma plain_noquote s :
  allBytes plainByte s = true
  → allBytes (λ c, negb (Contains dquote (String c ""))) s = true.
Proof.
  apply allBytes_impl. intros c (_ & _ & _ & _ & Hc)%plainByte_spec.
  rewrite cut_dquote. by destruct (Ascii.eqb_spec c (ascii_of_nat 34)).
Qed.

(** X24: a comma inside the quotes ends the value. From a challenge
    with the one attribute [k], whose quoted value is [a], a comma and [b],
    [parseAuthHeader] returns [a] for [k] and drops the rest: the header
    is split at every comma before the quotes are looked at. Here [k], [a]
    and [b] consist of ASCII bytes other than white space, comma, equals
    sign and quote. *)
Theorem parseAuthHeader_comma_in_value (k a b : string) :
  k ≠ "" →
  allBytes plainByte k = true → allBytes plainByte a = true → allBytes plainByte b = true →
  parseAuthHeader ("Bearer " ++ k ++ "=" ++ quoted (a ++ "," ++ b)) = {[ k := a ]}.
Proof.
  intros Hne Hk Ha Hb. rewrite parseAuthHeader_step_eq. unfold TrimPrefix.
  rewrite HasPrefix_app, (sliceFrom_app "Bearer " _).
  assert (k ++ "=" ++ quoted (a ++ "," ++ b)
          = (k ++ "=" ++ dquote ++ a) ++ String "," (b ++ dquote)) as ->.
  { unfold quoted. change ("," ++ b) with (String "," b).
    rewrite !append_assoc. by rewrite ?append_cons, ?append_nil_l. }
  assert (Contains (k ++ "=" ++ dquote ++ a) "," = false) as Hnc.
  { rewrite !Contains_char_app, (plain_no "," k Hk), (plain_no "," a Ha) by auto. done. }
  rewrite (Split_comma_cons _ _ Hnc), Split_no_sep.
  2:{ rewrite Contains_char_app, (plain_no "," b Hb) by auto. done. }
  cbn [fold_left].
  assert (allBytes (λ c, negb (notASCII c) && negb (asciiSpace c))
            (k ++ "=" ++ dquote ++ a) = true) as Hs1.
  { rewrite !allBytes_app, (plain_ascii k Hk), (plain_ascii a Ha). done. }
  assert (allBytes (λ c, negb (notASCII c) && negb (asciiSpace c)) (b ++ dquote) = true)
    as Hs2.
  { rewrite allBytes_app, (plain_ascii b Hb). done. }
  rewrite (TrimSpace_ascii _ Hs1), (TrimSpace_ascii _ Hs2).
  assert (String.eqb (k ++ "=" ++ dquote ++ a) "" = false) as -> by (by destruct k).
  assert (String.eqb (b ++ dquote) "" = false) as -> by (by destruct b).
  assert (SplitN (k ++ "=" ++ dquote ++ a) "=" 2 = [k; dquote ++ a]) as ->.
  { change (k ++ "=" ++ dquote ++ a) with (k ++ String "=" (dquote ++ a)).
    cbn [SplitN]. rewrite (Index_char_app "=" k _) by (apply plain_no; auto).
    by rewrite sliceTo_app, sliceFrom_app_char. }
  assert (SplitN (b ++ dquote) "=" 2 = [b ++ dquote]) as ->.
  { cbn [SplitN].
    assert (Contains (b ++ dquote) "=" = false) as Hno.
    { rewrite Contains_char_app, (plain_no "=" b Hb) by auto. done. }
    unfold Contains in Hno. by destruct (Index (b ++ dquote) "="). }
  rewrite (TrimSpace_plain k Hk).
  assert (Trim (dquote ++ a) dquote = a) as ->; [|done].
  unfold Trim. change (dquote ++ a) with (String (ascii_of_nat 34) a).
  cbn [trimLeftFunc]. rewrite cut_dquote, Ascii.eqb_refl.
  by rewrite (trimLeftFunc_id _ _ (plain_noquote a Ha)),
    (trimRightFunc_id _ _ (plain_noquote a Ha)).
Qed.

Lemma parseAuthHeader_comma_in_value_scope :
  parseAuthHeader ("Bearer " ++ "scope" ++ "=" ++ quoted ("repository:library/nginx:pull" ++ "," ++ "push"))
  = {[ "scope" := "repository:library/nginx:pull" ]}.
Proof. by apply parseAuthHeader_comma_in_value. Defined.

End Challenges.

(** ** Progress of a download *)

Section ProgressFacts.

Lemma wrapInt64_small z : (0 ≤ z < 2 ^ 63)%Z → wrapInt64 z = z.
Proof. intros Hz. unfold wrapInt64. rewrite Z.mod_small; lia. Qed.

Lemma concat_nil_cons (a : string) (l : list string) :
  String.concat "" (a :: l) = a ++ String.concat "" l.
Proof. destruct l as [|b l]; simpl; [by rewrite append_nil_r|done]. Qed.

Lemma progressWriter_fold reads pw :
  fold_left progressWriter_Write reads pw
  = {| pw_writer := pw_writer pw ++ String.concat "" reads;
       pw_total := pw_total pw;
       pw_written := match last (progressCalls (pw_total pw) (pw_written pw) reads) with
                     | Some call => call.1
                     | None => pw_written pw
                     end;
       pw_progress := (pw_progress pw
                       ++ progressCalls (pw_total pw) (pw_written pw) reads)%list |}.
Proof.
  revert pw. induction reads as [|p reads IH]; intros pw; cbn [fold_left].
  - simpl. rewrite append_nil_r, app_nil_r. by destruct pw.
  - rewrite IH. cbn [progressWriter_Write pw_writer pw_total pw_written pw_progress].
    rewrite concat_nil_cons, append_assoc, <- app_assoc. cbn [progressCalls].
    f_equal. rewrite last_cons. by destruct (last _).
Qed.

Lemma progressCalls_length total written reads :
  List.length (progressCalls total written reads) = List.length reads.
Proof. revert written. induction reads as [|p reads IH]; intros w; simpl; [done|]. by rewrite IH. Qed.

Lemma progressCalls_last total written reads :
  reads ≠ [] → (0 ≤ written)%Z →
  (written + Z.of_nat (String.length (String.concat "" reads)) < 2 ^ 63)%Z →
  last (progressCalls total written reads)
  = Some ((written + Z.of_nat (String.length (String.concat "" reads)))%Z, total).
Proof.
  revert written. induction reads as [|p reads IH]; intros w Hne H0 Hlt; [done|].
  rewrite concat_nil_cons, length_append in *. cbn [progressCalls].
  rewrite wrapInt64_small by lia.
  destruct reads as [|p' reads].
  - simpl. rewrite Nat.add_0_r. done.
  - rewrite last_cons. rewrite IH; [|done|lia|lia].
    f_equal. f_equal. lia.
Qed.

End ProgressFacts.

(** ** Downloading a blob *)

Section DownloadFacts.
Context `{Env}.
Variable contentLength : Response → Z.
Variable bodyReads : Response → list string.

Lemma DownloadBlobWithProgress_answered c name digest destPath fs st resp st1 :
  doRequest c "GET" ("/" ++ name ++ "/blobs/" ++ digest) ∅ st = (Ok resp, st1) →
  StatusCode resp = StatusOK →
  String.concat "" (bodyReads resp) = Body resp →
  ∃ r,
    DownloadBlob c name digest destPath fs st = (r, st1)
    ∧ DownloadBlobWithProgress contentLength bodyReads c name digest destPath fs st
      = (match r with
         | Ok fs' => Ok (fs', progressCalls (contentLength resp) 0 (bodyReads resp))
         | Err e => Err e
         end, st1)
    ∧ (∀ fs', r = Ok fs' →
         fs' !! destPath = Some (File (Body resp))
         ∧ ∀ q, ¬ q `prefix_of` removelast destPath → q ≠ destPath → fs' !! q = fs !! q).
Proof.
  intros Hreq Hst Hreads.
  unfold DownloadBlob, DownloadBlobWithProgress, mbind, M_bind, lift, fail, mret, M_ret.
  rewrite (wrap_Ok _ _ _ _ _ Hreq), Hst.
  change (negb (Nat.eqb StatusOK StatusOK)) with false. cbv iota.
  rewrite progressWriter_fold. cbn [pw_writer pw_progress pw_total pw_written app].
  rewrite Hreads, append_nil_l.
  destruct (MkdirAll fs (removelast destPath)) as [fs1|e] eqn:Hm; cbn [wrapErr].
  2:{ eexists. split; [reflexivity|]. split; [reflexivity|done]. }
  destruct (WriteFile fs1 destPath "") as [fs2|e] eqn:Hw; cbn [wrapErr].
  2:{ eexists. split; [reflexivity|]. split; [reflexivity|done]. }
  eexists. split; [reflexivity|]. split; [reflexivity|].
  intros fs' [= <-]. split; [by rewrite lookup_insert_eq|].
  intros q Hq Hne. apply MkdirAll_Ok in Hm as [_ Hframe].
  apply WriteFile_Ok in Hw as (-> & _ & _).
  rewrite !lookup_insert_ne by done. by apply Hframe.
Qed.

(** X25: when the registry answers the request for a blob with 200,
    [DownloadBlob] and [DownloadBlobWithProgress] do the same to the file
    system: the destination holds the body of the response, and no path
    changes but the destination and the directories above it. The
    [progress] function is called once for every read; as long as the body
    is shorter than [2^63] bytes, the last call reports its length. *)
Theorem download_stores_body (c : Client) (name digest : string) (destPath : Path)
    (fs : FS) (st : State) (resp : Response) (st1 : State) :
  doRequest c "GET" ("/" ++ name ++ "/blobs/" ++ digest) ∅ st = (Ok resp, st1) →
  StatusCode resp = StatusOK →
  String.concat "" (bodyReads resp) = Body resp →
  ∃ r,
    DownloadBlob c name digest destPath fs st = (r, st1)
    ∧ DownloadBlobWithProgress contentLength bodyReads c name digest destPath fs st
      = (match r with
         | Ok fs' => Ok (fs', progressCalls (contentLength resp) 0 (bodyReads resp))
         | Err e => Err e
         end, st1)
    ∧ (∀ fs', r = Ok fs' →
         fs' !! destPath = Some (File (Body resp))
         ∧ ∀ q, ¬ q `prefix_of` removelast destPath → q ≠ destPath → fs' !! q = fs !! q)
    ∧ List.length (progressCalls (contentLength resp) 0 (bodyReads resp))
      = List.length (bodyReads resp)
    ∧ (bodyReads resp ≠ [] → (Z.of_nat (String.length (Body resp)) < 2 ^ 63)%Z →
       last (progressCalls (contentLength resp) 0 (bodyReads resp))
       = Some (Z.of_nat (String.length (Body resp)), contentLength resp)).
Proof.
  intros Hreq Hst Hreads.
  destruct (DownloadBlobWithProgress_answered c name digest destPath fs st resp st1
              Hreq Hst Hreads) as (r & H1 & H2 & H3).
  exists r. split; [done|]. split; [done|]. split; [done|].
  split; [apply progressCalls_length|].
  intros Hne Hlt. rewrite progressCalls_last, Hreads by (rewrite ?Hreads; done || lia). done.
Qed.

End DownloadFacts.

Lemma download_stores_body_demo :
  ∃ r,
    @DownloadBlob blobEnv demoClient "library/nginx" "sha256:0123456789ab"
      ["tmp"; "blob"] ∅ blobStart
    = (r, (@doRequest blobEnv demoClient "GET" "/library/nginx/blobs/sha256:0123456789ab"
             ∅ blobStart).2)
    ∧ (∀ fs', r = Ok fs' → fs' !! ["tmp"; "blob"] = Some (File "layer-bytes"))
    ∧ last (progressCalls 11 0 ["layer"; "-bytes"]) = Some (11%Z, 11%Z).
Proof.
  destruct (@download_stores_body blobEnv (λ _, 11%Z) twoReads demoClient "library/nginx"
              "sha256:0123456789ab" ["tmp"; "blob"] ∅ blobStart
              {| StatusCode := 200; RespHeader := ∅; Body := "layer-bytes" |}
              (@doRequest blobEnv demoClient "GET" "/library/nginx/blobs/sha256:0123456789ab"
                 ∅ blobStart).2)
    as (r & Hd & _ & Hfs & _ & Hlast).
  - rewrite (surjective_pairing (@doRequest blobEnv _ _ _ _ _)) at 1. f_equal.
  - reflexivity.
  - reflexivity.
  - exists r. split; [exact Hd|]. split.
    + intros fs' Hr. by destruct (Hfs fs' Hr).
    + apply Hlast; [done|]. vm_compute. reflexivity.
Defined.

(** ** A layer on its way into the store *)

Section PullLayer.
Context `{Env}.
Variable contentLength : Response → Z.
Variable bodyReads : Response → list string.




Lemma GetLayerPath_eq l r digest :
  Contains digest "/" = false →
  GetLayerPath l r digest
  = (GetImageDir l r ++ ["layers"; (ReplaceAll digest ":" "_" ++ ".tar.gz")%string])%list.
Proof.
  intros Hd. unfold GetLayerPath. rewrite Join_component.
  - by rewrite GetLayersDir_eq, <- app_assoc.
  - rewrite Contains_char_app, ReplaceAll_char.
    assert (Contains (expand (λ x, if Ascii.eqb ":" x then "_" else String x "") digest) "/"
            = false) as ->; [|done].
    clear -Hd. induction digest as [|x d IH]; [done|].
    rewrite Contains_char_cons in Hd. apply orb_false_elim in Hd as [Hx Hd].
    cbn [expand]. rewrite Contains_char_app, (IH Hd), orb_false_r.
    destruct (Ascii.eqb ":" x); [done|]. by rewrite Contains_char_cons, Hx.
  - by destruct (ReplaceAll digest ":" "_").
  - intros E. apply (f_equal String.length) in E. rewrite length_append in E.
    simpl in E. lia.
  - intros E. apply (f_equal String.length) in E. rewrite length_append in E.
    simpl in E. lia.
Qed.


End PullLayer.


(** ** The [login] command *)

Section Login.
Context `{Env}.
Variable unmarshalConfig : string → result Config.t.
Variable marshalConfig : Config.t → result string.
Variable newHTTPClientErr : string → option string.
Variable urlParse : string → result string.

Lemma VerifyCredentials_Ok c st st1 :
  VerifyCredentials c st = (Ok tt, st1) ↔
  ∃ resp, doRequest c "GET" "/" ∅ st = (Ok resp, st1) ∧ StatusCode resp = StatusOK.
Proof.
  unfold VerifyCredentials, mbind, M_bind, wrap, fail, mret, M_ret.
  destruct (doRequest c "GET" "/" ∅ st) as [[resp|e] st2]; cbn [wrapErr].
  - destruct (Nat.eqb_spec (StatusCode resp) StatusOK) as [Hok|Hno].
    + split; [intros [= <-]; by exists resp|]. by intros (resp' & [= <- <-] & _).
    + split.
      * destruct (Nat.eqb _ StatusUnauthorized); [|done]. by destruct (negb _).
      * intros (resp' & [= <- <-] & Hst). done.
  - split; [done|]. by intros (resp' & [=] & _).
Qed.

(** X27: [loginCmd] saves the credentials only after the registry has
    answered with 200, to the first request or to the one sent again after
    a challenge. The file then holds the configuration [NewManager] read,
    with the credentials entered under the registry as it was typed, and
    nothing else has changed. In every other case the command exits and
    the file system is as [NewManager] left it. *)
Theorem loginCmd_saves_after_200 (arg : option string) (username password : string)
    (configDir : Path) (fs : FS) (w : World) (cfg : Config.t) (fs1 : FS) (c : Client) :
  let registryURL := default "docker.io" arg in
  let st0 :=
    {| auth := {| AuthConfig.Username := username; AuthConfig.Password := password;
                  AuthConfig.Token := "" |};
       world := w; sent := [] |} in
  NewManager unmarshalConfig configDir fs = (Ok cfg, fs1) →
  NewClient newHTTPClientErr urlParse registryURL "" = Ok c →
  match loginCmd unmarshalConfig marshalConfig newHTTPClientErr urlParse
          arg username password configDir fs w with
  | (Finished _, fs2, events) =>
      (∃ resp st1, doRequest c "GET" "/" ∅ st0 = (Ok resp, st1)
                   ∧ StatusCode resp = StatusOK ∧ events = sent st1)
      ∧ ∃ data,
          marshalConfig (SetAuth cfg registryURL username password) = Ok data
          ∧ fs2 = <[Join configDir "config.json" := File data]> fs1
  | (Exited _, fs2, _) => fs2 = fs1
  | (Panicked, _, _) => False
  end.
Proof.
  intros registryURL st0 Hmgr Hclient. unfold loginCmd.
  fold registryURL. replace (match arg with Some registry => registry | None => "docker.io" end)
    with registryURL by (by destruct arg).
  rewrite Hmgr, Hclient. fold st0.
  destruct (VerifyCredentials c st0) as [[[]|e] st1] eqn:Hv; [|done].
  apply VerifyCredentials_Ok in Hv as (resp & Hreq & Hst).
  unfold Save.
  destruct (marshalConfig (SetAuth cfg registryURL username password)) as [data|e] eqn:Hm;
    [|done].
  destruct (WriteFile fs1 (Join configDir "config.json") data) as [fs2|e] eqn:Hw;
    cbn [wrapErr]; [|done].
  split; [by exists resp, st1|]. exists data. split; [done|].
  by apply WriteFile_Ok in Hw as (-> & _ & _).
Qed.

End Login.

(** At a registry that answers every request with 200, with no
    configuration file yet. *)
Lemma loginCmd_saves_after_200_demo :
  isFinished
    (@loginCmd chainEnv (λ _, Err "unexpected end of JSON input") (λ _, Ok "saved")
       (λ _, None) Ok (Some "registry.example") "alice" "secret" ["home"; ".timage"] ∅ tt).1.1
  = true
  ∧ match @loginCmd chainEnv (λ _, Err "unexpected end of JSON input") (λ _, Ok "saved")
            (λ _, None) Ok (Some "registry.example") "alice" "secret" ["home"; ".timage"] ∅ tt
    with
    | (Finished _, fs2, events) =>
        (∃ resp st1,
           @doRequest chainEnv {| baseURL := "https://registry.example" |} "GET" "/" ∅
             (@Build_State chainEnv
                {| AuthConfig.Username := "alice"; AuthConfig.Password := "secret";
                   AuthConfig.Token := "" |} tt [])
           = (Ok resp, st1)
           ∧ StatusCode resp = StatusOK ∧ events = @sent chainEnv st1)
        ∧ ∃ data,
            Ok "saved" = Ok data
            ∧ fs2 = <[Join ["home"; ".timage"] "config.json" := File data]>
                      (@NewManager (λ _, Err "unexpected end of JSON input")
                         ["home"; ".timage"] ∅).2
    | (Exited _, fs2, _) =>
        fs2 = (@NewManager (λ _, Err "unexpected end of JSON input") ["home"; ".timage"] ∅).2
    | (Panicked, _, _) => False
    end.
Proof.
  split; [vm_compute; reflexivity|].
  apply (@loginCmd_saves_after_200 chainEnv (λ _, Err "unexpected end of JSON input")
           (λ _, Ok "saved") (λ _, None) Ok (Some "registry.example") "alice" "secret"
           ["home"; ".timage"] ∅ tt emptyConfig
           (@NewManager (λ _, Err "unexpected end of JSON input") ["home"; ".timage"] ∅).2
           {| baseURL := "https://registry.example" |}).
  - rewrite (surjective_pairing (NewManager _ _ _)) at 1. f_equal.
  - reflexivity.
Defined.

(** ** An upload the registry accepts *)

Section UploadSuccess.
Context `{Env}.

Lemma StartBlobUpload_accepted c name st resp st1 :
  doRequest c "POST" ("/" ++ name ++ "/blobs/uploads/") ∅ st = (Ok resp, st1) →
  StatusCode resp = StatusAccepted →
  Get (RespHeader resp) "Location" ≠ "" →
  StartBlobUpload c name st = (Ok (uploadLocation c (Get (RespHeader resp) "Location")), st1).
Proof.
  intros Hreq Hst Hloc. unfold StartBlobUpload, mbind, M_bind, fail, mret, M_ret.
  rewrite (wrap_Ok _ _ _ _ _ Hreq), Hst.
  change (negb (Nat.eqb StatusAccepted StatusAccepted)) with false. cbv iota.
  destruct (String.eqb_spec (Get (RespHeader resp) "Location") ""); [done|].
  unfold uploadLocation. by destruct (_ && _).
Qed.

Lemma blobPut_fields a uploadURL digest size req0 :
  Method (blobPut a uploadURL digest size req0) = Method req0
  ∧ URL (blobPut a uploadURL digest size req0) = withDigest uploadURL digest
  ∧ ReqBody (blobPut a uploadURL digest size req0) = ReqBody req0
  ∧ ReqHeader (blobPut a uploadURL digest size req0) !! "Content-Length" = Some (itoa size)
  ∧ ReqHeader (blobPut a uploadURL digest size req0) !! "Content-Type"
    = Some "application/octet-stream".
Proof.
  unfold blobPut, AddAuth.
  destruct (nonEmpty (AuthConfig.Token a)); [|destruct (_ && _)];
    cbn [setHeader Method URL ReqBody ReqHeader]; repeat split;
    rewrite ?(lookup_insert_ne _ "Docker-Distribution-API-Version"),
      ?(lookup_insert_ne _ "Authorization") by done;
    try apply lookup_insert_eq.
  all: rewrite lookup_insert_ne by done; apply lookup_insert_eq.
Qed.

(** X28: [UploadBlob] when the file is there and the registry accepts
    the upload. The POST is answered with 202 and a [Location]; the PUT
    goes to that location, behind the base URL and [/v2] unless it starts
    with a scheme, and its raw query is the one of that URL followed by
    [&digest=] and the digest, or [digest=] and the digest when that URL
    has no query; its body is the content of the file, its
    [Content-Length] the length of the content. It is sent once, and the
    upload succeeds exactly when the answer to it is 201. *)
Theorem UploadBlob_sends_file (c : Client) (fs : FS) (name digest : string) (srcPath : Path)
    (st : State) (content : string) (resp0 : Response) (st1 : State) (req0 : Request) :
  fs !! srcPath = Some (File content) →
  belowFile fs srcPath = false →
  doRequest c "POST" ("/" ++ name ++ "/blobs/uploads/") ∅ st = (Ok resp0, st1) →
  StatusCode resp0 = StatusAccepted →
  Get (RespHeader resp0) "Location" ≠ "" →
  let uploadURL := uploadLocation c (Get (RespHeader resp0) "Location") in
  NewRequest "PUT" uploadURL content = Ok req0 →
  let put := blobPut (auth st1) uploadURL digest (String.length content) req0 in
  sent (UploadBlob c fs name digest srcPath st).2 = (sent st1 ++ [(ByClient, put)])%list
  ∧ Method put = "PUT"
  ∧ URL put
    = urlWithRawQuery uploadURL
        (if nonEmpty (urlRawQuery uploadURL)
         then urlRawQuery uploadURL ++ "&digest=" ++ digest
         else "digest=" ++ digest)
  ∧ ReqBody put = content
  ∧ ReqHeader put !! "Content-Length" = Some (itoa (String.length content))
  ∧ ReqHeader put !! "Content-Type" = Some "application/octet-stream"
  ∧ ((UploadBlob c fs name digest srcPath st).1 = Ok tt
     ↔ ∃ resp w, httpDo put (world st1) = (Ok resp, w) ∧ StatusCode resp = StatusCreated).
Proof.
  intros Hfile Hway Hreq Hst Hloc uploadURL Hnew put.
  assert (UploadBlob c fs name digest srcPath st
          = wrap "failed to upload blob: "
              (UploadBlobMonolithic c uploadURL (File content) (String.length content)
                 digest) st1)
    as ->.
  { unfold UploadBlob, mbind, M_bind, lift.
    rewrite (openFile_entry _ _ _ Hfile Hway). cbn [wrapErr fileSize].
    by rewrite (wrap_Ok _ _ _ _ _ (StartBlobUpload_accepted _ _ _ _ _ Hreq Hst Hloc)). }
  unfold wrap.
  rewrite (UploadBlobMonolithic_eq c uploadURL (File content) _ _ _ _ Hnew).
  cbn [httpDoFile]. fold put.
  destruct (blobPut_fields (auth st1) uploadURL digest (String.length content) req0)
    as (F1 & F2 & F3 & F4 & F5).
  apply NewRequest_fields in Hnew as (M1 & _ & _ & M4).
  cbn [fst snd]. split; [done|]. fold put in F1, F2, F3, F4, F5.
  split; [by rewrite F1|]. split; [done|].
  split; [by rewrite F3|]. split; [done|]. split; [done|].
  destruct (httpDo put (world st1)) as [[resp|e] w]; cbn [fst wrapErr].
  - destruct (Nat.eqb_spec (StatusCode resp) StatusCreated) as [Hc|Hc]; cbn [wrapErr].
    + split; [by exists resp, w|done].
    + split; [done|]. by intros (resp' & w' & [= <- <-] & Hc').
  - split; [done|]. by intros (resp' & w' & [=] & _).
Qed.

End UploadSuccess.

(** At the example registry, which answers the POST with the relative
    location [/upload/1]. *)
Lemma UploadBlob_sends_file_demo :
  ∃ put,
    sent (@UploadBlob demoEnv demoClient pushStore "library/nginx" "sha256:c0ffee"
            (GetConfigPath demoLayout "nginx:latest") anonymous).2
    = (sent (@doRequest demoEnv demoClient "POST" "/library/nginx/blobs/uploads/" ∅
               anonymous).2 ++ [(ByClient, put)])%list
    ∧ Method put = "PUT"
    ∧ URL put = "https://registry.example/v2/upload/1?digest=sha256:c0ffee"
    ∧ ReqBody put = "config"
    ∧ ReqHeader put !! "Content-Length" = Some "6".
Proof.
  destruct (@UploadBlob_sends_file demoEnv demoClient pushStore "library/nginx" "sha256:c0ffee"
              (GetConfigPath demoLayout "nginx:latest") anonymous "config"
              {| StatusCode := 202; RespHeader := {[ "Location" := "/upload/1" ]}; Body := "" |}
              (@doRequest demoEnv demoClient "POST" "/library/nginx/blobs/uploads/" ∅
                 anonymous).2
              {| Method := "PUT"; URL := "https://registry.example/v2/upload/1";
                 ReqHeader := ∅; ReqBody := "config" |})
    as (Hsent & Hm & Hu & Hb & Hl & _).
  - vm_compute. reflexivity.
  - vm_compute. reflexivity.
  - rewrite (surjective_pairing (@doRequest demoEnv _ _ _ _ _)) at 1. f_equal.
  - reflexivity.
  - vm_compute. discriminate.
  - reflexivity.
  - eexists. split; [exact Hsent|]. split; [exact Hm|]. split; [exact Hu|].
    split; [exact Hb|exact Hl].
Defined.

(** ** File systems with proper entry names *)

Section ValidNames.

Lemma validName_spec name :
  validName name = true
  ↔ Contains name "/" = false ∧ name ≠ "" ∧ name ≠ "." ∧ name ≠ "..".
Proof.
  unfold validName. rewrite !andb_true_iff, !negb_true_iff, !String.eqb_neq. tauto.
Qed.

Lemma Join_valid dir name : validName name = true → Join dir name = (dir ++ [name])%list.
Proof. intros (H1 & H2 & H3 & H4)%validName_spec. by apply Join_component. Qed.

Lemma forallb_prefix (p q : Path) :
  q `prefix_of` p → forallb validName p = true → forallb validName q = true.
Proof. intros [k ->]. rewrite forallb_app. by intros [-> _]%andb_prop. Qed.

Lemma validFS_insert fs k n :
  validFS fs → forallb validName k = true → validFS (<[k := n]> fs).
Proof. intros Hfs Hk. by apply map_Forall_insert_2. Qed.

Lemma validFS_MkdirAll fs p fs' :
  validFS fs → forallb validName p = true → MkdirAll fs p = Ok fs' → validFS fs'.
Proof.
  intros Hfs Hp [H1 H2]%MkdirAll_Ok q n Hq.
  destruct (decide (q `prefix_of` p)) as [Hpre|Hpre].
  - by apply (forallb_prefix p).
  - rewrite (H2 q Hpre) in Hq. by apply (Hfs q n).
Qed.

Lemma validFS_saveInto l r name data fs fs' :
  validFS fs → forallb validName (GetImageDir l r) = true → validName name = true →
  name ≠ "layers" →
  saveInto l r name data fs = Ok fs' → validFS fs'.
Proof.
  intros Hfs Hdir Hname Hne Hs. apply saveInto_Ok in Hs as (_ & H2 & H3 & _); [|done].
  intros q n Hq.
  destruct (decide (q `prefix_of` GetLayersDir l r)) as [Hpre|Hpre].
  { apply (forallb_prefix _ _ Hpre). rewrite GetLayersDir_eq, forallb_app, Hdir. done. }
  destruct (decide (q = (GetImageDir l r ++ [name])%list)) as [->|Hq'].
  { rewrite forallb_app, Hdir. simpl. by rewrite Hname. }
  rewrite (H3 q Hpre Hq') in Hq. by apply (Hfs q n).
Qed.

Lemma ReadDir_valid fs dir files :
  validFS fs → ReadDir fs dir = Ok files → Forall (λ file, validName file.1 = true) files.
Proof.
  intros Hfs [_ Hent]%ReadDir_Ok. apply Forall_forall. intros [name b] Hin.
  apply Hent in Hin as (n & Hl & _). apply Hfs in Hl.
  rewrite forallb_app in Hl. apply andb_prop in Hl as [_ Hl]. simpl in Hl.
  by rewrite andb_true_r in Hl.
Qed.

Lemma tagCmd_copyLayers_frame src dst files fs fs' :
  Forall (λ file, validName file.1 = true) files →
  tagCmd_copyLayers src dst files fs = Ok fs' →
  ∀ q, (∀ name, q ≠ (dst ++ [name])%list) → fs' !! q = fs !! q.
Proof.
  intros Hvalid. revert fs. induction Hvalid as [|[name b] files Hname _ IH]; intros fs.
  - by intros [= <-].
  - cbn [tagCmd_copyLayers fst snd]. destruct b; [apply IH|].
    destruct (copyFile fs (Join src name) (Join dst name)) as [fs1|e] eqn:Hc; [|done].
    intros Hrest q Hq. rewrite (IH _ Hrest q Hq).
    apply copyFile_Ok in Hc as (data & _ & ->). rewrite lookup_insert_ne; [done|].
    simpl in Hname. rewrite (Join_valid _ _ Hname). intros Heq. by apply (Hq name).
Qed.

Lemma safeName_valid r : Contains r "/" || Contains r ":" = true → validName (safeName r) = true.
Proof.
  intros Hsep. apply validName_spec. split; [apply safeName_no_slash|].
  apply safeName_not_special; intros ->; discriminate Hsep.
Qed.

Lemma encodeOldEncoding_underscore r :
  Contains r "/" || Contains r ":" = true → Contains (encodeOldEncoding r) "_" = true.
Proof.
  intros Hsep. rewrite encodeOldEncoding_expand.
  induction r as [|c r IH]; [done|]. cbn [expand]. rewrite Contains_char_app.
  rewrite !Contains_char_cons in Hsep. unfold oldByte at 1.
  destruct (Ascii.eqb ":" c); [done|]. destruct (Ascii.eqb "/" c); [done|].
  simpl in Hsep. rewrite (IH Hsep). apply orb_true_r.
Qed.

Lemma encodeOldEncoding_valid r :
  Contains r "/" || Contains r ":" = true → validName (encodeOldEncoding r) = true.
Proof.
  intros Hsep. apply validName_spec. split; [apply encodeOldEncoding_no_sep|].
  pose proof (encodeOldEncoding_underscore r Hsep) as Hu.
  repeat split; intros E; by rewrite E in Hu.
Qed.

Lemma tagCmd_layersDir_eq storageDir r :
  Contains r "/" || Contains r ":" = true →
  tagCmd_layersDir storageDir r
  = (storageDir ++ ["images"; encodeOldEncoding r; "layers"])%list.
Proof.
  intros Hsep.
  change (tagCmd_layersDir storageDir r)
    with (Join (Join (Join storageDir "images") (encodeOldEncoding r)) "layers").
  rewrite (Join_valid _ (encodeOldEncoding r)) by by apply encodeOldEncoding_valid.
  change (Join storageDir "images") with (storageDir ++ ["images"])%list.
  change (Join ?d "layers") with (d ++ ["layers"])%list.
  by rewrite <- !app_assoc.
Qed.

Lemma safeName_ne_legacy r :
  Contains r "/" || Contains r ":" = true → safeName r ≠ encodeOldEncoding r.
Proof.
  intros Hsep Heq. apply (f_equal String.length) in Heq.
  rewrite encodeOldEncoding_length in Heq.
  destruct (safeName_length r) as [_ Hlt]. specialize (Hlt Hsep). lia.
Qed.

End ValidNames.

(** ** The [tag] command *)

Section TagCommand.
Variable unmarshalManifest : string → result Manifest.t.
Variable marshalManifest : Manifest.t → result string.

Lemma SaveManifest_saveInto l r manifest fs fs' :
  SaveManifest marshalManifest l r manifest fs = Ok fs' →
  ∃ data, saveInto l r "manifest.json" data fs = Ok fs'.
Proof.
  unfold SaveManifest, saveInto, CreateImageDir.
  destruct (MkdirAll fs (GetLayersDir l r)) as [fs1|e]; cbn [wrapErr]; [|done].
  destruct (marshalManifest manifest) as [data|e]; [|done].
  rewrite GetManifestPath_eq. intros Hw. exists data.
  by destruct (WriteFile fs1 _ data).
Qed.

Lemma longer_not_prefix (p q : Path) :
  (List.length q < List.length p)%nat → ¬ p `prefix_of` q.
Proof. intros Hlt Hp%prefix_length_le. lia. Qed.

(** X29: [tagCmd] gives the target a manifest and a config, but no layer
    file where the store keeps the layers of an image: when the target
    holds a slash or a colon, every layer path of the target holds after a
    successful run what it held before. The command copies layer files
    between the directories of the legacy encoding. *)
Theorem tagCmd_leaves_layers_behind (storageDir : Path) (source target : string)
    (fs fs' : FS) :
  forallb validName storageDir = true →
  validFS fs →
  Contains target "/" || Contains target ":" = true →
  tagCmd unmarshalManifest marshalManifest storageDir source target fs = Finished fs' →
  ImageExists {| rootDir := storageDir |} fs' target = true
  ∧ ∀ digest,
      Contains digest "/" = false →
      fs' !! GetLayerPath {| rootDir := storageDir |} target digest
      = fs !! GetLayerPath {| rootDir := storageDir |} target digest.
Proof.
  intros Hsd Hfs Hsep. unfold tagCmd, NewLayout.
  set (l := {| rootDir := storageDir |}).
  destruct (MkdirAll fs storageDir) as [fs0|e] eqn:Hm0; cbn [wrapErr]; [|done].
  destruct (negb (ImageExists l fs0 source)); [done|].
  destruct (LoadManifest unmarshalManifest l source fs0) as [manifest|e]; [|done].
  destruct (SaveManifest marshalManifest l target manifest fs0) as [fs1|e] eqn:Hs1; [|done].
  destruct (LoadConfig l source fs1) as [configData|e]; [|done].
  destruct (SaveConfig l target configData fs1) as [fs2|e] eqn:Hs2; [|done].
  destruct (MkdirAll fs2 (removelast (tagCmd_layersDir storageDir target)))
    as [fs3|e] eqn:Hm3; [|done].
  apply SaveManifest_saveInto in Hs1 as [data Hs1]. apply SaveConfig_saveInto in Hs2.
  assert (Himg : GetImageDir l target = (storageDir ++ ["images"; safeName target])%list).
  { rewrite (GetImageDir_safeName l target Hsep), imagesDir_eq. by rewrite <- app_assoc. }
  assert (Hvimg : forallb validName (GetImageDir l target) = true).
  { rewrite Himg, forallb_app, Hsd. simpl. by rewrite (safeName_valid _ Hsep). }
  assert (Ht : tagCmd_layersDir storageDir target
               = (storageDir ++ ["images"; encodeOldEncoding target; "layers"])%list)
    by by apply tagCmd_layersDir_eq.
  assert (Hrt : removelast (tagCmd_layersDir storageDir target)
                = (storageDir ++ ["images"; encodeOldEncoding target])%list).
  { rewrite Ht. change (storageDir ++ ["images"; encodeOldEncoding target; "layers"])%list
      with (storageDir ++ ["images"; encodeOldEncoding target] ++ ["layers"])%list.
    rewrite app_assoc. apply removelast_last. }
  rewrite Hrt in Hm3.
  pose proof (validFS_MkdirAll _ _ _ Hfs Hsd Hm0) as Hv0.
  assert (Hv1 : validFS fs1).
  { by apply (validFS_saveInto l target "manifest.json" data fs0 fs1). }
  assert (Hv2 : validFS fs2).
  { by apply (validFS_saveInto l target "config.json" configData fs1 fs2). }
  assert (Hv3 : validFS fs3).
  { apply (validFS_MkdirAll fs2 (storageDir ++ ["images"; encodeOldEncoding target])%list
             fs3 Hv2); [|exact Hm3].
    rewrite forallb_app, Hsd. simpl. by rewrite (encodeOldEncoding_valid _ Hsep). }
  apply MkdirAll_Ok in Hm0 as [_ F0]. apply MkdirAll_Ok in Hm3 as [_ F3].
  apply saveInto_Ok in Hs1 as (_ & D1 & F1 & _); [|done].
  apply saveInto_Ok in Hs2 as (_ & D2 & F2 & _); [|done].
  assert (Hframe : ∀ q, (List.length storageDir + 3 < List.length q)%nat →
                        fs3 !! q = fs !! q).
  { intros q Hq. rewrite F3, F2, F1, F0; [done|..].
    - apply longer_not_prefix. lia.
    - apply longer_not_prefix. rewrite GetLayersDir_eq, Himg, !length_app. simpl. lia.
    - intros ->. rewrite Himg, !length_app in Hq. simpl in Hq. lia.
    - apply longer_not_prefix. rewrite GetLayersDir_eq, Himg, !length_app. simpl. lia.
    - intros ->. rewrite Himg, !length_app in Hq. simpl in Hq. lia.
    - apply longer_not_prefix. rewrite !length_app. simpl. lia. }
  assert (Hexists3 : fs3 !! GetImageDir l target = Some Dir).
  { destruct (decide (GetImageDir l target
                      `prefix_of` (storageDir ++ ["images"; encodeOldEncoding target])%list))
      as [Hp|Hp].
    - exfalso. destruct Hp as [k Hk]. rewrite Himg in Hk.
      assert (k = []) as ->.
      { apply (f_equal List.length) in Hk. rewrite !length_app in Hk. simpl in Hk.
        destruct k; [done|simpl in Hk; lia]. }
      rewrite app_nil_r in Hk. apply app_inv_head in Hk. injection Hk as Hk.
      by apply (safeName_ne_legacy target Hsep).
    - rewrite (F3 _ Hp). apply D2. rewrite GetLayersDir_eq. apply prefix_snoc_self. }
  assert (Hlayer : ∀ digest, Contains digest "/" = false →
            GetLayerPath l target digest
            = (storageDir ++ ["images"; safeName target; "layers";
                              (ReplaceAll digest ":" "_" ++ ".tar.gz")%string])%list).
  { intros digest Hd. rewrite (GetLayerPath_eq _ _ _ Hd), Himg. by rewrite <- app_assoc. }
  destruct (ReadDir fs3 (tagCmd_layersDir storageDir source)) as [files|e] eqn:Hrd.
  2:{ intros [= <-]. split; [by apply ImageExists_current; unfold Stat; rewrite Hexists3|].
      intros digest Hd. apply Hframe. rewrite (Hlayer _ Hd), length_app. simpl. lia. }
  destruct (tagCmd_copyLayers _ _ files fs3) as [fs4|e] eqn:Hcopy; [|done].
  intros [= <-].
  pose proof (tagCmd_copyLayers_frame _ _ _ _ _ (ReadDir_valid _ _ _ Hv3 Hrd) Hcopy) as F4.
  split.
  - apply ImageExists_current. unfold Stat. rewrite F4, Hexists3; [done|].
    intros name. rewrite Ht, Himg. intros Heq. apply (f_equal List.length) in Heq.
    rewrite !length_app in Heq. simpl in Heq. lia.
  - intros digest Hd. rewrite F4.
    + apply Hframe. rewrite (Hlayer _ Hd), length_app. simpl. lia.
    + intros name. rewrite (Hlayer _ Hd), Ht.
      change (storageDir ++ ["images"; encodeOldEncoding target; "layers"])%list
        with (storageDir ++ ["images"; encodeOldEncoding target] ++ ["layers"])%list.
      rewrite <- !app_assoc. intros Heq%app_inv_head. injection Heq as Heq _.
      by apply (safeName_ne_legacy target Hsep).
Qed.

End TagCommand.

(** Tagging the image of [pulledStore]: the command succeeds, the new
    tag exists, and the layer of the image is not among its files. *)
Lemma tagCmd_leaves_layers_behind_demo :
  ∃ fs',
    tagCmd (λ _, Ok amd64Image) (λ _, Ok "{}") ["store"] "nginx:latest" "nginx:stable"
      pulledStore = Finished fs'
    ∧ ImageExists demoLayout fs' "nginx:stable" = true
    ∧ fs' !! GetLayerPath demoLayout "nginx:stable" "sha256:0123456789ab" = None
    ∧ pulledStore !! GetLayerPath demoLayout "nginx:latest" "sha256:0123456789ab"
      = Some (File "layer").
Proof.
  assert (isFinished (tagCmd (λ _, Ok amd64Image) (λ _, Ok "{}") ["store"] "nginx:latest"
                        "nginx:stable" pulledStore) = true) as Hfin.
  { vm_compute. reflexivity. }
  destruct (tagCmd (λ _, Ok amd64Image) (λ _, Ok "{}") ["store"] "nginx:latest"
              "nginx:stable" pulledStore) as [fs'| |] eqn:Hrun; try discriminate Hfin.
  exists fs'. split; [reflexivity|].
  destruct (tagCmd_leaves_layers_behind (λ _, Ok amd64Image) (λ _, Ok "{}") ["store"]
              "nginx:latest" "nginx:stable" pulledStore fs') as [Hex Hlayers].
  - reflexivity.
  - unfold validFS. apply (bool_decide_eq_true_1 _). vm_compute. reflexivity.
  - reflexivity.
  - exact Hrun.
  - unfold demoLayout. split; [exact Hex|]. rewrite (Hlayers "sha256:0123456789ab" eq_refl).
    split; vm_compute; reflexivity.
Defined.

(** ** The [tag] command between plain names *)

Section TagPlainNames.
Variable unmarshalManifest : string → result Manifest.t.
Variable marshalManifest : Manifest.t → result string.

Lemma tagCmd_copyLayers_frame_files src dst files fs fs' :
  Forall (λ file, validName file.1 = true) files →
  tagCmd_copyLayers src dst files fs = Ok fs' →
  ∀ q, (∀ name, (name, false) ∈ files → q ≠ (dst ++ [name])%list) → fs' !! q = fs !! q.
Proof.
  intros Hvalid. revert fs. induction Hvalid as [|[name b] files Hname _ IH]; intros fs.
  - by intros [= <-].
  - cbn [tagCmd_copyLayers fst snd]. destruct b.
    + intros Hrest q Hq. apply (IH _ Hrest). intros n Hn. apply Hq. by right.
    + destruct (copyFile fs (Join src name) (Join dst name)) as [fs1|e] eqn:Hc; [|done].
      intros Hrest q Hq. rewrite (IH _ Hrest q).
      2:{ intros n Hn. apply Hq. by right. }
      apply copyFile_Ok in Hc as (data & _ & ->). rewrite lookup_insert_ne; [done|].
      simpl in Hname. rewrite (Join_valid _ _ Hname). intros Heq.
      apply (Hq name); [by left|done].
Qed.

Lemma tagCmd_copyLayers_copies src dst files fs fs' :
  Forall (λ file, validName file.1 = true) files →
  src ≠ dst → List.length src = List.length dst →
  tagCmd_copyLayers src dst files fs = Ok fs' →
  (∀ name data, fs !! (src ++ [name])%list = Some (File data) →
                fs' !! (src ++ [name])%list = Some (File data))
  ∧ (∀ name data, (name, false) ∈ files →
                  fs !! (src ++ [name])%list = Some (File data) →
                  fs' !! (dst ++ [name])%list = Some (File data)).
Proof.
  intros Hvalid Hne Hlen.
  assert (Hdiff : ∀ n m, (src ++ [n])%list ≠ (dst ++ [m])%list).
  { intros n m Heq. apply app_inj_1 in Heq as [Heq _]; done. }
  revert fs. induction Hvalid as [|[name b] files Hname Hvalid IH]; intros fs.
  - intros [= <-]. split; [done|]. intros name data Hin. by apply elem_of_nil in Hin.
  - cbn [tagCmd_copyLayers fst snd]. destruct b.
    + intros Hrest. destruct (IH _ Hrest) as [I1 I2]. split; [done|].
      intros n data Hin Hsrc. apply I2; [|done].
      apply elem_of_cons in Hin as [[= _ ?]|Hin]; done.
    + destruct (copyFile fs (Join src name) (Join dst name)) as [fs1|e] eqn:Hc; [|done].
      intros Hrest. destruct (IH _ Hrest) as [I1 I2].
      apply copyFile_Ok in Hc as (d & Hsrc & ->). simpl in Hname.
      rewrite !(Join_valid _ _ Hname) in *.
      rewrite decide_False in * by apply Hdiff.
      split.
      * intros n data Hn. apply I1. by rewrite lookup_insert_ne.
      * intros n data Hin Hn.
        destruct (decide ((n, false) ∈ files)) as [Hin'|Hnot].
        { apply I2; [done|]. by rewrite lookup_insert_ne. }
        apply elem_of_cons in Hin as [[= ->]|Hin]; [|done].
        rewrite (tagCmd_copyLayers_frame_files _ _ _ _ _ Hvalid Hrest).
        -- rewrite lookup_insert_eq. congruence.
        -- intros m Hm Heq. apply app_inj_tail in Heq as [_ <-]. done.
Qed.

(** X30: between two names without slash and colon [tagCmd] does copy
    the layers: after a successful run every regular file of the layers
    directory of the source is in the layers directory of the target, with
    the same content. The two names differ, and the file system is one in
    which the layers directory of the source exists. *)
Theorem tagCmd_copies_layers_plain (storageDir : Path) (source target : string)
    (fs fs' : FS) :
  forallb validName storageDir = true →
  validFS fs →
  validName source = true → Contains source ":" = false →
  validName target = true → Contains target ":" = false →
  source ≠ target →
  fs !! GetLayersDir {| rootDir := storageDir |} source = Some Dir →
  tagCmd unmarshalManifest marshalManifest storageDir source target fs = Finished fs' →
  ∀ name data,
    fs !! (GetLayersDir {| rootDir := storageDir |} source ++ [name])%list = Some (File data) →
    fs' !! (GetLayersDir {| rootDir := storageDir |} target ++ [name])%list
    = Some (File data).
Proof.
  intros Hsd Hfs Hvs Hcs Hvt Hct Hst Hsrcdir. unfold tagCmd, NewLayout.
  set (l := {| rootDir := storageDir |}) in *.
  assert (Hplain : ∀ r, validName r = true → Contains r ":" = false →
            GetImageDir l r = (storageDir ++ ["images"; r])%list
            ∧ tagCmd_layersDir storageDir r = (storageDir ++ ["images"; r; "layers"])%list
            ∧ GetLayersDir l r = (storageDir ++ ["images"; r; "layers"])%list).
  { intros r Hv Hc. pose proof Hv as (V1 & V2 & V3 & V4)%validName_spec.
    assert (GetImageDir l r = (storageDir ++ ["images"; r])%list) as Hi.
    { rewrite GetImageDir_child by done. rewrite safeName_id; [done|]. by rewrite V1, Hc. }
    split; [done|]. split.
    - change (tagCmd_layersDir storageDir r)
        with (Join (Join (Join storageDir "images") (encodeOldEncoding r)) "layers").
      rewrite encodeOldEncoding_expand, legacy_plain_unchanged by done.
      rewrite (Join_valid _ r Hv).
      change (Join storageDir "images") with (storageDir ++ ["images"])%list.
      change (Join ?d "layers") with (d ++ ["layers"])%list. by rewrite <- !app_assoc.
    - rewrite GetLayersDir_eq, Hi. by rewrite <- app_assoc. }
  destruct (Hplain source Hvs Hcs) as (Is & Ts & Ls).
  destruct (Hplain target Hvt Hct) as (It & Tt & Lt).
  destruct (MkdirAll fs storageDir) as [fs0|e] eqn:Hm0; cbn [wrapErr]; [|done].
  destruct (negb (ImageExists l fs0 source)); [done|].
  destruct (LoadManifest unmarshalManifest l source fs0) as [manifest|e]; [|done].
  destruct (SaveManifest marshalManifest l target manifest fs0) as [fs1|e] eqn:Hs1; [|done].
  destruct (LoadConfig l source fs1) as [configData|e]; [|done].
  destruct (SaveConfig l target configData fs1) as [fs2|e] eqn:Hs2; [|done].
  rewrite Ts, Tt.
  assert (Hrt : removelast (storageDir ++ ["images"; target; "layers"])%list
                = (storageDir ++ ["images"; target])%list).
  { change (storageDir ++ ["images"; target; "layers"])%list
      with (storageDir ++ ["images"; target] ++ ["layers"])%list.
    rewrite app_assoc. apply removelast_last. }
  rewrite Hrt.
  destruct (MkdirAll fs2 (storageDir ++ ["images"; target])) as [fs3|e] eqn:Hm3; [|done].
  apply SaveManifest_saveInto in Hs1 as [mdata Hs1]. apply SaveConfig_saveInto in Hs2.
  assert (Hvimg : forallb validName (GetImageDir l target) = true).
  { rewrite It, forallb_app, Hsd. simpl. by rewrite Hvt. }
  pose proof (validFS_MkdirAll _ _ _ Hfs Hsd Hm0) as Hv0.
  assert (Hv1 : validFS fs1).
  { by apply (validFS_saveInto l target "manifest.json" mdata fs0 fs1). }
  assert (Hv2 : validFS fs2).
  { by apply (validFS_saveInto l target "config.json" configData fs1 fs2). }
  assert (Hv3 : validFS fs3).
  { apply (validFS_MkdirAll fs2 (storageDir ++ ["images"; target])%list fs3 Hv2);
      [|exact Hm3]. rewrite forallb_app, Hsd. simpl. by rewrite Hvt. }
  apply MkdirAll_Ok in Hm0 as [D0 F0]. apply MkdirAll_Ok in Hm3 as [D3 F3].
  apply saveInto_Ok in Hs1 as (_ & D1 & F1 & _); [|done].
  apply saveInto_Ok in Hs2 as (_ & D2 & F2 & _); [|done].
  rewrite Lt, It in *.
  assert (Hframe : ∀ q, (List.length storageDir + 3 < List.length q)%nat →
                        fs3 !! q = fs !! q).
  { intros q Hq. rewrite F3, F2, F1, F0; [done|..].
    - apply longer_not_prefix. lia.
    - apply longer_not_prefix. rewrite !length_app. simpl. lia.
    - intros ->. rewrite !length_app in Hq. simpl in Hq. lia.
    - apply longer_not_prefix. rewrite !length_app. simpl. lia.
    - intros ->. rewrite !length_app in Hq. simpl in Hq. lia.
    - apply longer_not_prefix. rewrite !length_app. simpl. lia. }
  assert (Hdir3 : fs3 !! (storageDir ++ ["images"; source; "layers"])%list = Some Dir).
  { rewrite Ls in Hsrcdir.
    assert (¬ (storageDir ++ ["images"; source; "layers"])%list
              `prefix_of` (storageDir ++ ["images"; target])%list) as N3.
    { apply longer_not_prefix. rewrite !length_app. simpl. lia. }
    assert (∀ name, (storageDir ++ ["images"; source; "layers"])%list
                    ≠ ((storageDir ++ ["images"; target]) ++ [name])%list) as N2.
    { intros name. rewrite <- app_assoc. intros Heq%app_inv_head. injection Heq as Heq _.
      done. }
    assert (¬ (storageDir ++ ["images"; source; "layers"])%list
              `prefix_of` (storageDir ++ ["images"; target; "layers"])%list) as N1.
    { intros [k Hk]. assert (k = []) as ->.
      { apply (f_equal List.length) in Hk. rewrite !length_app in Hk. simpl in Hk.
        destruct k; [done|simpl in Hk; lia]. }
      rewrite app_nil_r in Hk. apply app_inv_head in Hk. injection Hk as Hk. done. }
    rewrite (F3 _ N3), (F2 _ N1 (N2 _)), (F1 _ N1 (N2 _)).
    destruct (decide ((storageDir ++ ["images"; source; "layers"])%list
                      `prefix_of` storageDir)) as [Hp|Hp].
    - apply prefix_length_le in Hp. rewrite length_app in Hp. simpl in Hp. lia.
    - by rewrite (F0 _ Hp). }
  destruct (ReadDir fs3 (storageDir ++ ["images"; source; "layers"])) as [files|e] eqn:Hrd.
  2:{ unfold ReadDir in Hrd. by rewrite Hdir3 in Hrd. }
  destruct (tagCmd_copyLayers _ _ files fs3) as [fs4|e] eqn:Hcopy; [|done].
  intros [= <-] name data Hfile. rewrite Ls in Hfile.
  assert (fs3 !! ((storageDir ++ ["images"; source; "layers"]) ++ [name])%list
          = Some (File data)) as Hfile3.
  { rewrite Hframe; [done|]. rewrite !length_app. simpl. lia. }
  pose proof (ReadDir_valid _ _ _ Hv3 Hrd) as Hvalid.
  apply ReadDir_Ok in Hrd as [_ Hent].
  destruct (tagCmd_copyLayers_copies
              (storageDir ++ ["images"; source; "layers"])%list
              (storageDir ++ ["images"; target; "layers"])%list files fs3 fs4 Hvalid)
    as [_ Hcopied]; [|by rewrite !length_app|exact Hcopy|].
  { intros Heq%app_inv_head. injection Heq as Heq. done. }
  apply Hcopied; [|done]. apply Hent. by exists (File data).
Qed.

End TagPlainNames.

(** Tagging [busybox] as [mybox]: the layer is copied. *)
Lemma tagCmd_copies_layers_plain_demo :
  ∃ fs',
    tagCmd (λ _, Ok amd64Image) (λ _, Ok "{}") ["store"] "busybox" "mybox" plainStore
    = Finished fs'
    ∧ fs' !! GetLayerPath demoLayout "mybox" "sha256:0123456789ab" = Some (File "layer").
Proof.
  assert (isFinished (tagCmd (λ _, Ok amd64Image) (λ _, Ok "{}") ["store"] "busybox"
                        "mybox" plainStore) = true) as Hfin.
  { vm_compute. reflexivity. }
  destruct (tagCmd (λ _, Ok amd64Image) (λ _, Ok "{}") ["store"] "busybox" "mybox"
              plainStore) as [fs'| |] eqn:Hrun; try discriminate Hfin.
  exists fs'. split; [reflexivity|].
  apply (tagCmd_copies_layers_plain (λ _, Ok amd64Image) (λ _, Ok "{}") ["store"]
           "busybox" "mybox" plainStore fs' eq_refl) with (name := "sha256_0123456789ab.tar.gz").
  - unfold validFS. apply (bool_decide_eq_true_1 _). vm_compute. reflexivity.
  - reflexivity.
  - reflexivity.
  - reflexivity.
  - reflexivity.
  - discriminate.
  - vm_compute. reflexivity.
  - exact Hrun.
  - vm_compute. reflexivity.
Defined.
